(** * Batch engine of [run_flash_searcher_mm.py]: a shallow embedding

    The development follows the source file top-down:

    - [Py]       : the fragment of Python's data model the engine touches
                   (JSON-shaped values, dictionaries in insertion order,
                   exceptions, truthiness, hashing);
    - [Json]     : [json.dump] / [json.load] on token streams;
    - [Engine]   : the files, [process_item], [safe_write] and [main], with
                   the external collaborators (model client, inspection
                   tools, agent) taken as the fields of a [World] and the
                   completion order of the pool as a schedule;
    - [Store]    : what it means for the output store to hold records;
    - [Entry]    : the path resolution of the command line entry;
    - [Validate] : the report tool of [validate.py], the chat model taken
                   as the field of a [Judge];
    - [Examples] : stub collaborators and small inputs;
    - facts about the data model, the printer and the parser;
    - the properties of the worker task, the result sink, the completion
      ledger and whole runs, and their instances on the examples;
    - the growth of the store, the edges of a run, the resume, the entry
      and the report tool, and their instances. *)

From Stdlib Require Import ZArith String Ascii List Lia Permutation.
From stdpp Require Import base option list gmap strings sets.
From Stdlib Require Import DecimalString.

Local Open Scope Z_scope.
Local Open Scope string_scope.
Local Open Scope list_scope.

(* ===================================================================== *)
(** ** Python values, exceptions and results *)
(* ===================================================================== *)

Module Py.

(** Objects that [json.load] can produce.  Numbers are integers; a [dict]
    keeps its pairs in insertion order, keys are strings. *)
#[warnings="-register-all"]
Inductive value : Type :=
| VNone
| VBool (b : bool)
| VInt (n : Z)
| VStr (s : string)
| VList (l : list value)
| VDict (d : list (string * value)).

Abbreviation dict := (list (string * value)).

(** Exception classes the engine can meet.  [NonException] stands for the
    classes deriving from [BaseException] only ([KeyboardInterrupt],
    [SystemExit], ...), which [except Exception] lets through. *)
Inductive exc_class : Type :=
| KeyError | TypeError | AttributeError | ValueError
| FileNotFoundError | JSONDecodeError
| OtherException (name : string)
| NonException (name : string).

(** An exception object: its class and [str(e)]. *)
Record exn : Type := mkExn { exc_cls : exc_class; exc_str : string }.

Definition is_Exception (e : exn) : bool :=
  match exc_cls e with NonException _ => false | _ => true end.

Inductive result (A : Type) : Type :=
| Ok (a : A)
| Raise (e : exn).
Arguments Ok {A} a.
Arguments Raise {A} e.

#[export] Instance result_ret : MRet result := fun A a => Ok a.
#[export] Instance result_bind : MBind result := fun A B f m =>
  match m with Ok a => f a | Raise e => Raise e end.

Definition raise {A} (c : exc_class) (msg : string) : result A :=
  Raise (mkExn c msg).

(** *** Strings *)

Definition ascii_lower (c : ascii) : ascii :=
  let n := nat_of_ascii c in
  if Nat.leb 65 n && Nat.leb n 90 then ascii_of_nat (n + 32) else c.

Fixpoint str_lower (s : string) : string :=
  match s with
  | EmptyString => EmptyString
  | String c s' => String (ascii_lower c) (str_lower s')
  end.

Definition endswith (s suf : string) : bool :=
  let n := String.length s in
  let m := String.length suf in
  if Nat.leb m n then String.eqb (substring (n - m) m s) suf else false.

(** [sub in s] on strings. *)
Fixpoint str_contains (sub s : string) : bool :=
  if String.prefix sub s then true
  else match s with
       | EmptyString => false
       | String _ s' => str_contains sub s'
       end.

Fixpoint str_chars (s : string) : list value :=
  match s with
  | EmptyString => []
  | String c s' => VStr (String c EmptyString) :: str_chars s'
  end.

Fixpoint str_take (n : nat) (s : string) : string :=
  match n, s with
  | S n', String c s' => String c (str_take n' s')
  | _, _ => EmptyString
  end.

(** *** Dictionaries *)

Fixpoint dict_get (d : dict) (k : string) : option value :=
  match d with
  | [] => None
  | (k', v) :: d' => if String.eqb k k' then Some v else dict_get d' k
  end.

(** [d[k] = v]: an existing key keeps its position, a new one goes last. *)
Fixpoint dict_set (d : dict) (k : string) (v : value) : dict :=
  match d with
  | [] => [(k, v)]
  | (k', v') :: d' =>
      if String.eqb k k' then (k', v) :: d' else (k', v') :: dict_set d' k v
  end.

(** [{**d, **d2}]. *)
Definition dict_update (d d2 : dict) : dict :=
  fold_left (fun acc kv => dict_set acc (fst kv) (snd kv)) d2 d.

Definition dict_keys (d : dict) : list string := map fst d.

(** *** Operations on objects, with the exceptions Python raises *)

Definition type_name (v : value) : string :=
  match v with
  | VNone => "NoneType" | VBool _ => "bool" | VInt _ => "int"
  | VStr _ => "str" | VList _ => "list" | VDict _ => "dict"
  end.

(** [v[k]] for a string [k]. *)
Definition py_getitem (v : value) (k : string) : result value :=
  match v with
  | VDict d =>
      match dict_get d k with
      | Some x => Ok x
      | None => raise KeyError ("'" +:+ k +:+ "'")
      end
  | VList _ => raise TypeError "list indices must be integers or slices, not str"
  | VStr _ => raise TypeError "string indices must be integers, not 'str'"
  | _ => raise TypeError ("'" +:+ type_name v +:+ "' object is not subscriptable")
  end.

(** [v.get(k)]: only a [dict] has the method. *)
Definition py_get (v : value) (k : string) : result value :=
  match v with
  | VDict d => Ok (default VNone (dict_get d k))
  | _ => raise AttributeError
           ("'" +:+ type_name v +:+ "' object has no attribute 'get'")
  end.

Definition truthy (v : value) : bool :=
  match v with
  | VNone => false
  | VBool b => b
  | VInt n => negb (Z.eqb n 0)
  | VStr s => negb (String.eqb s EmptyString)
  | VList l => match l with [] => false | _ => true end
  | VDict d => match d with [] => false | _ => true end
  end.

Definition is_str (s : string) (v : value) : bool :=
  match v with VStr s' => String.eqb s s' | _ => false end.

(** [s in v] for a string [s]: substring test on a [str], membership on a
    [list], key membership on a [dict]; the other types are not iterable. *)
Definition py_contains_str (s : string) (v : value) : result bool :=
  match v with
  | VStr t => Ok (str_contains s t)
  | VList l => Ok (existsb (is_str s) l)
  | VDict d => Ok (existsb (String.eqb s) (dict_keys d))
  | _ => raise TypeError
           ("argument of type '" +:+ type_name v +:+ "' is not iterable")
  end.

(** [q += s] for a string [s].  On a [list] it extends the list, in place,
    by the characters of [s]. *)
Definition py_iadd_str (q : value) (s : string) : result value :=
  match q with
  | VStr t => Ok (VStr (t +:+ s))
  | VList l => Ok (VList (l ++ str_chars s))
  | _ => raise TypeError
           ("unsupported operand type(s) for +=: '" +:+ type_name q
              +:+ "' and 'str'")
  end.

(** The stop index of [x[:n]] on a sequence of length [len]. *)
Definition slice_stop (len : nat) (n : Z) : nat :=
  if Z.ltb n 0 then Z.to_nat (Z.max 0 (Z.of_nat len + n))
  else Nat.min len (Z.to_nat n).

(** [v[:n]].  A [dict] refuses the slice as a key: with a [TypeError]
    (unhashable) up to Python 3.11, with a [KeyError] from 3.12 on; the
    engine tells neither from the other. *)
Definition py_slice_to (v : value) (n : Z) : result value :=
  match v with
  | VStr s => Ok (VStr (str_take (slice_stop (String.length s) n) s))
  | VList l => Ok (VList (take (slice_stop (length l) n) l))
  | VDict _ => raise TypeError "unhashable type: 'slice'"
  | _ => raise TypeError ("'" +:+ type_name v +:+ "' object is not subscriptable")
  end.

(** [for x in v]. *)
Definition py_iter (v : value) : result (list value) :=
  match v with
  | VList l => Ok l
  | VStr s => Ok (str_chars s)
  | VDict d => Ok (map VStr (dict_keys d))
  | _ => raise TypeError ("'" +:+ type_name v +:+ "' object is not iterable")
  end.

(** Members of a [set]: hashable objects up to Python's [==], under which
    [True == 1] and [False == 0]. *)
Inductive hkey : Type :=
| HNone
| HInt (n : Z)
| HStr (s : string).

#[export] Instance hkey_eq_dec : EqDecision hkey.
Proof. solve_decision. Defined.

#[export] Instance hkey_countable : Countable hkey.
Proof.
  refine (inj_countable'
    (fun k => match k with
              | HNone => inl ()
              | HInt n => inr (inl n)
              | HStr s => inr (inr s)
              end)
    (fun x => match x with
              | inl _ => HNone
              | inr (inl n) => HInt n
              | inr (inr s) => HStr s
              end) _).
  intros []; reflexivity.
Defined.

Definition py_hash (v : value) : result hkey :=
  match v with
  | VNone => Ok HNone
  | VBool b => Ok (HInt (if b then 1 else 0))
  | VInt n => Ok (HInt n)
  | VStr s => Ok (HStr s)
  | _ => raise TypeError ("unhashable type: '" +:+ type_name v +:+ "'")
  end.

(** [set(l)]. *)
Fixpoint py_set (l : list value) : result (gset hkey) :=
  match l with
  | [] => Ok ∅
  | v :: l' => k ← py_hash v; s ← py_set l'; Ok ({[k]} ∪ s)
  end.

(** [v not in s]. *)
Definition py_not_in (v : value) (s : gset hkey) : result bool :=
  k ← py_hash v; Ok (bool_decide (k ∉ s)).

(** [[f(x) for x in l]] where [f] may raise. *)
Fixpoint mapM {A B} (f : A -> result B) (l : list A) : result (list B) :=
  match l with
  | [] => Ok []
  | x :: l' => y ← f x; ys ← mapM f l'; Ok (y :: ys)
  end.

(** [[x for x in l if p(x)]] where [p] may raise. *)
Fixpoint filterM {A} (p : A -> result bool) (l : list A) : result (list A) :=
  match l with
  | [] => Ok []
  | x :: l' => b ← p x; ys ← filterM p l'; Ok (if (b : bool) then x :: ys else ys)
  end.

End Py.
Export Py.

(* ===================================================================== *)
(** ** JSON documents *)
(* ===================================================================== *)

Module Json.

(** File contents are kept after lexical analysis: a text is the list of
    its JSON tokens, and [TNewline] stands for the line terminators (the
    only white space the two output encodings tell apart). *)
Inductive token : Type :=
| TLBracket | TRBracket | TLBrace | TRBrace | TComma | TColon
| TNull | TBool (b : bool) | TInt (n : Z) | TStr (s : string)
| TNewline.

#[export] Instance token_eq_dec : EqDecision token.
Proof. solve_decision. Defined.

Abbreviation text := (list token).

Definition is_newline (t : token) : bool :=
  match t with TNewline => true | _ => false end.

Fixpoint join (sep : text) (parts : list text) : text :=
  match parts with
  | [] => []
  | p :: rest =>
      match rest with
      | [] => p
      | _ => p ++ sep ++ join sep rest
      end
  end.

(** [json.dumps(v, indent=4 if indent else None)].  With an indent Python
    breaks the line after an opening bracket, after each comma and before
    the closing bracket of a non-empty container. *)
Fixpoint dump (indent : bool) (v : value) : text :=
  let nl := if indent then [TNewline] else [] in
  match v with
  | VNone => [TNull]
  | VBool b => [TBool b]
  | VInt n => [TInt n]
  | VStr s => [TStr s]
  | VList l =>
      match l with
      | [] => [TLBracket; TRBracket]
      | _ => TLBracket :: nl ++ join (TComma :: nl) (map (dump indent) l)
               ++ nl ++ [TRBracket]
      end
  | VDict d =>
      match d with
      | [] => [TLBrace; TRBrace]
      | _ => TLBrace :: nl
               ++ join (TComma :: nl)
                    (map (fun kv => match kv with
                                    | (k, x) => TStr k :: TColon :: dump indent x
                                    end) d)
               ++ nl ++ [TRBrace]
      end
  end.

(** The object Python builds from the members of a JSON object: a repeated
    key keeps its first position and takes its last value. *)
Definition dict_of_pairs (ps : dict) : dict := dict_update [] ps.

(** Recursive descent on white-space-free tokens; every call consumes a
    token, so the number of tokens bounds the fuel. *)
Fixpoint parse_value (fuel : nat) (ts : text) : option (value * text) :=
  match fuel with
  | O => None
  | S f =>
      match ts with
      | TNull :: r => Some (VNone, r)
      | TBool b :: r => Some (VBool b, r)
      | TInt n :: r => Some (VInt n, r)
      | TStr s :: r => Some (VStr s, r)
      | TLBracket :: TRBracket :: r => Some (VList [], r)
      | TLBracket :: r =>
          match parse_elems f r with
          | Some (l, r') => Some (VList l, r')
          | None => None
          end
      | TLBrace :: TRBrace :: r => Some (VDict [], r)
      | TLBrace :: r =>
          match parse_members f r with
          | Some (ps, r') => Some (VDict (dict_of_pairs ps), r')
          | None => None
          end
      | _ => None
      end
  end
with parse_elems (fuel : nat) (ts : text) : option (list value * text) :=
  match fuel with
  | O => None
  | S f =>
      match parse_value f ts with
      | Some (v, TComma :: r) =>
          match parse_elems f r with
          | Some (l, r') => Some (v :: l, r')
          | None => None
          end
      | Some (v, TRBracket :: r) => Some ([v], r)
      | _ => None
      end
  end
with parse_members (fuel : nat) (ts : text) : option (dict * text) :=
  match fuel with
  | O => None
  | S f =>
      match ts with
      | TStr k :: TColon :: r =>
          match parse_value f r with
          | Some (v, TComma :: r') =>
              match parse_members f r' with
              | Some (ps, r'') => Some ((k, v) :: ps, r'')
              | None => None
              end
          | Some (v, TRBrace :: r') => Some ([(k, v)], r')
          | _ => None
          end
      | _ => None
      end
  end.

(** [json.loads]: one value, nothing but white space around it. *)
Definition loads (c : text) : result value :=
  let ts := filter (fun t => is_newline t = false) c in
  match parse_value (S (length ts)) ts with
  | Some (v, []) => Ok v
  | Some (_, _ :: _) => raise JSONDecodeError "Extra data"
  | None => raise JSONDecodeError "Expecting value"
  end.

(** The lines of a text, without their terminators. *)
Fixpoint split_lines (c : text) : list text :=
  match c with
  | [] => [[]]
  | t :: r =>
      if is_newline t then [] :: split_lines r
      else match split_lines r with
           | l :: ls => (t :: l) :: ls
           | [] => [[t]]
           end
  end.

Definition nonempty_line (l : text) : bool :=
  match l with [] => false | _ => true end.

(** The representation invariant of Python dictionaries: keys are unique,
    at every depth. *)
Fixpoint wf (v : value) : bool :=
  match v with
  | VList l => forallb wf l
  | VDict d =>
      bool_decide (NoDup (map fst d))
      && forallb (fun kv => match kv with (_, x) => wf x end) d
  | _ => true
  end.

(** Tokens other than line terminators. *)
Abbreviation solid := (fun t : token => is_newline t = false).

(** One member of a printed object. *)
Definition member (indent : bool) (kv : string * value) : text :=
  match kv with (k, x) => TStr k :: TColon :: dump indent x end.

Definition wf_member (kv : string * value) : bool :=
  match kv with (_, x) => wf x end.

(** A value starts with a token no closing bracket can be taken for. *)
Definition starts_value (ts : text) : bool :=
  match ts with
  | (TNull | TBool _ | TInt _ | TStr _ | TLBracket | TLBrace) :: _ => true
  | _ => false
  end.

(** One record of a line-encoded store. *)
Definition line (r : value) : text := dump false r ++ [TNewline].

End Json.
Export Json.

(* ===================================================================== *)
(** ** The engine *)
(* ===================================================================== *)

Module Engine.

(** *** Files *)

(** The file system: path to contents.  A missing key is a missing file. *)
Abbreviation FS := (gmap string text).

(** [open(path, 'r')] followed by reading the file. *)
Definition open_read (fs : FS) (path : string) : result text :=
  match fs !! path with
  | Some c => Ok c
  | None => raise FileNotFoundError
              ("[Errno 2] No such file or directory: '" +:+ path +:+ "'")
  end.

(** [open(path, 'w')] followed by writing [c]. *)
Definition write_file (fs : FS) (path : string) (c : text) : FS :=
  <[path := c]> fs.

(** [open(path, 'a')] followed by writing [c]: the file is created when
    missing, its contents are kept otherwise. *)
Definition append_file (fs : FS) (path : string) (c : text) : FS :=
  <[path := default [] (fs !! path) ++ c]> fs.

(** [shutil.move(src, dst)] between two files of one directory: a rename,
    which replaces [dst] in one step. *)
Definition shutil_move (fs : FS) (src dst : string) : result FS :=
  match fs !! src with
  | Some c => Ok (<[dst := c]> (delete src fs))
  | None => raise FileNotFoundError
              ("[Errno 2] No such file or directory: '" +:+ src +:+ "'")
  end.

(** Modelled from the spec: [utils.read_jsonl] is not part of the sources
    at hand.  Line encoding, spec section 4.1: each non-empty line is
    parsed independently as one record; a malformed line fails the whole
    load, it is not skipped. *)
Definition read_jsonl (fs : FS) (path : string) : result (list value) :=
  c ← open_read fs path;
  mapM loads (filter (fun l => nonempty_line l = true) (split_lines c)).

(** Modelled from the spec: [utils.write_jsonl] is not part of the sources
    at hand.  Line encoding, spec section 4.4: the store is opened, for
    append under mode ["a"], and each record is written serialized on one
    line, followed by a line terminator; nothing is read.  Any other mode
    is taken as Python's ["w"], which truncates; the engine never uses
    it. *)
Definition write_jsonl (fs : FS) (path : string) (data : list value)
    (mode : string) : FS :=
  let lines := concat (map (fun r => dump false r ++ [TNewline]) data) in
  if String.eqb mode "a" then append_file fs path lines
  else write_file fs path lines.

(** *** Command line and environment *)

Record Args : Type := mkArgs {
  infile : string;
  outfile : string;
  sample_num : option Z;
  summary_interval : Z;
  prompts_type : string;
  concurrency : Z;
  max_steps : Z
}.

(** The external collaborators of one run: environment variables, the
    constructors and calls of [FlashOAgents] and [base_agent], the
    traceback formatter and the random source.  Calls that can fail return
    a [result].  A run is taken with the answers its collaborators gave:
    each call is a function of its arguments.  Their contracts (spec
    section 6) type the answers: a description is a text, a structured
    output is a mapping. *)
Record World (Model Tool Agent : Type) : Type := mkWorld {
  env_OPENAI_API_KEY : option string;
  env_OPENAI_API_BASE : option string;
  env_DEFAULT_MODEL : option string;
  OpenAIServerModel : option string -> string -> option string -> result Model;
  VisualInspectorTool : Model -> Z -> result Tool;
  TextInspectorTool : Model -> Z -> result Tool;
  AudioInspectorTool : Model -> Z -> result Tool;
  (** [MMSearchAgent(model, summary_interval=, prompts_type=, max_steps=)] *)
  MMSearchAgent : Model -> Z -> string -> Z -> result Agent;
  (** [search_agent(question)]: the structured output, a mapping *)
  search_agent_call : Agent -> value -> result dict;
  get_zip_description : value -> value -> Tool -> Tool -> Tool -> result string;
  get_single_file_description :
    value -> value -> Tool -> Tool -> Tool -> result string;
  (** [traceback.format_exc()] while the exception is being handled *)
  format_exc : exn -> string;
  randint : Z -> Z -> Z
}.
Arguments env_OPENAI_API_KEY {Model Tool Agent} w.
Arguments env_OPENAI_API_BASE {Model Tool Agent} w.
Arguments env_DEFAULT_MODEL {Model Tool Agent} w.
Arguments OpenAIServerModel {Model Tool Agent} w _ _ _.
Arguments VisualInspectorTool {Model Tool Agent} w _ _.
Arguments TextInspectorTool {Model Tool Agent} w _ _.
Arguments AudioInspectorTool {Model Tool Agent} w _ _.
Arguments MMSearchAgent {Model Tool Agent} w _ _ _ _.
Arguments search_agent_call {Model Tool Agent} w _ _.
Arguments get_zip_description {Model Tool Agent} w _ _ _ _ _.
Arguments get_single_file_description {Model Tool Agent} w _ _ _ _ _.
Arguments format_exc {Model Tool Agent} w _.
Arguments randint {Model Tool Agent} w _ _.

Definition newline : string := String (ascii_of_nat 10) EmptyString.

(** The two literals appended to the question of an item with an
    attachment (source lines 63 and 68). *)
Definition zip_banner : string :=
  newline +:+ newline
  +:+ "To solve the task above, you will have to use these attached files:"
  +:+ newline.

Definition file_banner : string :=
  newline +:+ newline
  +:+ "To solve the task above, you will have to use this attached file:".

(** What [item["question"]] evaluates to after [question += banner]: a
    [str] is immutable and the item keeps the original; a [list] was
    extended in place and the item sees the extension. *)
Definition item_question_after (original extended : value) : value :=
  match original with
  | VList _ => extended
  | _ => original
  end.

Section WithWorld.

Context {Model Tool Agent : Type}.
Variable w : World Model Tool Agent.

(** *** [process_item] (source lines 48-96) *)

(** Lines 60-71: the question of an item with a truthy [file_name]. *)
Definition augment_question (item question : value)
    (visual_tool text_tool audio_tool : Tool) : result value :=
  fn ← py_get item "file_name";
  if truthy fn then
    fn ← py_getitem item "file_name";
    is_zip ← py_contains_str ".zip" fn;
    if (is_zip : bool) then
      q1 ← py_iadd_str question zip_banner;
      fn ← py_getitem item "file_name";
      iq ← py_getitem item "question";
      d ← get_zip_description w fn (item_question_after iq q1)
             visual_tool text_tool audio_tool;
      py_iadd_str q1 d
    else
      q1 ← py_iadd_str question file_banner;
      fn ← py_getitem item "file_name";
      iq ← py_getitem item "question";
      d ← get_single_file_description w fn (item_question_after iq q1)
             visual_tool text_tool audio_tool;
      py_iadd_str q1 d
  else Ok question.

(** Lines 83-89. *)
Definition failed_record (question golden_answer : value) (e : exn) : value :=
  VDict [("question", question);
         ("golden_answer", golden_answer);
         ("error", VStr (exc_str e));
         ("error_trace", VStr (format_exc w e));
         ("status", VStr "failed")].

(** Lines 91-96: the worker's fields are unpacked last. *)
Definition success_record (question golden_answer : value) (output : dict)
  : value :=
  VDict (dict_update [("question", question);
                      ("golden_answer", golden_answer);
                      ("status", VStr "success")] output).

Definition process_item (item : value) (model : Model) (summary_interval : Z)
    (prompts_type : string) (max_steps : Z)
    (visual_tool text_tool audio_tool : Tool) : result value :=
  search_agent ← MMSearchAgent w model summary_interval prompts_type max_steps;
  question ← py_getitem item "question";
  golden_answer ← py_getitem item "answer";
  question ← augment_question item question visual_tool text_tool audio_tool;
  match search_agent_call w search_agent question with
  | Ok output => Ok (success_record question golden_answer output)
  | Raise e =>
      if is_Exception e then
        (* line 78 formats [question[:100]] into the log message *)
        _ ← py_slice_to question 100;
        Ok (failed_record question golden_answer e)
      else Raise e
  end.

(** *** [safe_write] (source lines 157-179) *)

Definition is_json_output (args : Args) : bool :=
  endswith (str_lower (outfile args)) ".json".

(** [existing_data.append(result)]. *)
Definition py_append (existing_data r : value) : result value :=
  match existing_data with
  | VList l => Ok (VList (l ++ [r]))
  | _ => raise AttributeError
           ("'" +:+ type_name existing_data
              +:+ "' object has no attribute 'append'")
  end.

(** Lines 161-165.  [open] and [json.load] are followed on a missing file
    and on contents that are or are not a JSON document, the cases line
    164 tells apart. *)
Definition read_existing (args : Args) (fs : FS) : result value :=
  match (c ← open_read fs (outfile args); loads c) with
  | Ok v => Ok v
  | Raise e =>
      match exc_cls e with
      | FileNotFoundError | JSONDecodeError => Ok (VList [])
      | _ => Raise e
      end
  end.

Definition temp_file (args : Args) : string := outfile args +:+ ".tmp".

(** The body of the critical section; the lock makes the calls atomic with
    respect to one another, so one call is one step on the file system.
    The step is the one taken when [json.dump] and the rename return; a
    call that raises before them leaves the file system as it was. *)
Definition safe_write (args : Args) (r : value) (fs : FS) : result FS :=
  if is_json_output args then
    existing_data ← read_existing args fs;
    existing_data ← py_append existing_data r;
    let fs1 := write_file fs (temp_file args) (dump true existing_data) in
    shutil_move fs1 (temp_file args) (outfile args)
  else
    Ok (write_jsonl fs (outfile args) [r] "a").

(** *** [main] (source lines 99-204) *)

Definition placeholder_key : string := "your-siliconflow-api-key-here".

(** Line 109: [not api_key or api_key == placeholder]. *)
Definition api_key_unusable (k : option string) : bool :=
  match k with
  | None => true
  | Some s => String.eqb s EmptyString || String.eqb s placeholder_key
  end.

(** Lines 127-131. *)
Definition load_data (args : Args) (fs : FS) : result value :=
  if endswith (str_lower (infile args)) ".json" then
    c ← open_read fs (infile args); loads c
  else
    l ← read_jsonl fs (infile args); Ok (VList l).

(** Lines 133-134. *)
Definition cap_sample (args : Args) (data : value) : result value :=
  match sample_num args with
  | Some n => py_slice_to data n
  | None => Ok data
  end.

(** Lines 140-146, the body of the [try].  The store is read as the text
    the sink wrote; what line 142 reads under a default encoding other
    than the sink's is not followed.  No property below rests on this
    load reading back what the sink wrote: where a run depends on it, what
    the load returns is a hypothesis. *)
Definition read_out_data (args : Args) (fs : FS) : result value :=
  if is_json_output args then
    c ← open_read fs (outfile args); loads c
  else
    l ← read_jsonl fs (outfile args); Ok (VList l).

(** Lines 139-148: [except Exception] turns a failed load into [[]]. *)
Definition load_out_data (args : Args) (fs : FS) : result value :=
  match read_out_data args fs with
  | Ok v => Ok v
  | Raise e => if is_Exception e then Ok (VList []) else Raise e
  end.

(** Line 150. *)
Definition done_questions (out_data : value) : result (gset hkey) :=
  items ← py_iter out_data;
  qs ← mapM (fun item => py_get item "question") items;
  py_set qs.

(** Line 151. *)
Definition data_to_run (data : value) (done : gset hkey)
  : result (list value) :=
  items ← py_iter data;
  filterM (fun item => q ← py_get item "question"; py_not_in q done) items.

(** [as_completed(futures)]: the futures in the order in which they
    finish, given as the list of their indices. *)
Definition as_completed {A} (sched : list nat) (futures : list A) : list A :=
  omap (fun i => futures !! i) sched.

(** Lines 198-202.  [future.result()] returns the value of the task or
    re-raises its exception, which leaves the loop; the file system written
    so far stays. *)
Fixpoint collect (args : Args) (completed : list (result value))
    (results : list value) (fs : FS) : FS * result (list value) :=
  match completed with
  | [] => (fs, Ok results)
  | Raise e :: _ => (fs, Raise e)
  | Ok r :: rest =>
      if truthy r then
        match safe_write args r fs with
        | Ok fs' => collect args rest (results ++ [r]) fs'
        | Raise e => (fs, Raise e)
        end
      else collect args rest results fs
  end.

(** Lines 181-202: one task per pending item; [sched] is the completion
    order of the run. *)
Definition dispatch (args : Args) (model : Model)
    (visual_tool text_tool audio_tool : Tool) (sched : list nat)
    (pending : list value) (fs : FS) : FS * result (list value) :=
  if Z.leb (concurrency args) 0 then
    (fs, raise ValueError "max_workers must be greater than 0")
  else
    let interval :=
      randint w (summary_interval args - 1) (summary_interval args + 1) in
    let futures :=
      map (fun item =>
             process_item item model interval (prompts_type args)
               (max_steps args) visual_tool text_tool audio_tool) pending in
    collect args (as_completed sched futures) [] fs.

(** What [main] has in hand when it reaches the pool. *)
Record Prepared : Type := mkPrepared {
  p_model : Model;
  p_visual : Tool;
  p_text : Tool;
  p_audio : Tool;
  p_data : value;
  p_done : gset hkey;
  p_pending : list value
}.

(** Lines 114-152. *)
Definition prepare (args : Args) (api_key : string) (fs : FS)
  : result Prepared :=
  model ← OpenAIServerModel w (env_DEFAULT_MODEL w) api_key
            (env_OPENAI_API_BASE w);
  visual_tool ← VisualInspectorTool w model 100000;
  text_tool ← TextInspectorTool w model 100000;
  audio_tool ← AudioInspectorTool w model 100000;
  data ← load_data args fs;
  data ← cap_sample args data;
  out_data ← load_out_data args fs;
  done ← done_questions out_data;
  pending ← data_to_run data done;
  Ok (mkPrepared model visual_tool text_tool audio_tool data done pending).

(** The outcome of [main]: the file system it leaves, and either the
    exception that ended it or what it returned: [None] when it gave up at
    line 112 for want of an API key, the list [results] otherwise. *)
Definition main (args : Args) (sched : list nat) (fs : FS)
  : FS * result (option (list value)) :=
  match env_OPENAI_API_KEY w with
  | None => (fs, Ok None)
  | Some api_key =>
      if api_key_unusable (env_OPENAI_API_KEY w) then (fs, Ok None)
      else
        match prepare args api_key fs with
        | Raise e => (fs, Raise e)
        | Ok p =>
            match dispatch args (p_model p) (p_visual p) (p_text p)
                    (p_audio p) sched (p_pending p) fs with
            | (fs', Ok results) => (fs', Ok (Some results))
            | (fs', Raise e) => (fs', Raise e)
            end
        end
  end.

(** The worker's structured outputs are Python dictionaries: their keys are
    unique, at every depth. *)
Definition outputs_wf : Prop :=
  forall agent q out,
    search_agent_call w agent q = Ok out -> wf (VDict out) = true.

(** Line 151, item by item: whether [item] passes the filter. *)
Definition is_pending (done : gset hkey) (item : value) : bool :=
  match (q ← py_get item "question"; py_not_in q done) with
  | Ok b => b
  | Raise _ => false
  end.

(** A work item as the engine can take it through line 151: an object
    whose [question], if any, is hashable (text, number, boolean, null). *)
Definition is_work_item (item : value) : bool :=
  match item with
  | VDict d =>
      match py_hash (default VNone (dict_get d "question")) with
      | Ok _ => true
      | Raise _ => false
      end
  | _ => false
  end.

(** The [question] values of a list of items or records, in order. *)
Definition questions (l : list value) : result (list value) :=
  mapM (fun item => py_get item "question") l.

End WithWorld.

End Engine.
Export Engine.

(* ===================================================================== *)
(** ** What a store holds *)
(* ===================================================================== *)

Module Store.

(** The output store holds the records [recs], in this order, for the
    encoding that [args] selects: an array-encoded store reads as that
    list (a missing or unparsable file reading as the empty list), a
    line-encoded store is the lines of the records and nothing else. *)
Definition store_holds (args : Args) (fs : FS) (recs : list value) : Prop :=
  wf (VList recs) = true
  /\ if is_json_output args then read_existing args fs = Ok (VList recs)
     else default [] (fs !! outfile args) = concat (map line recs).

(** The completion key of an item or record: the hash key of its
    [question], when it has the method [get] and the value is hashable. *)
Definition question_key (item : value) : result hkey :=
  q ← py_get item "question"; py_hash q.

(** A future whose value, if any, is a well-formed, non-empty record. *)
Definition sound_future (c : result value) : Prop :=
  forall r, c = Ok r -> wf r = true /\ truthy r = true.

(** The futures of [main], as [dispatch] builds them (lines 184-196). *)
Definition futures_of {Model Tool Agent : Type} (w : World Model Tool Agent)
    (args : Args) (p : @Prepared Model Tool) : list (result value) :=
  map (fun it =>
         process_item w it (p_model p)
           (randint w (summary_interval args - 1) (summary_interval args + 1))
           (prompts_type args) (max_steps args)
           (p_visual p) (p_text p) (p_audio p)) (p_pending p).

End Store.
Export Store.

(* ===================================================================== *)
(** ** The command line entry (source lines 207-241) *)
(* ===================================================================== *)

Module Entry.

(** Paths follow [posixpath]: the separator is the slash. *)

Definition backslash : ascii := ascii_of_nat 92.

(** [s.startswith(pre)]. *)
Definition startswith (s pre : string) : bool := String.prefix pre s.

(** [s.replace(a, b)] for one-character [a] and [b]. *)
Fixpoint replace_char (a b : ascii) (s : string) : string :=
  match s with
  | EmptyString => EmptyString
  | String c s' =>
      String (if Ascii.eqb c a then b else c) (replace_char a b s')
  end.

(** [s.rfind(c)] for a character, [None] standing for [-1]. *)
Fixpoint rfind_char (c : ascii) (s : string) : option nat :=
  match s with
  | EmptyString => None
  | String a s' =>
      match rfind_char c s' with
      | Some i => Some (S i)
      | None => if Ascii.eqb a c then Some O else None
      end
  end.

(** [s[n:]]. *)
Fixpoint str_drop (n : nat) (s : string) : string :=
  match n, s with
  | S n', String _ s' => str_drop n' s'
  | _, _ => s
  end.

(** [os.path.isabs]. *)
Definition isabs (p : string) : bool := startswith p "/".

(** [os.path.join(a, b)]. *)
Definition path_join (a b : string) : string :=
  if startswith b "/" then b
  else if String.eqb a EmptyString || endswith a "/" then a +:+ b
  else a +:+ "/" +:+ b.

(** [p.rfind('/') + 1]. *)
Definition after_last_slash (p : string) : nat :=
  match rfind_char "/" p with
  | Some i => S i
  | None => O
  end.

(** [os.path.basename]. *)
Definition basename (p : string) : string := str_drop (after_last_slash p) p.

Fixpoint all_chars (c : ascii) (s : string) : bool :=
  match s with
  | EmptyString => true
  | String a s' => Ascii.eqb a c && all_chars c s'
  end.

(** [s.rstrip('/')]. *)
Fixpoint rstrip_slashes (s : string) : string :=
  match s with
  | EmptyString => EmptyString
  | String c s' =>
      let r := rstrip_slashes s' in
      if String.eqb r EmptyString && Ascii.eqb c "/" then EmptyString
      else String c r
  end.

(** [os.path.dirname]. *)
Definition dirname (p : string) : string :=
  let head := str_take (after_last_slash p) p in
  if negb (String.eqb head EmptyString) && negb (all_chars "/" head)
  then rstrip_slashes head
  else head.

(** [os.path.splitext(p)[0]]: the text before the last dot of the last
    component, unless only dots precede it there. *)
Definition splitext_root (p : string) : string :=
  match rfind_char "." p with
  | None => p
  | Some dot_index =>
      let filename_index := after_last_slash p in
      if negb (all_chars "."
                 (substring filename_index (dot_index - filename_index) p))
      then str_take dot_index p
      else p
  end.

(** The test of lines 221 and 229: neither absolute nor starting with
    [./] or [.\]. *)
Definition is_plain_relative (p : string) : bool :=
  negb (isabs p) && negb (startswith p "./")
  && negb (startswith p (String "." (String backslash EmptyString))).

Definition results_dir : string := path_join "output_for_analysis" "mm".

(** Lines 221-222. *)
Definition resolve_infile (infile : string) : string :=
  if is_plain_relative infile then path_join "mm" infile else infile.

(** Lines 225-233; [infile] is the input path as line 222 left it. *)
Definition resolve_outfile (infile outfile : string) : string :=
  if String.eqb outfile EmptyString then
    let base_name := splitext_root (basename infile) in
    path_join results_dir (base_name +:+ ".jsonl")
  else if is_plain_relative outfile then
    let normalized_path := replace_char backslash "/" outfile in
    if negb (startswith normalized_path "output_for_analysis/")
    then path_join results_dir outfile
    else outfile
  else outfile.

(** The arguments as [main] receives them. *)
Definition normalize_args (args : Args) : Args :=
  let infile' := resolve_infile (infile args) in
  {| infile := infile';
     outfile := resolve_outfile infile' (outfile args);
     sample_num := sample_num args;
     summary_interval := summary_interval args;
     prompts_type := prompts_type args;
     concurrency := concurrency args;
     max_steps := max_steps args |}.

(** Line 236, [os.makedirs(name, exist_ok=True)].  Directories are not
    part of the file system here; what is left of the call is its refusal
    of the empty name. *)
Definition makedirs (name : string) : result unit :=
  if String.eqb name EmptyString
  then raise FileNotFoundError "[Errno 2] No such file or directory: ''"
  else Ok tt.

(** The script run with parsed arguments [args]. *)
Definition entry {Model Tool Agent : Type} (w : World Model Tool Agent)
    (args : Args) (sched : list nat) (fs : FS)
  : FS * result (option (list value)) :=
  let args' := normalize_args args in
  match makedirs (dirname (outfile args')) with
  | Raise e => (fs, Raise e)
  | Ok _ => main w args' sched fs
  end.

End Entry.
Export Entry.

(* ===================================================================== *)
(** ** The report tool ([validate.py]) *)
(* ===================================================================== *)

Module Validate.

(** *** Text *)

(** White space for [str.strip()].  A text is a sequence of code points
    below 256; among these Python takes for white space the controls 9 to
    13 and 28 to 31, the space, the next-line control U+0085 and the
    no-break space U+00A0. *)
Definition is_space (c : ascii) : bool :=
  let n := nat_of_ascii c in
  (Nat.leb 9 n && Nat.leb n 13) || (Nat.leb 28 n && Nat.leb n 32)
  || Nat.eqb n 133 || Nat.eqb n 160.

Fixpoint lstrip (s : string) : string :=
  match s with
  | EmptyString => EmptyString
  | String c s' => if is_space c then lstrip s' else s
  end.

Fixpoint rstrip (s : string) : string :=
  match s with
  | EmptyString => EmptyString
  | String c s' =>
      let r := rstrip s' in
      if String.eqb r EmptyString && is_space c then EmptyString
      else String c r
  end.

(** [s.strip()]. *)
Definition strip (s : string) : string := rstrip (lstrip s).

(** [str(n)] for an [int]. *)
Definition str_of_int (n : Z) : string := NilZero.string_of_int (Z.to_int n).

(** *** [load_json_or_jsonl] (lines 22-50) *)

(** Lines 43-49: the lines that parse; the others are passed over. *)
Definition parsable_lines (content : text) : list value :=
  omap (fun l => match loads l with Ok v => Some v | Raise _ => None end)
    (filter (fun l => nonempty_line l = true) (split_lines content)).

Definition load_json_or_jsonl (fs : FS) (file_path : string)
  : result (list value) :=
  content ← open_read fs file_path;
  (* [content = f.read().strip()]; [if not content: return []] *)
  if bool_decide (filter solid content = []) then Ok []
  else
    match loads content with
    | Ok parsed =>
        Ok (match parsed with
            | VList l => l
            | VDict _ => [parsed]
            | _ => []
            end)
    | Raise e =>
        match exc_cls e with
        | JSONDecodeError => Ok (parsable_lines content)
        | _ => Raise e
        end
    end.

(** *** [llm_judge] (lines 52-91) *)

(** What the report tool takes from outside: Python's [repr] of lists and
    dictionaries, and the chat completion, which answers the prompt built
    from the question, the gold and the predicted text with the content of
    its first choice, if any. *)
Record Judge : Type := mkJudge {
  py_repr : value -> string;
  chat_completion : string -> string -> string -> result (option string)
}.

(** [str(v)]. *)
Definition py_str (j : Judge) (v : value) : string :=
  match v with
  | VNone => "None"
  | VBool true => "True"
  | VBool false => "False"
  | VInt n => str_of_int n
  | VStr s => s
  | _ => py_repr j v
  end.

Definition llm_judge (j : Judge) (question gold pred : value)
  : result (bool * string) :=
  let gold_str := strip (py_str j gold) in
  let pred_str := strip (py_str j pred) in
  if String.eqb gold_str pred_str then Ok (true, "Exact Match")
  else
    match chat_completion j (py_str j question) gold_str pred_str with
    | Ok (Some content) =>
        Ok (str_contains "true" (str_lower (strip content)), "LLM Judged")
    | Ok None =>
        Ok (false, "Error: 'NoneType' object has no attribute 'strip'")
    | Raise e =>
        if is_Exception e then Ok (false, "Error: " +:+ exc_str e)
        else Raise e
    end.

(** *** [evaluate_single_file] (lines 93-145) *)

Definition dquote : string := String (ascii_of_nat 34) EmptyString.

(** [item.get(k, '')]. *)
Definition py_get_default (item : value) (k : string) : result value :=
  match item with
  | VDict d => Ok (default (VStr EmptyString) (dict_get d k))
  | _ => raise AttributeError
           ("'" +:+ type_name item +:+ "' object has no attribute 'get'")
  end.

(** [s[:n] + "..." if len(s) > n else s] on a text. *)
Definition ellipsis (n : nat) (s : string) : string :=
  if Nat.ltb n (String.length s) then str_take n s +:+ "..." else s.

(** The same on the question as read, line 120: a text is cut; a list or
    a dictionary of at most 50 entries is shown as it is, a longer one
    cannot be cut and joined to a text (for a dictionary the slice is
    refused as a key, with the [TypeError] of the interpreters before
    3.12); the other types have no length. *)
Definition question_shown (q : value) : result value :=
  match q with
  | VStr s => Ok (VStr (ellipsis 50 s))
  | VList l =>
      if Nat.ltb 50 (length l)
      then raise TypeError
             ("can only concatenate list (not " +:+ dquote +:+ "str"
                +:+ dquote +:+ ") to list")
      else Ok q
  | VDict d =>
      if Nat.ltb 50 (length d)
      then raise TypeError "unhashable type: 'slice'"
      else Ok q
  | _ => raise TypeError
           ("object of type '" +:+ type_name q +:+ "' has no len()")
  end.

(** One row of [details] (lines 117-124), under English field names. *)
Record Detail : Type := mkDetail {
  d_number : nat;
  d_correct : bool;
  d_question : value;
  d_gold : string;
  d_pred : string;
  d_reason : string
}.

(** The counters and the list that the loop of lines 109-131 updates. *)
Record Tally : Type := mkTally {
  correct_count : nat;
  total_count : nat;
  details : list Detail
}.

(** The loop of lines 109-131, entered at index [idx] with the tally so
    far. *)
Fixpoint judge_items (j : Judge) (idx : nat) (items : list value)
    (t : Tally) : result Tally :=
  match items with
  | [] => Ok t
  | item :: rest =>
      q ← py_get_default item "question";
      gold ← py_get_default item "golden_answer";
      pred ← py_get_default item "agent_result";
      verdict ← llm_judge j q gold pred;
      shown ← question_shown q;
      let detail :=
        {| d_number := idx + 1;
           d_correct := fst verdict;
           d_question := shown;
           d_gold := ellipsis 30 (py_str j gold);
           d_pred := ellipsis 30 (py_str j pred);
           d_reason := snd verdict |} in
      judge_items j (S idx) rest
        {| correct_count :=
             (if fst verdict then correct_count t + 1 else correct_count t)%nat;
           total_count := (total_count t + 1)%nat;
           details := details t ++ [detail] |}
  end.

(** What [evaluate_single_file] returns: a tuple of three for a file
    without items, of four otherwise.  The summary text and the accuracy
    are kept as the tally they are computed from. *)
Inductive Evaluation : Type :=
| NoItems (filename : string)
| Report (filename : string) (tally : Tally).

Definition evaluate_single_file (j : Judge) (fs : FS) (file_path : string)
  : result Evaluation :=
  let filename := basename file_path in
  items ← load_json_or_jsonl fs file_path;
  match items with
  | [] => Ok (NoItems filename)
  | _ =>
      t ← judge_items j O items
             {| correct_count := O; total_count := O; details := [] |};
      Ok (Report filename t)
  end.

(** *** [evaluate_multiple_files] (lines 147-172) *)

(** [stats[k] = v]. *)
Fixpoint stats_set {A} (stats : list (string * A)) (k : string) (v : A)
  : list (string * A) :=
  match stats with
  | [] => [(k, v)]
  | (k', v') :: rest =>
      if String.eqb k k' then (k', v) :: rest
      else (k', v') :: stats_set rest k v
  end.

(** What the comparison returns besides the chart drawn from [stats]: the
    per-file summaries in order, and [stats], which maps a file name
    without extension to its accuracy, kept as (correct, total). *)
Record Comparison : Type := mkComparison {
  summaries : list (string * Tally);
  stats : list (string * (nat * nat))
}.

(** The loop of lines 157-165. *)
Fixpoint compare_files (j : Judge) (fs : FS) (files : list string)
    (acc : Comparison) : result Comparison :=
  match files with
  | [] => Ok acc
  | file :: rest =>
      evaluation ← evaluate_single_file j fs file;
      match evaluation with
      | NoItems _ =>
          (* line 159 unpacks four values *)
          raise ValueError "not enough values to unpack (expected 4, got 3)"
      | Report filename t =>
          compare_files j fs rest
            {| summaries := summaries acc ++ [(filename, t)];
               stats := stats_set (stats acc) (splitext_root filename)
                          (correct_count t, total_count t) |}
      end
  end.

(** [None] stands for the message returned when no file is given. *)
Definition evaluate_multiple_files (j : Judge) (fs : FS) (files : list string)
  : result (option Comparison) :=
  match files with
  | [] => Ok None
  | _ =>
      c ← compare_files j fs files {| summaries := []; stats := [] |};
      Ok (Some c)
  end.

(** *** Reading the report *)

(** [item.get(k, '')] on an item that is a dictionary. *)
Definition field (d : dict) (k : string) : value :=
  default (VStr EmptyString) (dict_get d k).

(** The test of line 60 on the fields of an item: the gold and the
    predicted text are equal once stripped. *)
Definition exact_match (j : Judge) (item : value) : bool :=
  match item with
  | VDict d =>
      String.eqb (strip (py_str j (field d "golden_answer")))
                 (strip (py_str j (field d "agent_result")))
  | _ => false
  end.

(** The row of [details] is the one written for the item. *)
Definition row_of (j : Judge) (item : value) (row : Detail) : Prop :=
  exists d verdict,
    item = VDict d
    /\ llm_judge j (field d "question") (field d "golden_answer")
         (field d "agent_result") = Ok verdict
    /\ d_correct row = fst verdict
    /\ d_reason row = snd verdict.

End Validate.
Export Validate.

(* ===================================================================== *)
(** ** Concrete runs *)
(* ===================================================================== *)

(** Stub collaborators and small inputs, on which the definitions above
    are evaluated. *)
Module Examples.

(** A world whose constructors succeed; the agent call and the attachment
    description are given. *)
Definition stub_world (agent : value -> result dict)
    (describe : value -> value -> result string) : World unit unit unit :=
  {| env_OPENAI_API_KEY := Some "sk-test";
     env_OPENAI_API_BASE := None;
     env_DEFAULT_MODEL := Some "stub-model";
     OpenAIServerModel := fun _ _ _ => Ok tt;
     VisualInspectorTool := fun _ _ => Ok tt;
     TextInspectorTool := fun _ _ => Ok tt;
     AudioInspectorTool := fun _ _ => Ok tt;
     MMSearchAgent := fun _ _ _ _ => Ok tt;
     search_agent_call := fun _ q => agent q;
     get_zip_description := fun fn q _ _ _ => describe fn q;
     get_single_file_description := fun fn q _ _ _ => describe fn q;
     format_exc := fun e => "Traceback (most recent call last): " +:+ exc_str e;
     randint := fun lo _ => lo |}.

Definition boom : exn := mkExn (OtherException "RuntimeError") "boom".

(** The stub of the scenario of spec section 8: every call returns
    [{"result": "ok"}]. *)
Definition w_ok : World unit unit unit :=
  stub_world (fun _ => Ok [("result", VStr "ok")]) (fun _ _ => Ok "a picture").

(** The processing call always raises. *)
Definition w_call_fails : World unit unit unit :=
  stub_world (fun _ => Raise boom) (fun _ _ => Ok "a picture").

(** The inspection tools always raise. *)
Definition w_describe_fails : World unit unit unit :=
  stub_world (fun _ => Ok [("result", VStr "ok")]) (fun _ _ => Raise boom).

(** A worker whose structured output has a [status] field of its own. *)
Definition w_own_status : World unit unit unit :=
  stub_world (fun _ => Ok [("status", VStr "partial")]) (fun _ _ => Ok "a picture").

(** A worker whose structured output has a [question] field of its own. *)
Definition w_own_question : World unit unit unit :=
  stub_world (fun _ => Ok [("question", VStr "rephrased")])
    (fun _ _ => Ok "a picture").

Definition item (q a : string) : value :=
  VDict [("question", VStr q); ("answer", VStr a)].

Definition item_with_file (q a f : string) : value :=
  VDict [("question", VStr q); ("answer", VStr a); ("file_name", VStr f)].

Definition args_jsonl : Args :=
  {| infile := "in.jsonl"; outfile := "out.jsonl"; sample_num := None;
     summary_interval := 8; prompts_type := "default"; concurrency := 2;
     max_steps := 6 |}.

Definition args_json : Args :=
  {| infile := "in.jsonl"; outfile := "out.json"; sample_num := None;
     summary_interval := 8; prompts_type := "default"; concurrency := 2;
     max_steps := 6 |}.

(** A line-encoded input file holding the given items, and nothing else on
    the disk. *)
Definition input_fs (items : list value) : FS :=
  {[ "in.jsonl" := concat (map (fun r => dump false r ++ [TNewline]) items) ]}.

(** [process_item] as [dispatch] calls it for these arguments. *)
Definition run_item (w : World unit unit unit) (it : value) : result value :=
  process_item w it tt 7 "default" 6 tt tt tt.

Definition q1 : value := item "Q1" "A1".
Definition q2 : value := item "Q2" "A2".
Definition q1_png : value := item_with_file "Q1" "A1" "a.png".

(** The question of [q1_png] once its attachment is described. *)
Definition q1_png_question : string := "Q1" +:+ file_banner +:+ "a picture".

(** The record of the stub worker [w_ok] for an item. *)
Definition ok_record (q a : string) : value :=
  VDict [("question", VStr q); ("golden_answer", VStr a);
         ("status", VStr "success"); ("result", VStr "ok")].

(** The record of [item "Q1" "A1"] when the processing call raises. *)
Definition failed_q1 : value :=
  failed_record w_call_fails (VStr "Q1") (VStr "A1") boom.

(** A line-encoded store that already holds the record of [q1]. *)
Definition fs_q1_done : FS :=
  <["out.jsonl" := line (ok_record "Q1" "A1")]> (input_fs [q1]).

Definition fs_store_q1 : FS := {[ "out.jsonl" := line (ok_record "Q1" "A1") ]}.

(** The two records of a run on [q1; q2] whose second task ends first. *)
Definition results_q2_q1 : list value :=
  [ok_record "Q2" "A2"; ok_record "Q1" "A1"].

End Examples.

(** Inputs for the entry point and for the report tool. *)
Module ReportExamples.
Import Examples.

(** At most one item of the input is taken. *)
Definition args_capped : Args :=
  {| infile := "in.jsonl"; outfile := "out.jsonl"; sample_num := Some 1;
     summary_interval := 8; prompts_type := "default"; concurrency := 2;
     max_steps := 6 |}.

(** The command line without [--outfile]. *)
Definition args_default_out : Args :=
  {| infile := "data/set.json"; outfile := EmptyString; sample_num := None;
     summary_interval := 8; prompts_type := "default"; concurrency := 2;
     max_steps := 6 |}.

(** An output path written with a backslash after the dot. *)
Definition args_dot_backslash : Args :=
  {| infile := "in.jsonl";
     outfile := String "." (String backslash "out.json");
     sample_num := None;
     summary_interval := 8; prompts_type := "default"; concurrency := 2;
     max_steps := 6 |}.

(** A stored record whose question is a list. *)
Definition bad_record : value := VDict [("question", VList [VStr "Q1"])].

Definition fs_bad_store : FS :=
  <["out.jsonl" := line bad_record]> (input_fs [q1]).

(** An array-encoded store that holds an object. *)
Definition fs_object_store : FS := {[ "out.json" := dump true (VDict []) ]}.

(** The chat model is down. *)
Definition judge_down : Judge :=
  {| py_repr := fun _ => "?";
     chat_completion := fun _ _ _ => Raise boom |}.

(** The chat model answers [True] to everything. *)
Definition judge_yes : Judge :=
  {| py_repr := fun _ => "?";
     chat_completion := fun _ _ _ => Ok (Some "True") |}.

Definition answered (q gold pred : string) : value :=
  VDict [("question", VStr q); ("golden_answer", VStr gold);
         ("agent_result", VStr pred)].

(** The first answer is the gold text between a space and a no-break
    space. *)
Definition answers_a : list value :=
  [answered "Q1" "A1" (" A1" +:+ String (ascii_of_nat 160) EmptyString);
   answered "Q2" "A2" "B2"].

(** Two result files that differ in the extension only, and an empty
    one. *)
Definition fs_reports : FS :=
  <["runs/a.json" := dump true (VList answers_a)]>
    (<["runs/a.jsonl" := line (answered "Q3" "A3" "A3")]>
       {[ "runs/empty.jsonl" := [] ]}).

(** The tally of [runs/a.json] under [judge_yes]. *)
Definition report_a : Tally :=
  Eval vm_compute in
    match evaluate_single_file judge_yes fs_reports "runs/a.json" with
    | Ok (Report _ t) => t
    | _ => {| correct_count := O; total_count := O; details := [] |}
    end.

(** The comparison of the two result files under [judge_yes]. *)
Definition comparison_a : Comparison :=
  Eval vm_compute in
    match evaluate_multiple_files judge_yes fs_reports
            ["runs/a.json"; "runs/a.jsonl"] with
    | Ok (Some c) => c
    | _ => {| summaries := []; stats := [] |}
    end.

End ReportExamples.

(* ===================================================================== *)
(** ** Facts about the data model *)
(* ===================================================================== *)

Module PyFacts.

Lemma bind_Ok {A B} (m : result A) (f : A -> result B) (b : B) :
  (m ≫= f) = Ok b -> exists a, m = Ok a /\ f a = Ok b.
Proof. destruct m as [a|e]; simpl; intros H; [eauto | discriminate]. Qed.

Lemma bind_Ok_l {A B} (m : result A) (f : A -> result B) (a : A) :
  m = Ok a -> (m ≫= f) = f a.
Proof. intros ->. reflexivity. Qed.

Lemma dict_get_set_eq d k v : dict_get (dict_set d k v) k = Some v.
Proof.
  induction d as [|[k' v'] d IH]; simpl.
  - rewrite String.eqb_refl. reflexivity.
  - destruct (String.eqb k k') eqn:E; simpl; rewrite E; auto.
Qed.

Lemma dict_get_set_ne d k k' v :
  k <> k' -> dict_get (dict_set d k v) k' = dict_get d k'.
Proof.
  intros Hne. induction d as [|[k0 v0] d IH]; simpl.
  - destruct (String.eqb k' k) eqn:E; [|reflexivity].
    apply String.eqb_eq in E. congruence.
  - destruct (String.eqb k k0) eqn:E; simpl.
    + apply String.eqb_eq in E. subst k0.
      destruct (String.eqb k' k) eqn:E'; [|reflexivity].
      apply String.eqb_eq in E'. congruence.
    + rewrite IH. reflexivity.
Qed.

Lemma dict_get_None d k : dict_get d k = None <-> k ∉ map fst d.
Proof.
  induction d as [|[k' v'] d IH]; simpl.
  - split; [intros _; apply not_elem_of_nil | reflexivity].
  - rewrite not_elem_of_cons. destruct (String.eqb k k') eqn:E.
    + apply String.eqb_eq in E. split; [discriminate | tauto].
    + apply String.eqb_neq in E. rewrite IH. tauto.
Qed.

Lemma dict_get_is_Some d k : is_Some (dict_get d k) <-> k ∈ map fst d.
Proof.
  destruct (dict_get d k) eqn:E.
  - split; [intros _ | eauto].
    destruct (decide (k ∈ map fst d)) as [|Hn]; [assumption|].
    apply dict_get_None in Hn. congruence.
  - apply dict_get_None in E. split; [intros [? ?]; discriminate | tauto].
Qed.

(** Keys after an assignment: unchanged when the key exists, one more at
    the end otherwise. *)
Lemma dict_set_keys d k v :
  map fst (dict_set d k v)
  = if bool_decide (k ∈ map fst d) then map fst d else map fst d ++ [k].
Proof.
  induction d as [|[k' v'] d IH].
  - case_bool_decide as H; [by apply elem_of_nil in H | reflexivity].
  - change (map fst ((k', v') :: d)) with (k' :: map fst d).
    cbn [dict_set]. destruct (String.eqb k k') eqn:E.
    + apply String.eqb_eq in E. subst.
      rewrite bool_decide_eq_true_2; [reflexivity | left].
    + apply String.eqb_neq in E.
      change (map fst ((k', v') :: dict_set d k v))
        with (k' :: map fst (dict_set d k v)).
      rewrite IH. case_bool_decide as B.
      * rewrite bool_decide_eq_true_2; [reflexivity | by right].
      * rewrite bool_decide_eq_false_2; [reflexivity|].
        rewrite not_elem_of_cons. tauto.
Qed.

Lemma dict_set_fresh d k v : k ∉ map fst d -> dict_set d k v = d ++ [(k, v)].
Proof.
  induction d as [|[k' v'] d IH]; simpl; intros Hn; [reflexivity|].
  apply not_elem_of_cons in Hn as [Hne Hn].
  destruct (String.eqb k k') eqn:E.
  - apply String.eqb_eq in E. congruence.
  - rewrite IH by assumption. reflexivity.
Qed.

Lemma dict_set_NoDup d k v :
  NoDup (map fst d) -> NoDup (map fst (dict_set d k v)).
Proof.
  intros Hnd. rewrite dict_set_keys. case_bool_decide as Hin; [assumption|].
  apply NoDup_app. split; [assumption|]. split.
  - intros x Hx Hx'. apply list_elem_of_singleton in Hx'. subst. tauto.
  - apply NoDup_singleton.
Qed.

(** The keys of [{**d, **d2}]. *)
Lemma dict_update_keys_elem d d2 k :
  k ∈ map fst (dict_update d d2) <-> k ∈ map fst d \/ k ∈ map fst d2.
Proof.
  unfold dict_update. revert d.
  induction d2 as [|[k2 v2] d2 IH]; intros d; simpl.
  - rewrite elem_of_nil. tauto.
  - rewrite IH, dict_set_keys, elem_of_cons. case_bool_decide as Hin.
    + split; [tauto|]. intros [?|[->|?]]; tauto.
    + rewrite elem_of_app, list_elem_of_singleton. tauto.
Qed.

Lemma dict_update_NoDup d d2 :
  NoDup (map fst d) -> NoDup (map fst (dict_update d d2)).
Proof.
  unfold dict_update. revert d.
  induction d2 as [|[k2 v2] d2 IH]; intros d Hd; simpl; [assumption|].
  apply IH, dict_set_NoDup, Hd.
Qed.

(** Unpacking: the fields of [d2] win, the other fields of [d] stay. *)
Lemma dict_update_get d d2 k :
  NoDup (map fst d2) ->
  dict_get (dict_update d d2) k
  = match dict_get d2 k with Some v => Some v | None => dict_get d k end.
Proof.
  unfold dict_update. revert d.
  induction d2 as [|[k2 v2] d2 IH]; intros d Hnd; simpl; [reflexivity|].
  simpl in Hnd. apply NoDup_cons in Hnd as [Hk2 Hnd]. rewrite IH by assumption.
  destruct (String.eqb k k2) eqn:E.
  - apply String.eqb_eq in E. subst k2.
    apply dict_get_None in Hk2. rewrite Hk2. apply dict_get_set_eq.
  - apply String.eqb_neq in E.
    destruct (dict_get d2 k); [reflexivity|].
    apply dict_get_set_ne. congruence.
Qed.

(** Without the uniqueness of the keys of [d2]: a key missing from [d2]
    keeps the value it has in [d]. *)
Lemma dict_update_get_other d d2 k :
  dict_get d2 k = None -> dict_get (dict_update d d2) k = dict_get d k.
Proof.
  unfold dict_update. revert d.
  induction d2 as [|[k2 v2] d2 IH]; intros d; simpl; [reflexivity|].
  destruct (String.eqb k k2) eqn:E; [discriminate|]. intros Hn.
  apply String.eqb_neq in E. rewrite IH by assumption.
  apply dict_get_set_ne. congruence.
Qed.

Lemma dict_update_nil_NoDup d : NoDup (map fst d) -> dict_update [] d = d.
Proof.
  intros Hnd. unfold dict_update.
  enough (forall acc, NoDup (map fst (acc ++ d)) ->
            fold_left (fun a kv => dict_set a (fst kv) (snd kv)) d acc = acc ++ d)
    as H by (apply (H []); assumption).
  clear Hnd. induction d as [|[k v] d IH]; intros acc Hnd; simpl.
  - by rewrite app_nil_r.
  - rewrite dict_set_fresh.
    + rewrite IH; rewrite <- app_assoc; simpl; [reflexivity | assumption].
    + rewrite map_app in Hnd. apply NoDup_app in Hnd as (_ & Hd & _).
      intros Hin. apply (Hd k Hin). simpl. left.
Qed.

End PyFacts.
Export PyFacts.

Module JsonFacts.

(** Induction on values that reaches the members of lists and dicts. *)
Section ValueInd.
Variable P : value -> Prop.
Hypothesis HNone : P VNone.
Hypothesis HBool : forall b, P (VBool b).
Hypothesis HInt : forall n, P (VInt n).
Hypothesis HStr : forall s, P (VStr s).
Hypothesis HList : forall l, Forall P l -> P (VList l).
Hypothesis HDict : forall d, Forall (fun kv => P (snd kv)) d -> P (VDict d).

Fixpoint value_ind' (v : value) : P v :=
  match v with
  | VNone => HNone
  | VBool b => HBool b
  | VInt n => HInt n
  | VStr s => HStr s
  | VList l =>
      HList l ((fix go (l : list value) : Forall P l :=
                  match l with
                  | [] => Forall_nil_2 P
                  | x :: l' => Forall_cons_2 P x l' (value_ind' x) (go l')
                  end) l)
  | VDict d =>
      HDict d ((fix go (d : dict) : Forall (fun kv => P (snd kv)) d :=
                  match d with
                  | [] => Forall_nil_2 _
                  | (k, x) :: d' =>
                      Forall_cons_2 (fun kv => P (snd kv)) (k, x) d'
                        (value_ind' x) (go d')
                  end) d)
  end.
End ValueInd.

Lemma dump_list_compact x l :
  dump false (VList (x :: l))
  = TLBracket :: join [TComma] (map (dump false) (x :: l)) ++ [TRBracket].
Proof. reflexivity. Qed.

Lemma dump_dict_compact kv d :
  dump false (VDict (kv :: d))
  = TLBrace :: join [TComma] (map (member false) (kv :: d)) ++ [TRBrace].
Proof. reflexivity. Qed.

Lemma dump_list_indent x l :
  dump true (VList (x :: l))
  = [TLBracket; TNewline]
      ++ join [TComma; TNewline] (map (dump true) (x :: l))
      ++ [TNewline; TRBracket].
Proof. reflexivity. Qed.

Lemma dump_dict_indent kv d :
  dump true (VDict (kv :: d))
  = [TLBrace; TNewline]
      ++ join [TComma; TNewline] (map (member true) (kv :: d))
      ++ [TNewline; TRBrace].
Proof. reflexivity. Qed.

Lemma join_cons2 sep p q rest :
  join sep (p :: q :: rest) = p ++ sep ++ join sep (q :: rest).
Proof. reflexivity. Qed.

Lemma app_one {A} (a : A) (l : list A) : [a] ++ l = a :: l.
Proof. reflexivity. Qed.

Lemma join_map_one {A} sep (g : A -> text) x : join sep (map g [x]) = g x.
Proof. reflexivity. Qed.

Lemma join_map_cons2 {A} sep (g : A -> text) x y l :
  join sep (map g (x :: y :: l)) = g x ++ sep ++ join sep (map g (y :: l)).
Proof. reflexivity. Qed.

#[local] Arguments join : simpl never.

Lemma filter_join (P : token -> Prop) `{!forall t, Decision (P t)} sep parts :
  filter P (join sep parts) = join (filter P sep) (map (filter P) parts).
Proof.
  induction parts as [|p [|q rest] IH]; [reflexivity | reflexivity |].
  rewrite join_cons2, !filter_app, IH. reflexivity.
Qed.

(** White space apart, the indented and the compact form are one text. *)
Lemma filter_dump v : filter solid (dump true v) = dump false v.
Proof.
  induction v as [| | | |l IH|d IH] using value_ind'; try reflexivity.
  - destruct l as [|x l]; [reflexivity|].
    rewrite dump_list_indent, dump_list_compact.
    rewrite !filter_app, filter_join, map_map.
    rewrite (map_ext_Forall _ _ IH).
    reflexivity.
  - destruct d as [|kv d]; [reflexivity|].
    rewrite dump_dict_indent, dump_dict_compact.
    rewrite !filter_app, filter_join, map_map.
    assert (Forall (fun kv => filter solid (member true kv) = member false kv)
              (kv :: d)) as IH'.
    { eapply Forall_impl; [exact IH|]. intros [k x] Hx. simpl in *.
      rewrite !filter_cons_True by reflexivity. by rewrite Hx. }
    rewrite (map_ext_Forall _ _ IH'). reflexivity.
Qed.

Lemma wf_list l : wf (VList l) = forallb wf l.
Proof. reflexivity. Qed.

Lemma wf_dict d :
  wf (VDict d) = bool_decide (NoDup (map fst d)) && forallb wf_member d.
Proof. reflexivity. Qed.

Lemma dump_starts v rest : starts_value (dump false v ++ rest) = true.
Proof. destruct v as [| | | |[|x l]|[|kv d]]; reflexivity. Qed.

Lemma join_dump_starts x l rest :
  starts_value (join [TComma] (map (dump false) (x :: l)) ++ rest) = true.
Proof.
  destruct l as [|y l].
  - rewrite join_map_one. apply dump_starts.
  - rewrite join_map_cons2, <- app_assoc. apply dump_starts.
Qed.

Lemma dump_length_pos v : (1 <= length (dump false v))%nat.
Proof. destruct v as [| | | |[|x l]|[|kv d]]; simpl; lia. Qed.

Lemma parse_value_list f ts :
  starts_value ts = true ->
  parse_value (S f) (TLBracket :: ts)
  = match parse_elems f ts with
    | Some (l, r) => Some (VList l, r)
    | None => None
    end.
Proof. destruct ts as [|[] ts]; simpl; intros H; congruence. Qed.

Lemma parse_value_dict f k ts :
  parse_value (S f) (TLBrace :: TStr k :: ts)
  = match parse_members f (TStr k :: ts) with
    | Some (ps, r) => Some (VDict (dict_of_pairs ps), r)
    | None => None
    end.
Proof. reflexivity. Qed.

Lemma parse_elems_S f ts :
  parse_elems (S f) ts
  = match parse_value f ts with
    | Some (v, TComma :: r) =>
        match parse_elems f r with
        | Some (l, r') => Some (v :: l, r')
        | None => None
        end
    | Some (v, TRBracket :: r) => Some ([v], r)
    | _ => None
    end.
Proof. reflexivity. Qed.

Lemma parse_members_S f k ts :
  parse_members (S f) (TStr k :: TColon :: ts)
  = match parse_value f ts with
    | Some (v, TComma :: r') =>
        match parse_members f r' with
        | Some (ps, r2) => Some ((k, v) :: ps, r2)
        | None => None
        end
    | Some (v, TRBrace :: r') => Some ([(k, v)], r')
    | _ => None
    end.
Proof. reflexivity. Qed.

(** Printing then parsing, with fuel for the printed text. *)
Lemma parse_dump_fuel (f : nat) :
  (forall v rest, wf v = true -> (length (dump false v) <= f)%nat ->
     parse_value f (dump false v ++ rest) = Some (v, rest))
  /\ (forall x l rest, forallb wf (x :: l) = true ->
        (S (length (join [TComma] (map (dump false) (x :: l)))) <= f)%nat ->
        parse_elems f (join [TComma] (map (dump false) (x :: l))
                         ++ TRBracket :: rest) = Some (x :: l, rest))
  /\ (forall kv d rest, forallb wf_member (kv :: d) = true ->
        (S (length (join [TComma] (map (member false) (kv :: d)))) <= f)%nat ->
        parse_members f (join [TComma] (map (member false) (kv :: d))
                           ++ TRBrace :: rest) = Some (kv :: d, rest)).
Proof.
  induction f as [|f (IHv & IHe & IHm)].
  { split; [|split]; intros; try lia.
    pose proof (dump_length_pos v). lia. }
  split; [|split].
  - intros v rest Hwf Hlen.
    destruct v as [| | | |[|x l]|[|kv d]]; try reflexivity.
    + rewrite dump_list_compact in *. rewrite wf_list in Hwf.
      rewrite <- app_comm_cons, <- app_assoc. rewrite app_one.
      rewrite parse_value_list by apply join_dump_starts.
      rewrite IHe; [reflexivity | assumption |].
      rewrite length_cons, length_app in Hlen.
      change (length [TRBracket]) with 1%nat in Hlen. lia.
    + rewrite dump_dict_compact in *. rewrite wf_dict in Hwf.
      apply andb_true_iff in Hwf as [Hnd Hwf].
      apply bool_decide_eq_true in Hnd.
      rewrite <- app_comm_cons, <- app_assoc. rewrite app_one.
      assert (parse_members f
                (join [TComma] (map (member false) (kv :: d))
                   ++ TRBrace :: rest) = Some (kv :: d, rest)) as Hm.
      { apply IHm; [assumption|].
        rewrite length_cons, length_app in Hlen.
        change (length [TRBrace]) with 1%nat in Hlen. lia. }
      revert Hm. destruct kv as [k x].
      destruct d as [|kv' d].
      * rewrite join_map_one. unfold member. rewrite <- !app_comm_cons.
        rewrite parse_value_dict. intros ->.
        unfold dict_of_pairs. rewrite dict_update_nil_NoDup by assumption.
        reflexivity.
      * rewrite join_map_cons2. unfold member at 1 3.
        rewrite <- !app_comm_cons.
        rewrite parse_value_dict. intros ->.
        unfold dict_of_pairs. rewrite dict_update_nil_NoDup by assumption.
        reflexivity.
  - intros x l rest Hwf Hlen. rewrite parse_elems_S.
    simpl in Hwf. apply andb_true_iff in Hwf as [Hx Hl].
    pose proof (dump_length_pos x) as Hpos.
    destruct l as [|y l].
    + rewrite join_map_one in *.
      rewrite IHv; [reflexivity | assumption | lia].
    + rewrite join_map_cons2 in *. rewrite <- !app_assoc.
      rewrite !app_one. rewrite !length_app in Hlen.
      change (length [TComma]) with 1%nat in Hlen.
      rewrite IHv; [|assumption|lia].
      rewrite IHe; [reflexivity | assumption | lia].
  - intros [k x] d rest Hwf Hlen.
    simpl in Hwf. apply andb_true_iff in Hwf as [Hx Hd].
    pose proof (dump_length_pos x) as Hpos.
    destruct d as [|kv' d].
    + rewrite join_map_one in *. unfold member in *.
      rewrite <- !app_comm_cons. rewrite parse_members_S.
      rewrite !length_cons in Hlen.
      rewrite IHv; [reflexivity | assumption | lia].
    + rewrite join_map_cons2 in *. unfold member at 1 in Hlen.
      unfold member at 1. rewrite !app_one in *. rewrite <- app_assoc.
      rewrite <- !app_comm_cons. rewrite parse_members_S.
      repeat (rewrite length_cons in Hlen || rewrite length_app in Hlen).
      rewrite IHv; [|assumption|lia].
      rewrite IHm; [reflexivity | assumption | lia].
Qed.

Lemma filter_id {A} (P : A -> Prop) `{!forall x, Decision (P x)} (l : list A) :
  Forall P l -> filter P l = l.
Proof.
  induction 1 as [|x l Hx _ IH]; [reflexivity|].
  rewrite filter_cons_True by assumption. by rewrite IH.
Qed.

(** The compact form holds no line terminator. *)
Lemma dump_solid v : Forall solid (dump false v).
Proof.
  rewrite <- filter_dump. apply Forall_forall. intros t Ht.
  apply list_elem_of_filter in Ht. tauto.
Qed.

Lemma filter_dump_any indent v : filter solid (dump indent v) = dump false v.
Proof.
  destruct indent; [apply filter_dump | apply filter_id, dump_solid].
Qed.

(** [json.loads(json.dumps(v)) == v], with or without indentation. *)
Lemma loads_dump indent v : wf v = true -> loads (dump indent v) = Ok v.
Proof.
  intros Hwf. unfold loads. rewrite filter_dump_any.
  destruct (parse_dump_fuel (S (length (dump false v)))) as (Hv & _ & _).
  specialize (Hv v [] Hwf). rewrite app_nil_r in Hv.
  rewrite Hv by lia. reflexivity.
Qed.

Lemma dict_set_wf d k v :
  forallb wf_member d = true -> wf v = true ->
  forallb wf_member (dict_set d k v) = true.
Proof.
  intros Hd Hv. induction d as [|[k' v'] d IH]; simpl in *.
  - by rewrite Hv.
  - apply andb_true_iff in Hd as [H1 H2].
    destruct (String.eqb k k'); simpl.
    + by rewrite Hv, H2.
    + by rewrite H1, IH.
Qed.

Lemma dict_update_wf d d2 :
  forallb wf_member d = true -> forallb wf_member d2 = true ->
  forallb wf_member (dict_update d d2) = true.
Proof.
  unfold dict_update. revert d.
  induction d2 as [|[k v] d2 IH]; intros d Hd Hd2; simpl in *; [assumption|].
  apply andb_true_iff in Hd2 as [H1 H2].
  apply IH; [|assumption]. by apply dict_set_wf.
Qed.

Lemma dict_of_pairs_wf ps :
  forallb wf_member ps = true -> wf (VDict (dict_of_pairs ps)) = true.
Proof.
  intros H. rewrite wf_dict. apply andb_true_iff. split.
  - apply bool_decide_eq_true. unfold dict_of_pairs.
    apply dict_update_NoDup. constructor.
  - unfold dict_of_pairs. by apply dict_update_wf.
Qed.

(** Whatever the parser accepts is a well-formed object. *)
Lemma parse_wf_fuel (f : nat) :
  (forall ts v r, parse_value f ts = Some (v, r) -> wf v = true)
  /\ (forall ts l r, parse_elems f ts = Some (l, r) -> forallb wf l = true)
  /\ (forall ts ps r, parse_members f ts = Some (ps, r) ->
        forallb wf_member ps = true).
Proof.
  induction f as [|f (IHv & IHe & IHm)].
  { split; [|split]; intros; discriminate. }
  split; [|split].
  - intros ts v r H. simpl in H.
    repeat case_match; simplify_eq;
      first [ reflexivity
            | rewrite wf_list; eauto
            | apply dict_of_pairs_wf; eauto ].
  - intros ts l r H. rewrite parse_elems_S in H.
    repeat case_match; simplify_eq; simpl; apply andb_true_iff; eauto.
  - intros ts ps r H. simpl in H.
    repeat case_match; simplify_eq; simpl; apply andb_true_iff; eauto.
Qed.

Lemma loads_wf c v : loads c = Ok v -> wf v = true.
Proof.
  unfold loads. intros H. repeat case_match; simplify_eq.
  eapply (proj1 (parse_wf_fuel _)). eassumption.
Qed.

(** Every failure of [loads] is a [JSONDecodeError]. *)
Lemma loads_Raise c e : loads c = Raise e -> exc_cls e = JSONDecodeError.
Proof.
  unfold loads, raise. intros H. repeat case_match; simplify_eq; reflexivity.
Qed.

(** *** Lines *)

Lemma split_lines_cons_solid t c :
  solid t ->
  split_lines (t :: c)
  = match split_lines c with
    | l :: ls => (t :: l) :: ls
    | [] => [[t]]
    end.
Proof. simpl. intros ->. reflexivity. Qed.

Lemma split_lines_app l c :
  Forall solid l -> split_lines (l ++ TNewline :: c) = l :: split_lines c.
Proof.
  induction 1 as [|t l Ht _ IH]; [reflexivity|].
  rewrite <- app_comm_cons, split_lines_cons_solid by assumption.
  rewrite IH. reflexivity.
Qed.

Lemma split_lines_line r c : split_lines (line r ++ c) = dump false r :: split_lines c.
Proof.
  unfold line. rewrite <- app_assoc, app_one. apply split_lines_app, dump_solid.
Qed.

Lemma nonempty_dump v : nonempty_line (dump false v) = true.
Proof. destruct v as [| | | |[|x l]|[|kv d]]; reflexivity. Qed.

(** Reading back the lines written for [rs] gives [rs]. *)
Lemma read_lines rs :
  Forall (fun r => wf r = true) rs ->
  mapM loads
    (filter (fun l => nonempty_line l = true)
       (split_lines (concat (map line rs)))) = Ok rs.
Proof.
  induction 1 as [|r rs Hr _ IH]; [reflexivity|].
  simpl concat. rewrite split_lines_line.
  rewrite filter_cons_True by apply nonempty_dump.
  simpl mapM. rewrite loads_dump by assumption. simpl.
  rewrite IH. reflexivity.
Qed.

End JsonFacts.
Export JsonFacts.

(* ===================================================================== *)
(** ** Facts about the engine *)
(* ===================================================================== *)

Module EngineFacts.

(** Inverts a successful monadic step in hypothesis [H]. *)
Ltac inv_bind H :=
  let x := fresh "x" in
  let Hx := fresh "Hx" in
  apply bind_Ok in H as (x & Hx & H).

Lemma str_length_app s t :
  String.length (s +:+ t) = (String.length s + String.length t)%nat.
Proof.
  induction s as [|c s IH]; [reflexivity|].
  change (S (String.length (s +:+ t))
          = S (String.length s + String.length t)). by rewrite IH.
Qed.

Lemma str_app_ne s t : t <> EmptyString -> s +:+ t <> s.
Proof.
  intros Ht Heq. apply (f_equal String.length) in Heq.
  rewrite str_length_app in Heq. destruct t; [congruence | simpl in Heq; lia].
Qed.

Lemma str_app_assoc s t u : (s +:+ t) +:+ u = s +:+ (t +:+ u).
Proof.
  induction s as [|c s IH]; [reflexivity|].
  change (String c ((s +:+ t) +:+ u) = String c (s +:+ (t +:+ u))).
  by rewrite IH.
Qed.

Lemma temp_file_ne args : temp_file args <> outfile args.
Proof. unfold temp_file. apply str_app_ne. discriminate. Qed.

Lemma str_chars_wf s : forallb wf (str_chars s) = true.
Proof. induction s as [|c s IH]; simpl; [reflexivity | exact IH]. Qed.

Lemma forallb_app_true {A} (p : A -> bool) l1 l2 :
  forallb p l1 = true -> forallb p l2 = true -> forallb p (l1 ++ l2) = true.
Proof. intros H1 H2. rewrite forallb_app, H1, H2. reflexivity. Qed.

Lemma forallb_Forall_wf l : forallb wf l = true <-> Forall (fun r => wf r = true) l.
Proof.
  induction l as [|x l IH]; simpl.
  - split; [constructor | reflexivity].
  - rewrite andb_true_iff, Forall_cons, IH. reflexivity.
Qed.

Lemma py_iadd_str_wf q s q' :
  py_iadd_str q s = Ok q' -> wf q = true -> wf q' = true.
Proof.
  destruct q; try discriminate; intros [= <-] Hq; [reflexivity|].
  rewrite wf_list in *. apply forallb_app_true; [assumption | apply str_chars_wf].
Qed.

Lemma py_getitem_wf v k x : py_getitem v k = Ok x -> wf v = true -> wf x = true.
Proof.
  destruct v as [| | | |l|d]; try discriminate. unfold py_getitem.
  destruct (dict_get d k) eqn:E; [|discriminate]. intros [= ->] Hwf.
  rewrite wf_dict in Hwf. apply andb_true_iff in Hwf as [_ Hwf].
  induction d as [|[k' v'] d IH]; simpl in *; [discriminate|].
  apply andb_true_iff in Hwf as [H1 H2].
  destruct (String.eqb k k'); [congruence | auto].
Qed.

Lemma py_get_wf v k x : py_get v k = Ok x -> wf v = true -> wf x = true.
Proof.
  destruct v as [| | | |l|d]; try discriminate. unfold py_get.
  intros [= <-] Hwf. destruct (dict_get d k) eqn:E; [|reflexivity].
  apply (py_getitem_wf (VDict d) k); [simpl; by rewrite E | assumption].
Qed.

Lemma py_iter_wf v l : py_iter v = Ok l -> wf v = true -> forallb wf l = true.
Proof.
  destruct v as [| | | |l'|d]; try discriminate; intros [= <-] Hwf.
  - apply str_chars_wf.
  - assumption.
  - clear Hwf. induction d as [|kv d IH]; [reflexivity | exact IH].
Qed.

Lemma py_slice_to_wf v n x : py_slice_to v n = Ok x -> wf v = true -> wf x = true.
Proof.
  destruct v as [| | | |l|d]; try discriminate; intros [= <-] Hwf.
  - reflexivity.
  - rewrite wf_list in *. apply forallb_Forall_wf.
    apply forallb_Forall_wf in Hwf. by apply Forall_take.
Qed.

Lemma mapM_Ok_Forall2 {A B} (f : A -> result B) l l' :
  mapM f l = Ok l' <-> Forall2 (fun x y => f x = Ok y) l l'.
Proof.
  revert l'. induction l as [|x l IH]; intros l'; simpl.
  - split; [intros [= <-]; constructor | by inversion 1].
  - split.
    + intros H. inv_bind H. inv_bind H. simplify_eq.
      constructor; [assumption | by apply IH].
    + inversion 1 as [|? y ? ys Hy Hys]; subst.
      rewrite Hy. simpl. apply IH in Hys. rewrite Hys. reflexivity.
Qed.

Lemma mapM_loads_wf ls rs : mapM loads ls = Ok rs -> forallb wf rs = true.
Proof.
  intros H. apply mapM_Ok_Forall2 in H. apply forallb_Forall_wf.
  induction H as [|c r ls rs Hr _ IH]; constructor; [|assumption].
  by apply loads_wf in Hr.
Qed.

Lemma load_data_wf args fs v : load_data args fs = Ok v -> wf v = true.
Proof.
  unfold load_data. destruct (endswith _ _); intros H; inv_bind H.
  - by apply loads_wf in H.
  - inv_bind Hx. simplify_eq. rewrite wf_list. by apply mapM_loads_wf in Hx.
Qed.

(** Exceptions of the file layer derive from [Exception]. *)
Lemma open_read_Raise fs path e :
  open_read fs path = Raise e -> exc_cls e = FileNotFoundError.
Proof. unfold open_read. destruct (fs !! path); intros [= <-]; reflexivity. Qed.

Lemma mapM_loads_Raise ls e : mapM loads ls = Raise e -> exc_cls e = JSONDecodeError.
Proof.
  induction ls as [|c ls IH]; simpl; [discriminate|].
  destruct (loads c) eqn:E; simpl.
  - destruct (mapM loads ls); simpl; [discriminate|]. intros [= <-]. by apply IH.
  - intros [= <-]. by apply loads_Raise in E.
Qed.

Lemma read_jsonl_Raise fs path e :
  read_jsonl fs path = Raise e ->
  exc_cls e = FileNotFoundError \/ exc_cls e = JSONDecodeError.
Proof.
  unfold read_jsonl. destruct (open_read fs path) eqn:E; simpl.
  - intros H. right. by apply mapM_loads_Raise in H.
  - intros [= <-]. left. by apply open_read_Raise in E.
Qed.

End EngineFacts.
Export EngineFacts.

(* ===================================================================== *)
(** ** The worker task *)
(* ===================================================================== *)

Section WorkerTask.

Context {Model Tool Agent : Type}.
Variable w : World Model Tool Agent.

(** A successful call of [process_item], step by step. *)
Lemma process_item_Ok item model si pt ms vis txt aud r :
  process_item w item model si pt ms vis txt aud = Ok r ->
  exists agent q0 g q,
    MMSearchAgent w model si pt ms = Ok agent
    /\ py_getitem item "question" = Ok q0
    /\ py_getitem item "answer" = Ok g
    /\ augment_question w item q0 vis txt aud = Ok q
    /\ ((exists out, search_agent_call w agent q = Ok out
                     /\ r = success_record q g out)
        \/ (exists e, search_agent_call w agent q = Raise e
                      /\ is_Exception e = true
                      /\ r = failed_record w q g e)).
Proof.
  unfold process_item. intros H.
  inv_bind H. inv_bind H. inv_bind H. inv_bind H.
  exists x, x0, x1, x2. repeat (split; [assumption|]).
  destruct (search_agent_call w x x2) as [out|e] eqn:E.
  - left. exists out. split; congruence.
  - right. exists e. destruct (is_Exception e) eqn:Ee; [|discriminate].
    inv_bind H. split; [reflexivity|]. split; congruence.
Qed.

Lemma success_record_keys q g out k :
  k ∈ ["question"; "golden_answer"; "status"] ->
  exists d, success_record q g out = VDict d /\ is_Some (dict_get d k).
Proof.
  intros Hk. eexists. split; [reflexivity|].
  apply dict_get_is_Some, dict_update_keys_elem. left. exact Hk.
Qed.

Lemma process_item_truthy item model si pt ms vis txt aud r :
  process_item w item model si pt ms vis txt aud = Ok r -> truthy r = true.
Proof.
  intros H. apply process_item_Ok in H
    as (agent & q0 & g & q & _ & _ & _ & _ & [(out & _ & ->)|(e & _ & _ & ->)]).
  - destruct (success_record_keys q g out "question") as (d & Hd & Hk);
      [left|].
    rewrite Hd. destruct d; [|reflexivity].
    destruct Hk as [? Hk]. discriminate.
  - reflexivity.
Qed.

Lemma augment_question_wf item q vis txt aud q' :
  augment_question w item q vis txt aud = Ok q' -> wf q = true -> wf q' = true.
Proof.
  unfold augment_question. intros H Hq. inv_bind H.
  destruct (truthy x); [|congruence].
  inv_bind H. inv_bind H. destruct x1.
  - inv_bind H. inv_bind H. inv_bind H. inv_bind H.
    eapply py_iadd_str_wf; [eassumption|].
    eapply py_iadd_str_wf; eassumption.
  - inv_bind H. inv_bind H. inv_bind H. inv_bind H.
    eapply py_iadd_str_wf; [eassumption|].
    eapply py_iadd_str_wf; eassumption.
Qed.

Lemma process_item_wf item model si pt ms vis txt aud r :
  outputs_wf w -> wf item = true ->
  process_item w item model si pt ms vis txt aud = Ok r -> wf r = true.
Proof.
  intros Hw Hitem H. apply process_item_Ok in H
    as (agent & q0 & g & q & _ & Hq0 & Hg & Hq & Hr).
  assert (wf q = true) as Hwq.
  { eapply augment_question_wf; [eassumption|].
    eapply py_getitem_wf; eassumption. }
  assert (wf g = true) as Hwg by (eapply py_getitem_wf; eassumption).
  destruct Hr as [(out & Hout & ->)|(e & _ & _ & ->)].
  - apply Hw in Hout. unfold success_record. rewrite wf_dict in *.
    apply andb_true_iff in Hout as [_ Hout]. apply andb_true_iff. split.
    + apply bool_decide_eq_true, dict_update_NoDup.
      apply (bool_decide_unpack _). vm_compute. exact I.
    + apply dict_update_wf; [|assumption]. simpl. by rewrite Hwq, Hwg.
  - unfold failed_record. rewrite wf_dict. apply andb_true_iff. split.
    + vm_compute. reflexivity.
    + simpl. by rewrite Hwq, Hwg.
Qed.

(** Without a truthy [file_name] the question is left as it is. *)
Lemma augment_question_plain item q vis txt aud fn :
  py_get item "file_name" = Ok fn -> truthy fn = false ->
  augment_question w item q vis txt aud = Ok q.
Proof. unfold augment_question. intros -> Hfn. simpl. by rewrite Hfn. Qed.

(** With one, a text question grows by a banner and the description. *)
Lemma augment_question_text item s vis txt aud fn q' :
  py_getitem item "question" = Ok (VStr s) ->
  py_get item "file_name" = Ok fn -> truthy fn = true ->
  augment_question w item (VStr s) vis txt aud = Ok q' ->
  exists banner desc,
    q' = VStr (s +:+ banner +:+ desc)
    /\ ((py_contains_str ".zip" fn = Ok true /\ banner = zip_banner
         /\ get_zip_description w fn (VStr s) vis txt aud = Ok desc)
        \/ (py_contains_str ".zip" fn = Ok false /\ banner = file_banner
            /\ get_single_file_description w fn (VStr s) vis txt aud = Ok desc)).
Proof.
  unfold augment_question. intros Hq Hfn Ht H. rewrite Hfn in H. simpl in H.
  rewrite Ht in H.
  assert (py_getitem item "file_name" = Ok fn) as Hfn'.
  { destruct item as [| | | |l|d]; try discriminate.
    unfold py_get in Hfn. unfold py_getitem. simplify_eq.
    destruct (dict_get d "file_name"); [reflexivity | discriminate]. }
  rewrite Hfn', Hq in H. simpl in H.
  destruct (py_contains_str ".zip" fn) as [[|]|e] eqn:Ez; simpl in H;
    [| |discriminate].
  - destruct (get_zip_description w fn (VStr s) vis txt aud) as [desc|e] eqn:Ed;
      simpl in H; [|discriminate].
    exists zip_banner, desc. split.
    + simplify_eq. by rewrite str_app_assoc.
    + left. auto.
  - destruct (get_single_file_description w fn (VStr s) vis txt aud)
      as [desc|e] eqn:Ed; simpl in H; [|discriminate].
    exists file_banner, desc. split.
    + simplify_eq. by rewrite str_app_assoc.
    + right. auto.
Qed.

Lemma py_iadd_str_text s b q : py_iadd_str (VStr s) b = Ok q -> q = VStr (s +:+ b).
Proof. by intros [= <-]. Qed.

Lemma augment_question_is_text item s vis txt aud q :
  augment_question w item (VStr s) vis txt aud = Ok q -> exists s', q = VStr s'.
Proof.
  unfold augment_question. intros H. inv_bind H.
  destruct (truthy x); [|simplify_eq; eauto].
  inv_bind H. inv_bind H.
  destruct x1; inv_bind H; inv_bind H; inv_bind H; inv_bind H;
    repeat match goal with
           | E : py_iadd_str (VStr _) _ = Ok _ |- _ =>
               apply py_iadd_str_text in E; subst
           end; eauto.
Qed.

(** The exception of a task goes through [future.result()] and ends the
    collection loop, with nothing written for it. *)
Lemma collect_Raise args (e : exn) rest results fs :
  collect args (Raise e :: rest) results fs = (fs, Raise e).
Proof. reflexivity. Qed.

(** A record goes to [safe_write] and the loop goes on. *)
Lemma collect_Ok args r rest results fs :
  truthy r = true ->
  collect args (Ok r :: rest) results fs
  = match safe_write args r fs with
    | Ok fs' => collect args rest (results ++ [r]) fs'
    | Raise e => (fs, Raise e)
    end.
Proof. intros Hr. simpl. by rewrite Hr. Qed.

End WorkerTask.

(* ===================================================================== *)
(** ** Claims on the worker task *)
(* ===================================================================== *)

Section WorkerClaims.

Context {Model Tool Agent : Type}.
Variable w : World Model Tool Agent.

(** C1, as amended.  For a work item with a text question, once the agent
    is constructed and the attachment (if any) described, any exception
    deriving from [Exception] that the processing call raises is caught in
    the worker task and turned into a record with status [failed] carrying
    the exception's message and the full traceback; the collection loop
    hands that record to [safe_write] and goes on with the other tasks. *)
Theorem C1_processing_failure_is_recorded
    item model si pt ms vis txt aud agent s g q e :
  MMSearchAgent w model si pt ms = Ok agent ->
  py_getitem item "question" = Ok (VStr s) ->
  py_getitem item "answer" = Ok g ->
  augment_question w item (VStr s) vis txt aud = Ok q ->
  search_agent_call w agent q = Raise e ->
  is_Exception e = true ->
  let r := failed_record w q g e in
  process_item w item model si pt ms vis txt aud = Ok r
  /\ py_getitem r "status" = Ok (VStr "failed")
  /\ py_getitem r "error" = Ok (VStr (exc_str e))
  /\ py_getitem r "error_trace" = Ok (VStr (format_exc w e))
  /\ forall args rest results fs,
       collect args
         (process_item w item model si pt ms vis txt aud :: rest) results fs
       = match safe_write args r fs with
         | Ok fs' => collect args rest (results ++ [r]) fs'
         | Raise e' => (fs, Raise e')
         end.
Proof.
  intros Hagent Hq Hg Haug Hcall He r.
  assert (process_item w item model si pt ms vis txt aud = Ok r) as Hr.
  { unfold process_item. rewrite Hagent, Hq, Hg. simpl.
    rewrite Haug. simpl. rewrite Hcall, He.
    destruct (augment_question_is_text _ _ _ _ _ _ _ Haug) as [s' ->].
    reflexivity. }
  split; [exact Hr|]. repeat (split; [reflexivity|]).
  intros args rest results fs. rewrite Hr. apply collect_Ok. reflexivity.
Qed.

(** C4, as amended.  Every record a worker task returns is a dictionary
    with the keys [question], [golden_answer] and [status].  After a failed
    processing call it holds exactly [question] (the question as put to
    the agent), [golden_answer] (the item's [answer]), [error] (the
    exception's message), [error_trace] (the traceback) and [status], which
    is [failed].  After a successful call it holds every field of the
    worker's structured output, and those fields take precedence: [status]
    is [success], and [question] and [golden_answer] are the engine's,
    unless the output has a field of that name of its own. *)
Theorem C4_result_record_fields item model si pt ms vis txt aud r :
  process_item w item model si pt ms vis txt aud = Ok r ->
  exists d agent q0 q g,
    r = VDict d
    /\ MMSearchAgent w model si pt ms = Ok agent
    /\ py_getitem item "question" = Ok q0
    /\ augment_question w item q0 vis txt aud = Ok q
    /\ py_getitem item "answer" = Ok g
    /\ is_Some (dict_get d "question")
    /\ is_Some (dict_get d "golden_answer")
    /\ is_Some (dict_get d "status")
    /\ ((exists e,
           search_agent_call w agent q = Raise e
           /\ map fst d
              = ["question"; "golden_answer"; "error"; "error_trace"; "status"]
           /\ dict_get d "question" = Some q
           /\ dict_get d "golden_answer" = Some g
           /\ dict_get d "error" = Some (VStr (exc_str e))
           /\ dict_get d "error_trace" = Some (VStr (format_exc w e))
           /\ dict_get d "status" = Some (VStr "failed"))
        \/ (exists out,
              search_agent_call w agent q = Ok out
              /\ (forall k v, NoDup (map fst out) ->
                    dict_get out k = Some v -> dict_get d k = Some v)
              /\ (forall k, dict_get out k = None ->
                    dict_get d k
                    = dict_get [("question", q); ("golden_answer", g);
                                ("status", VStr "success")] k))).
Proof.
  intros H. apply process_item_Ok in H
    as (agent & q0 & g & q & Hagent & Hq0 & Hg & Haug & Hr).
  destruct Hr as [(out & Hout & ->)|(e & He & _ & ->)].
  - exists (dict_update [("question", q); ("golden_answer", g);
                         ("status", VStr "success")] out), agent, q0, q, g.
    split; [reflexivity|]. do 4 (split; [assumption|]).
    repeat (split; [apply dict_get_is_Some, dict_update_keys_elem; left;
                    simpl; set_solver|]).
    right. exists out. split; [assumption|]. split.
    + intros k v Hnd Hk. rewrite dict_update_get by assumption. by rewrite Hk.
    + intros k Hno. by apply dict_update_get_other.
  - eexists _, agent, q0, q, g. split; [reflexivity|].
    do 4 (split; [assumption|]). repeat (split; [by eexists|]).
    left. exists e. repeat (split; [reflexivity || assumption|]). reflexivity.
Qed.

(** C9, as amended.  When the worker's structured output has no [question]
    field of its own, the question stored in the record of an item is: for
    an item without a truthy [file_name], the item's question unchanged;
    for an item with one and a text question, that text followed by the
    banner and the attachment description, which differs from the item's
    question. *)
Theorem C9_stored_question item model si pt ms vis txt aud r :
  (forall agent q out,
     search_agent_call w agent q = Ok out -> dict_get out "question" = None) ->
  process_item w item model si pt ms vis txt aud = Ok r ->
  exists d q0 fn,
    r = VDict d
    /\ py_getitem item "question" = Ok q0
    /\ py_get item "file_name" = Ok fn
    /\ (truthy fn = false -> dict_get d "question" = Some q0)
    /\ (truthy fn = true -> forall s, q0 = VStr s ->
          exists banner desc,
            dict_get d "question" = Some (VStr (s +:+ banner +:+ desc))
            /\ VStr (s +:+ banner +:+ desc) <> q0
            /\ ((py_contains_str ".zip" fn = Ok true /\ banner = zip_banner
                 /\ get_zip_description w fn q0 vis txt aud = Ok desc)
                \/ (py_contains_str ".zip" fn = Ok false
                    /\ banner = file_banner
                    /\ get_single_file_description w fn q0 vis txt aud
                       = Ok desc))).
Proof.
  intros Hown H. apply process_item_Ok in H
    as (agent & q0 & g & q & _ & Hq0 & _ & Haug & Hr).
  assert (exists d, r = VDict d /\ dict_get d "question" = Some q)
    as (d & -> & Hd).
  { destruct Hr as [(out & Hout & ->)|(e & _ & _ & ->)].
    - eexists. split; [reflexivity|].
      rewrite dict_update_get_other by (eapply Hown; eassumption).
      reflexivity.
    - eexists. split; reflexivity. }
  assert (exists fn, py_get item "file_name" = Ok fn) as [fn Hfn].
  { destruct item; try discriminate. eexists. reflexivity. }
  exists d, q0, fn. repeat (split; [reflexivity || assumption|]). split.
  - intros Hf. rewrite (augment_question_plain w _ _ _ _ _ _ Hfn Hf) in Haug.
    congruence.
  - intros Ht s ->.
    destruct (augment_question_text w _ _ _ _ _ _ _ Hq0 Hfn Ht Haug)
      as (banner & desc & -> & Hcase).
    exists banner, desc. split; [assumption|]. split; [|assumption].
    intros [= Heq]. revert Heq. apply str_app_ne.
    destruct Hcase as [(_ & -> & _)|(_ & -> & _)]; discriminate.
Qed.

(** C10.  [process_item] reads [item["question"]] and [item["answer"]]
    before its [try]: for a work item lacking one of the two keys the call
    returns no record but raises, a [KeyError] naming the missing key once
    the agent is constructed, and [future.result()] re-raises it in the
    collection loop, which ends there. *)
Theorem C10_missing_key_escapes d model si pt ms vis txt aud :
  dict_get d "question" = None \/ dict_get d "answer" = None ->
  exists e,
    process_item w (VDict d) model si pt ms vis txt aud = Raise e
    /\ (forall agent, MMSearchAgent w model si pt ms = Ok agent ->
          exc_cls e = KeyError
          /\ exc_str e = match dict_get d "question" with
                          | Some _ => "'answer'"
                          | None => "'question'"
                          end)
    /\ forall args rest results fs,
         collect args
           (process_item w (VDict d) model si pt ms vis txt aud :: rest)
           results fs = (fs, Raise e).
Proof.
  intros Hmiss. unfold process_item.
  destruct (MMSearchAgent w model si pt ms) as [agent|e0] eqn:Ha; simpl.
  - destruct (dict_get d "question") as [q|] eqn:Hq; simpl.
    + destruct Hmiss as [?|Hans]; [discriminate|]. rewrite Hans. simpl.
      eexists. split; [reflexivity|]. split; [intros _ _; split; reflexivity|].
      intros. reflexivity.
    + eexists. split; [reflexivity|]. split; [intros _ _; split; reflexivity|].
      intros. reflexivity.
  - exists e0. split; [reflexivity|]. split; [intros ?; discriminate|].
    intros. reflexivity.
Qed.

End WorkerClaims.

(* ===================================================================== *)
(** ** Paths *)
(* ===================================================================== *)

Section PathFacts.

Lemma rfind_char_app_None c x y :
  rfind_char c y = None -> rfind_char c (x +:+ y) = rfind_char c x.
Proof.
  intros Hy. induction x as [|a x IH]; [exact Hy|].
  change (rfind_char c (String a (x +:+ y)) = rfind_char c (String a x)).
  simpl. by rewrite IH.
Qed.





End PathFacts.

(* ===================================================================== *)
(** ** The result sink *)
(* ===================================================================== *)

Section ResultSink.

Variable args : Args.



(** The array-encoded append, step by step. *)
Lemma safe_write_json r fs old :
  is_json_output args = true ->
  read_existing args fs = Ok (VList old) ->
  safe_write args r fs
  = Ok (<[outfile args := dump true (VList (old ++ [r]))]>
          (delete (temp_file args)
             (<[temp_file args := dump true (VList (old ++ [r]))]> fs))).
Proof.
  intros Hj Hr. unfold safe_write. rewrite Hj, Hr. simpl.
  unfold shutil_move, write_file. rewrite lookup_insert_eq. reflexivity.
Qed.

Lemma safe_write_json_inv r fs fs' :
  is_json_output args = true -> safe_write args r fs = Ok fs' ->
  exists old, read_existing args fs = Ok (VList old).
Proof.
  intros Hj. unfold safe_write. rewrite Hj. intros H.
  inv_bind H. inv_bind H. destruct x; try discriminate. eauto.
Qed.

(** The line-encoded append. *)
Lemma safe_write_jsonl r fs :
  is_json_output args = false ->
  safe_write args r fs
  = Ok (<[outfile args := default [] (fs !! outfile args) ++ line r]> fs).
Proof.
  intros Hj. unfold safe_write. rewrite Hj.
  unfold write_jsonl, append_file. simpl. rewrite app_nil_r.
  reflexivity.
Qed.

(** What the collection loop leaves in a line-encoded store: the old
    contents followed by one line per record it wrote. *)
Lemma collect_jsonl completed :
  is_json_output args = false ->
  forall results fs,
  exists written,
    default [] (fst (collect args completed results fs) !! outfile args)
    = default [] (fs !! outfile args) ++ concat (map line written)
    /\ (forall p, p <> outfile args ->
          fst (collect args completed results fs) !! p = fs !! p)
    /\ (forall rs', snd (collect args completed results fs) = Ok rs' ->
          exists rs, completed = map Ok rs
                     /\ written = filter (fun r => truthy r = true) rs
                     /\ rs' = results ++ written).
Proof.
  intros Hj. induction completed as [|[r|e] rest IH]; intros results fs.
  - exists []. simpl. rewrite !app_nil_r. split; [reflexivity|].
    split; [reflexivity|]. intros rs' [= <-]. exists []. auto.
  - simpl. destruct (truthy r) eqn:Ht.
    + rewrite safe_write_jsonl by assumption.
      destruct (IH (results ++ [r])
                  (<[outfile args := default [] (fs !! outfile args) ++ line r]> fs))
        as (written & Hc & Hp & Hrs).
      exists (r :: written). split; [|split].
      * rewrite Hc, lookup_insert_eq. simpl. by rewrite app_assoc.
      * intros p Hne. rewrite Hp by assumption.
        by rewrite lookup_insert_ne.
      * intros rs' Hrs'. destruct (Hrs rs' Hrs') as (rs & -> & -> & ->).
        exists (r :: rs). split; [reflexivity|].
        rewrite filter_cons_True by assumption.
        split; [reflexivity|]. by rewrite <- app_assoc.
    + destruct (IH results fs) as (written & Hc & Hp & Hrs).
      exists written. split; [assumption|]. split; [assumption|].
      intros rs' Hrs'. destruct (Hrs rs' Hrs') as (rs & -> & -> & ->).
      exists (r :: rs). split; [reflexivity|].
      rewrite filter_cons_False by congruence. auto.
  - exists []. simpl. rewrite app_nil_r. split; [reflexivity|].
    split; [reflexivity|]. discriminate.
Qed.

(** The same for an array-encoded store, on a run that completes: the
    store then holds the old records followed by the collected ones. *)
Lemma collect_json completed :
  is_json_output args = true ->
  forall results fs fs' rs' old,
    read_existing args fs = Ok (VList old) ->
    wf (VList old) = true ->
    Forall (fun c => forall r, c = Ok r -> wf r = true /\ truthy r = true)
      completed ->
    collect args completed results fs = (fs', Ok rs') ->
    exists rs,
      completed = map Ok rs
      /\ rs' = results ++ rs
      /\ read_existing args fs' = Ok (VList (old ++ rs))
      /\ wf (VList (old ++ rs)) = true
      /\ (rs = [] -> fs' = fs)
      /\ (rs <> [] ->
            fs' !! outfile args = Some (dump true (VList (old ++ rs)))).
Proof.
  intros Hj. induction completed as [|[r|e] rest IH];
    intros results fs fs' rs' old Hold Hwf Hall Hc.
  - simpl in Hc. simplify_eq. exists []. rewrite !app_nil_r.
    split; [reflexivity|]. split; [reflexivity|]. split; [assumption|].
    split; [assumption|]. split; [intros _; reflexivity|].
    intros Hne. by destruct Hne.
  - apply Forall_cons in Hall as [Hr Hall].
    destruct (Hr r eq_refl) as [Hwr Htr].
    rewrite collect_Ok in Hc by assumption.
    rewrite (safe_write_json r fs old Hj Hold) in Hc.
    set (doc := dump true (VList (old ++ [r]))) in *.
    set (fs1 := <[outfile args := doc]> _) in *.
    assert (wf (VList (old ++ [r])) = true) as Hwf1.
    { rewrite wf_list in *. apply forallb_app_true; [assumption|].
      simpl. by rewrite Hwr. }
    assert (fs1 !! outfile args = Some doc) as Hdoc
      by apply lookup_insert_eq.
    assert (read_existing args fs1 = Ok (VList (old ++ [r]))) as Hold1.
    { unfold read_existing, open_read. rewrite Hdoc. simpl.
      unfold doc. rewrite loads_dump by assumption. reflexivity. }
    destruct (IH _ _ _ _ _ Hold1 Hwf1 Hall Hc)
      as (rs & -> & -> & Hre & Hwf' & Hnil & Hcons).
    exists (r :: rs). rewrite <- !app_assoc in *. simpl in *.
    repeat (split; [reflexivity || assumption|]). split; [discriminate|].
    intros _. destruct rs as [|r' rs].
    + rewrite (Hnil eq_refl). exact Hdoc.
    + apply Hcons. discriminate.
  - discriminate.
Qed.


End ResultSink.

(* ===================================================================== *)
(** ** The completion ledger *)
(* ===================================================================== *)

Section Ledger.

Lemma py_set_elem qs done :
  py_set qs = Ok done ->
  forall k, k ∈ done <-> exists q, q ∈ qs /\ py_hash q = Ok k.
Proof.
  revert done. induction qs as [|q qs IH]; intros done H k; simpl in H.
  - simplify_eq. split; [set_solver|]. intros (q & Hq & _).
    by apply elem_of_nil in Hq.
  - inv_bind H. inv_bind H. simplify_eq.
    rewrite elem_of_union, elem_of_singleton, (IH _ Hx0). split.
    + intros [->|(q' & Hq' & Hk)].
      * exists q. split; [left | assumption].
      * exists q'. split; [by right | assumption].
    + intros (q' & Hq' & Hk). apply elem_of_cons in Hq' as [->|Hq'].
      * left. congruence.
      * right. eauto.
Qed.

Lemma filterM_Ok {A} (p : A -> result bool) l l' :
  filterM p l = Ok l' ->
  l' = filter (fun x => match p x with Ok b => b | Raise _ => false end = true) l
  /\ Forall (fun x => exists b, p x = Ok b) l.
Proof.
  revert l'. induction l as [|a l IH]; intros l' H; simpl in H.
  - simplify_eq. split; [reflexivity | constructor].
  - apply bind_Ok in H as (b & Hb & H). apply bind_Ok in H as (ys & Hys & H).
    simplify_eq. destruct (IH _ Hys) as [-> Hall]. split.
    + destruct b.
      * rewrite filter_cons_True by (by rewrite Hb). reflexivity.
      * rewrite filter_cons_False by (by rewrite Hb). reflexivity.
    + constructor; eauto.
Qed.

Lemma data_to_run_Ok data done pending :
  data_to_run data done = Ok pending ->
  exists items,
    py_iter data = Ok items
    /\ pending = filter (fun item => is_pending done item = true) items
    /\ Forall (fun item => exists q k, py_get item "question" = Ok q
                                       /\ py_hash q = Ok k) items.
Proof.
  unfold data_to_run. intros H. inv_bind H. exists x. split; [assumption|].
  apply filterM_Ok in H as [-> Hall]. split; [reflexivity|].
  eapply Forall_impl; [exact Hall|]. intros item [b Hb]. simpl in Hb.
  inv_bind Hb. unfold py_not_in in Hb. inv_bind Hb. eauto.
Qed.

Lemma is_pending_spec done item :
  is_pending done item = true
  <-> exists q k, py_get item "question" = Ok q /\ py_hash q = Ok k /\ k ∉ done.
Proof.
  unfold is_pending, py_not_in. split.
  - destruct (py_get item "question") as [q|] eqn:Eq; simpl; [|discriminate].
    destruct (py_hash q) as [k|] eqn:Ek; simpl; [|discriminate].
    intros Hb. apply bool_decide_eq_true in Hb. eauto.
  - intros (q & k & -> & Hk & Hn). simpl. rewrite Hk. simpl.
    by apply bool_decide_eq_true.
Qed.

Lemma done_questions_Ok out_data done :
  done_questions out_data = Ok done ->
  exists recs,
    py_iter out_data = Ok recs
    /\ forall k, k ∈ done <-> exists rec q, rec ∈ recs
                                /\ py_get rec "question" = Ok q
                                /\ py_hash q = Ok k.
Proof.
  unfold done_questions. intros H. inv_bind H. inv_bind H.
  exists x. split; [assumption|]. intros k.
  rewrite (py_set_elem _ _ H k). apply mapM_Ok_Forall2 in Hx0. split.
  - intros (q & Hq & Hk). apply list_elem_of_lookup in Hq as [i Hi].
    destruct (Forall2_lookup_r _ _ _ _ _ Hx0 Hi) as (rec & Hrec & Hget).
    exists rec, q. split; [|auto]. apply list_elem_of_lookup. eauto.
  - intros (rec & q & Hrec & Hget & Hk).
    apply list_elem_of_lookup in Hrec as [i Hi].
    destruct (Forall2_lookup_l _ _ _ _ _ Hx0 Hi) as (q' & Hq' & Hget').
    exists q. split; [|assumption]. apply list_elem_of_lookup. exists i.
    congruence.
Qed.

(** C6.  An item of the work list is pending, hence dispatched, exactly
    when its [question] value is absent from the set of [question] values
    of the records of the prior output store.  The status of those records
    plays no part: an item whose question is that of a prior record, failed
    or not, is skipped. *)
Theorem C6_pending_iff_question_absent data out_data done pending :
  done_questions out_data = Ok done ->
  data_to_run data done = Ok pending ->
  exists items recs,
    py_iter data = Ok items
    /\ py_iter out_data = Ok recs
    /\ pending = filter (fun item => is_pending done item = true) items
    /\ (forall k, k ∈ done <-> exists rec q, rec ∈ recs
                                 /\ py_get rec "question" = Ok q
                                 /\ py_hash q = Ok k)
    /\ (forall item,
          item ∈ pending
          <-> item ∈ items
              /\ exists q k, py_get item "question" = Ok q
                             /\ py_hash q = Ok k /\ k ∉ done)
    /\ (forall item rec q,
          item ∈ items -> rec ∈ recs ->
          py_get rec "question" = Ok q -> py_get item "question" = Ok q ->
          item ∉ pending).
Proof.
  intros Hdone Hrun.
  destruct (done_questions_Ok _ _ Hdone) as (recs & Hrecs & Hd).
  destruct (data_to_run_Ok _ _ _ Hrun) as (items & Hitems & -> & Hall).
  exists items, recs. repeat (split; [reflexivity || assumption|]).
  assert (forall item,
            item ∈ filter (fun item => is_pending done item = true) items
            <-> item ∈ items
                /\ exists q k, py_get item "question" = Ok q
                               /\ py_hash q = Ok k /\ k ∉ done) as Hiff.
  { intros item. rewrite list_elem_of_filter, is_pending_spec. tauto. }
  split; [exact Hiff|].
  intros item rec q Hitem Hrec Hq Hq' Hin.
  apply Hiff in Hin as (_ & q' & k & Hq'' & Hk & Hn).
  apply Hn, Hd. exists rec, q. split; [assumption|].
  split; [assumption | congruence].
Qed.

Lemma read_out_data_Raise args fs e :
  read_out_data args fs = Raise e -> is_Exception e = true.
Proof.
  unfold read_out_data. destruct (is_json_output args).
  - destruct (open_read fs (outfile args)) as [c|e'] eqn:Eo; simpl.
    + intros H. apply loads_Raise in H. unfold is_Exception. by rewrite H.
    + intros [= <-]. apply open_read_Raise in Eo.
      unfold is_Exception. by rewrite Eo.
  - destruct (read_jsonl fs (outfile args)) as [l|e'] eqn:Er; simpl;
      [discriminate|].
    intros [= <-]. apply read_jsonl_Raise in Er.
    unfold is_Exception. destruct Er as [-> | ->]; reflexivity.
Qed.

Lemma load_out_data_total args fs : exists v, load_out_data args fs = Ok v.
Proof.
  unfold load_out_data. destruct (read_out_data args fs) as [v|e] eqn:E.
  - eauto.
  - rewrite (read_out_data_Raise _ _ _ E). eauto.
Qed.

Lemma filterM_cons_true {A} (p : A -> result bool) a l l' :
  p a = Ok true -> filterM p l = Ok l' -> filterM p (a :: l) = Ok (a :: l').
Proof. simpl. intros -> ->. reflexivity. Qed.

Lemma data_to_run_empty_done items :
  Forall (fun item => is_work_item item = true) items ->
  data_to_run (VList items) ∅ = Ok items.
Proof.
  intros Hall. unfold data_to_run.
  change (py_iter (VList items)) with (Ok items).
  rewrite (bind_Ok_l (Ok items) _ items eq_refl).
  induction Hall as [|item items Hitem _ IH]; [reflexivity|].
  apply filterM_cons_true; [|exact IH].
  destruct item as [| | | |?|d]; try discriminate.
  unfold is_work_item in Hitem. unfold py_get, py_not_in.
  destruct (py_hash (default VNone (dict_get d "question"))) as [k|] eqn:Ek;
    [|discriminate].
  simpl. rewrite Ek. simpl.
  by rewrite bool_decide_eq_true_2 by set_solver.
Qed.

(** C7.  Loading the prior output store never raises.  When the load
    itself fails, on a missing file, an empty file or contents that do not
    parse, the prior output is the empty list; the completion set is then
    empty and every work item is pending. *)
Theorem C7_failed_load_is_empty_prior_output args fs :
  (exists v, load_out_data args fs = Ok v)
  /\ (forall e, read_out_data args fs = Raise e ->
        load_out_data args fs = Ok (VList []))
  /\ (fs !! outfile args = None -> load_out_data args fs = Ok (VList []))
  /\ (fs !! outfile args = Some [] -> load_out_data args fs = Ok (VList []))
  /\ done_questions (VList []) = Ok ∅
  /\ (forall items, Forall (fun item => is_work_item item = true) items ->
        data_to_run (VList items) ∅ = Ok items).
Proof.
  assert (forall e, read_out_data args fs = Raise e ->
            load_out_data args fs = Ok (VList [])) as Hfail.
  { intros e He. unfold load_out_data.
    by rewrite He, (read_out_data_Raise _ _ _ He). }
  split; [apply load_out_data_total|]. split; [exact Hfail|].
  split; [|split; [|split; [reflexivity | apply data_to_run_empty_done]]].
  - intros Hnone. unfold load_out_data, read_out_data, read_jsonl, open_read.
    rewrite Hnone. by destruct (is_json_output args).
  - intros Hempty. unfold load_out_data, read_out_data, read_jsonl, open_read.
    rewrite Hempty. by destruct (is_json_output args).
Qed.

End Ledger.

(* ===================================================================== *)
(** ** Whole runs *)
(* ===================================================================== *)

Section Run.

Context {Model Tool Agent : Type}.
Variable w : World Model Tool Agent.

Lemma as_completed_nil {A} sched : as_completed sched ([] : list A) = [].
Proof. unfold as_completed. induction sched; [reflexivity | exact IHsched]. Qed.

Lemma omap_lookup_seq {A} (pre l : list A) :
  omap (fun i => (pre ++ l) !! i) (seq (length pre) (length l)) = l.
Proof.
  revert pre. induction l as [|x l IH]; intros pre; [reflexivity|].
  simpl. rewrite list_lookup_middle by reflexivity.
  f_equal. specialize (IH (pre ++ [x])).
  rewrite length_app, <- app_assoc in IH. simpl in IH.
  rewrite Nat.add_1_r in IH. exact IH.
Qed.

(** Every future comes out of [as_completed] exactly once. *)
Lemma as_completed_Permutation {A} sched (l : list A) :
  sched ≡ₚ seq 0 (length l) -> as_completed sched l ≡ₚ l.
Proof.
  intros Hs. unfold as_completed. rewrite Hs.
  pose proof (omap_lookup_seq [] l) as Hl. simpl in Hl. by rewrite Hl.
Qed.

Lemma prepare_Ok args key fs p :
  prepare w args key fs = Ok p ->
  exists out,
    (load_data args fs ≫= cap_sample args) = Ok (p_data p)
    /\ load_out_data args fs = Ok out
    /\ done_questions out = Ok (p_done p)
    /\ data_to_run (p_data p) (p_done p) = Ok (p_pending p).
Proof.
  unfold prepare. intros H. do 9 inv_bind H. simplify_eq. simpl.
  exists x5. rewrite Hx3. simpl. auto.
Qed.

(** The three ways [main] can go. *)
Lemma main_cases args sched fs :
  (main w args sched fs = (fs, Ok None))
  \/ (exists e, main w args sched fs = (fs, Raise e))
  \/ (exists key p,
        prepare w args key fs = Ok p
        /\ main w args sched fs
           = (fst (dispatch w args (p_model p) (p_visual p) (p_text p)
                     (p_audio p) sched (p_pending p) fs),
              match snd (dispatch w args (p_model p) (p_visual p) (p_text p)
                           (p_audio p) sched (p_pending p) fs) with
              | Ok results => Ok (Some results)
              | Raise e => Raise e
              end)).
Proof.
  unfold main. destruct (env_OPENAI_API_KEY w) as [key|]; [|by left].
  destruct (api_key_unusable (Some key)); [by left|].
  destruct (prepare w args key fs) as [p|e] eqn:Ep; [|right; left; eauto].
  right. right. exists key, p. split; [exact Ep|].
  destruct (dispatch _ _ _ _ _ _ _ _ _) as [fs' [rs|e]]; reflexivity.
Qed.

Lemma dispatch_nil args model vis txt aud sched fs :
  fst (dispatch w args model vis txt aud sched [] fs) = fs
  /\ forall rs, snd (dispatch w args model vis txt aud sched [] fs) = Ok rs ->
       rs = [].
Proof.
  unfold dispatch. destruct (Z.leb (concurrency args) 0).
  - split; [reflexivity | discriminate].
  - simpl map. rewrite as_completed_nil. simpl. split; [reflexivity|].
    by intros rs [= <-].
Qed.

Lemma py_set_hashable qs done q :
  py_set qs = Ok done -> q ∈ qs -> exists k, py_hash q = Ok k /\ k ∈ done.
Proof.
  intros H Hq. assert (exists k, py_hash q = Ok k) as [k Hk].
  { revert done H. induction qs as [|q' qs IH]; intros done H;
      [by apply elem_of_nil in Hq|].
    simpl in H. inv_bind H. inv_bind H.
    apply elem_of_cons in Hq as [->|Hq]; eauto. }
  exists k. split; [assumption|]. apply (py_set_elem _ _ H). eauto.
Qed.

Lemma filterM_all_false {A} (p : A -> result bool) l :
  Forall (fun a => p a = Ok false) l -> filterM p l = Ok [].
Proof.
  induction 1 as [|a l Ha _ IH]; [reflexivity|].
  simpl. rewrite Ha, IH. reflexivity.
Qed.

(** C2.  Resume idempotence.  When the question of every input item is
    that of a record of the output store with status [success], the
    pending list is empty: a run against that input and output leaves the
    file system as it found it and collects no result. *)
Theorem C2_resume_idempotence args sched fs data items out recs :
  (load_data args fs ≫= cap_sample args) = Ok data ->
  py_iter data = Ok items ->
  load_out_data args fs = Ok out ->
  py_iter out = Ok recs ->
  Forall (fun item =>
            exists rec q,
              rec ∈ recs
              /\ py_get item "question" = Ok q
              /\ py_get rec "question" = Ok q
              /\ py_get rec "status" = Ok (VStr "success")) items ->
  (forall done, done_questions out = Ok done -> data_to_run data done = Ok [])
  /\ fst (main w args sched fs) = fs
  /\ (forall results,
        snd (main w args sched fs) = Ok (Some results) -> results = []).
Proof.
  intros Hdata Hitems Hout Hrecs Hall.
  assert (forall done, done_questions out = Ok done ->
            data_to_run data done = Ok []) as Hpending.
  { intros done Hdone. unfold data_to_run. rewrite Hitems. simpl.
    apply filterM_all_false.
    eapply Forall_impl; [exact Hall|].
    intros item (rec & q & Hrec & Hq & Hq' & _). simpl.
    unfold done_questions in Hdone. rewrite Hrecs in Hdone. simpl in Hdone.
    inv_bind Hdone. apply mapM_Ok_Forall2 in Hx.
    apply list_elem_of_lookup in Hrec as [i Hi].
    destruct (Forall2_lookup_l _ _ _ _ _ Hx Hi) as (q' & Hqi & Hget).
    assert (q ∈ x) as Hin
      by (apply list_elem_of_lookup; exists i; congruence).
    destruct (py_set_hashable _ _ _ Hdone Hin) as (k & Hk & Hkd).
    rewrite Hq. simpl. unfold py_not_in. rewrite Hk. simpl.
    by rewrite bool_decide_eq_false_2 by tauto. }
  split; [exact Hpending|].
  destruct (main_cases args sched fs) as [->|[[e ->]|(key & p & Hp & ->)]];
    [split; [reflexivity | discriminate]
    |split; [reflexivity | discriminate]|].
  destruct (prepare_Ok _ _ _ _ Hp) as (out' & Hd & Ho & Hdone & Hrun).
  assert (p_pending p = []) as ->.
  { rewrite Hdata in Hd. rewrite Hout in Ho. simplify_eq.
    rewrite (Hpending _ Hdone) in Hrun. congruence. }
  destruct (dispatch_nil args (p_model p) (p_visual p) (p_text p)
              (p_audio p) sched fs) as [Hfs Hrs].
  split; [exact Hfs|]. simpl. intros results Hres.
  destruct (snd (dispatch _ _ _ _ _ _ _ _ _)) as [rs|e]; [|discriminate].
  simplify_eq. by apply Hrs.
Qed.

(** C8.  For line-encoded output, [safe_write] reads nothing: it appends
    to the store the one serialized record and a line terminator, after
    whatever the store holds.  Over a whole run, however it ends, the
    store is its old contents followed by the lines written, and no other
    file changes: the store is never truncated or reordered. *)
Theorem C8_line_store_is_append_only args :
  is_json_output args = false ->
  (forall r fs,
     safe_write args r fs
     = Ok (<[outfile args :=
               default [] (fs !! outfile args) ++ dump false r ++ [TNewline]]>
             fs))
  /\ (forall sched fs,
        exists written,
          default [] (fst (main w args sched fs) !! outfile args)
          = default [] (fs !! outfile args) ++ concat (map line written)
          /\ forall p, p <> outfile args ->
               fst (main w args sched fs) !! p = fs !! p).
Proof.
  intros Hj. split; [intros r fs; by apply safe_write_jsonl|].
  intros sched fs.
  destruct (main_cases args sched fs) as [->|[[e ->]|(key & p & Hp & ->)]];
    [exists []; simpl; by rewrite app_nil_r
    |exists []; simpl; by rewrite app_nil_r|].
  unfold dispatch. destruct (Z.leb (concurrency args) 0);
    [exists []; simpl; by rewrite app_nil_r|].
  simpl fst.
  match goal with
  | |- context [collect args ?c ?r fs] =>
      destruct (collect_jsonl args c Hj r fs) as (written & Hc & Hp' & _)
  end.
  exists written. split; assumption.
Qed.

(** On an empty or missing store both readers see no record. *)
Lemma read_existing_initial args fs :
  fs !! outfile args = None \/ fs !! outfile args = Some [] ->
  read_existing args fs = Ok (VList []).
Proof. unfold read_existing, open_read. by intros [-> | ->]. Qed.

Lemma load_out_data_initial args fs :
  fs !! outfile args = None \/ fs !! outfile args = Some [] ->
  load_out_data args fs = Ok (VList []).
Proof.
  unfold load_out_data, read_out_data, read_jsonl, open_read.
  by intros [-> | ->]; destruct (is_json_output args).
Qed.

Lemma pending_all data items pending :
  py_iter data = Ok items -> data_to_run data ∅ = Ok pending -> pending = items.
Proof.
  intros Hitems Hrun.
  destruct (data_to_run_Ok _ _ _ Hrun) as (items' & Hi & -> & Hall).
  rewrite Hitems in Hi. simplify_eq. apply filter_id.
  eapply Forall_impl; [exact Hall|]. intros item (q & k & Hq & Hk).
  apply is_pending_spec. exists q, k. set_solver.
Qed.

Lemma map_Ok_Forall2 {A B} (f : A -> result B) l l' :
  map f l = map Ok l' -> Forall2 (fun x y => f x = Ok y) l l'.
Proof.
  revert l'. induction l as [|x l IH]; intros [|y l'] H; simplify_eq;
    constructor; auto.
Qed.

(** A record of an item without attachment, from a worker without a
    [question] field of its own, stores the question of the item. *)
Lemma stored_question_plain item model si pt ms vis txt aud r fn :
  (forall agent q out,
     search_agent_call w agent q = Ok out -> dict_get out "question" = None) ->
  py_get item "file_name" = Ok fn -> truthy fn = false ->
  process_item w item model si pt ms vis txt aud = Ok r ->
  exists q, py_get item "question" = Ok q /\ py_get r "question" = Ok q.
Proof.
  intros Hown Hfn Hf H. apply process_item_Ok in H
    as (agent & q0 & g & q & _ & Hq0 & _ & Haug & Hr).
  rewrite (augment_question_plain w _ _ _ _ _ _ Hfn Hf) in Haug.
  simplify_eq. exists q. split.
  - destruct item as [| | | |?|d]; try discriminate.
    unfold py_getitem in Hq0. unfold py_get.
    destruct (dict_get d "question"); by simplify_eq.
  - destruct Hr as [(out & Hout & ->)|(e & _ & _ & ->)]; [|reflexivity].
    unfold success_record, py_get.
    by rewrite dict_update_get_other by (eapply Hown; eassumption).
Qed.

Lemma questions_cons item l qs :
  questions (item :: l) = Ok qs
  <-> exists q qs', py_get item "question" = Ok q
                    /\ questions l = Ok qs' /\ qs = q :: qs'.
Proof.
  unfold questions. simpl. split.
  - intros H. apply bind_Ok in H as (q & Hq & H).
    apply bind_Ok in H as (qs' & Hqs & H). simplify_eq. eauto.
  - intros (q & qs' & -> & -> & ->). reflexivity.
Qed.

Lemma questions_Forall2 (Q : value -> Prop) (P : value -> value -> Prop)
    items rs iqs :
  (forall item r, Q item -> P item r ->
     exists q, py_get item "question" = Ok q /\ py_get r "question" = Ok q) ->
  Forall Q items -> Forall2 P items rs ->
  questions items = Ok iqs -> questions rs = Ok iqs.
Proof.
  intros HP HQ H. revert iqs. induction H as [|item r items rs Hir _ IH];
    intros iqs Hq; [exact Hq|].
  apply Forall_cons in HQ as [Hitem HQ].
  apply questions_cons in Hq as (q & qs' & Hi & Hqs & ->).
  destruct (HP _ _ Hitem Hir) as (q' & Hi' & Hr).
  apply questions_cons. exists q, qs'. split; [congruence | auto].
Qed.

Lemma questions_Permutation l l' qs :
  l ≡ₚ l' -> questions l = Ok qs ->
  exists qs', questions l' = Ok qs' /\ qs ≡ₚ qs'.
Proof.
  intros Hp. revert qs.
  induction Hp as [|a l l' _ IH|a b l|l l' l'' _ IH1 _ IH2]; intros qs H.
  - eauto.
  - apply questions_cons in H as (q & qs0 & Ha & Hl & ->).
    destruct (IH _ Hl) as (qs' & Hl' & Hqs).
    exists (q :: qs'). split; [|by constructor].
    apply questions_cons. eauto.
  - apply questions_cons in H as (qb & qs0 & Hb & H & ->).
    apply questions_cons in H as (qa & qs1 & Ha & H & ->).
    exists (qa :: qb :: qs1). split; [|apply perm_swap].
    apply questions_cons. exists qa, (qb :: qs1).
    split; [assumption|]. split; [|reflexivity].
    apply questions_cons. eauto.
  - destruct (IH1 _ H) as (qs' & H' & Hp1).
    destruct (IH2 _ H') as (qs'' & H'' & Hp2).
    exists qs''. split; [assumption | by etrans].
Qed.

(** C3, as amended.  Take an input of N work items, an output store that
    is missing or empty, and a run with concurrency K > 1 that completes,
    in whatever order the tasks finish.  The run has collected N records,
    one for each item, and the output store holds exactly these records.
    If moreover no item has an attachment and the structured output of the
    worker has no [question] field of its own, the questions of the records
    are the questions of the input items, as many times each; they are
    then pairwise distinct exactly when the questions of the input are. *)
Theorem C3_one_record_per_item args sched fs fs' results data items :
  outputs_wf w ->
  1 < concurrency args ->
  fs !! outfile args = None \/ fs !! outfile args = Some [] ->
  (load_data args fs ≫= cap_sample args) = Ok data ->
  py_iter data = Ok items ->
  sched ≡ₚ seq 0 (length items) ->
  main w args sched fs = (fs', Ok (Some results)) ->
  length results = length items
  /\ store_holds args fs' results
  /\ ((forall agent q out,
         search_agent_call w agent q = Ok out ->
         dict_get out "question" = None) ->
      Forall (fun item =>
                exists fn, py_get item "file_name" = Ok fn
                           /\ truthy fn = false) items ->
      forall iqs,
        questions items = Ok iqs ->
        exists qs,
          questions results = Ok qs
          /\ qs ≡ₚ iqs
          /\ (NoDup qs <-> NoDup iqs)).
Proof.
  intros Hwfw HK Hinit Hdata Hitems Hsched Hmain.
  destruct (main_cases args sched fs) as [E|[[e E]|(key & p & Hp & E)]];
    rewrite E in Hmain; try discriminate.
  destruct (prepare_Ok _ _ _ _ Hp) as (out & Hd & Ho & Hdone & Hrun).
  clear E. injection Hmain as Hfs Hres.
  assert (p_data p = data) as Hpd by congruence.
  assert (out = VList []) as ->
    by (rewrite (load_out_data_initial _ _ Hinit) in Ho; congruence).
  assert (p_done p = ∅) as Hpdone.
  { change (done_questions (VList [])) with (Ok (∅ : gset hkey)) in Hdone.
    congruence. }
  rewrite Hpd, Hpdone in Hrun.
  rewrite (pending_all _ _ _ Hitems Hrun) in Hfs, Hres.
  clear Hrun Hp Hd Ho Hdone.
  (* the pool *)
  unfold dispatch in Hfs, Hres.
  destruct (Z.leb (concurrency args) 0); [discriminate Hres|].
  set (f := fun item => process_item w item _ _ _ _ _ _ _) in *.
  assert (as_completed sched (map f items) ≡ₚ map f items) as Hperm
    by (apply as_completed_Permutation; by rewrite length_map).
  set (completed := as_completed sched (map f items)) in *.
  destruct (collect args completed [] fs) as [fs1 res] eqn:Hc.
  simpl in Hfs, Hres. subst fs1.
  destruct res as [rs'|]; [|discriminate Hres].
  injection Hres as ->.
  (* every task returned a well-formed, non-empty record *)
  assert (wf data = true) as Hwd.
  { inv_bind Hdata. apply load_data_wf in Hx.
    unfold cap_sample in Hdata. destruct (sample_num args);
      [by eapply py_slice_to_wf | congruence]. }
  pose proof (py_iter_wf _ _ Hitems Hwd) as Hwi.
  assert (Forall (fun c => forall r, c = Ok r -> wf r = true /\ truthy r = true)
            completed) as Hall.
  { rewrite Hperm. apply Forall_map, Forall_forall. intros item Hin r Hr.
    apply forallb_Forall_wf in Hwi. rewrite Forall_forall in Hwi.
    unfold f in Hr. split.
    - eapply process_item_wf; [exact Hwfw | apply Hwi; exact Hin | exact Hr].
    - eapply process_item_truthy; exact Hr. }
  (* what the store holds afterwards *)
  assert (exists rs, completed = map Ok rs /\ results = rs
                     /\ store_holds args fs' rs)
    as (rs & Hcomp & -> & Hstore).
  { unfold store_holds. destruct (is_json_output args) eqn:Hj.
    - destruct (collect_json args completed Hj [] fs fs' results []
                  (read_existing_initial _ _ Hinit) eq_refl Hall Hc)
        as (rs & Hcomp & -> & Hre & Hwf & _ & _).
      exists rs. split; [assumption|]. split; [reflexivity|].
      split; assumption.
    - destruct (collect_jsonl args completed Hj [] fs)
        as (written & Hw & _ & Hrs).
      rewrite Hc in Hw, Hrs. simpl in Hw, Hrs.
      destruct (Hrs _ eq_refl) as (rs & Hcomp & -> & ->).
      assert (filter (fun r => truthy r = true) rs = rs) as Hf.
      { apply filter_id. rewrite Hcomp in Hall.
        apply Forall_map in Hall. eapply Forall_impl; [exact Hall|].
        intros r Hr. by apply Hr. }
      rewrite Hf in *. exists rs. split; [assumption|].
      split; [reflexivity|]. split.
      + rewrite wf_list. apply forallb_Forall_wf. rewrite Hcomp in Hall.
        apply Forall_map in Hall. eapply Forall_impl; [exact Hall|].
        intros r Hr. by apply Hr.
      + rewrite Hw. by destruct Hinit as [-> | ->]. }
  (* one record per item *)
  rewrite Hcomp in Hperm. symmetry in Hperm.
  apply Permutation_map_inv in Hperm as (rs0 & Hmap & Hrs0).
  apply map_Ok_Forall2 in Hmap.
  split.
  { rewrite (Forall2_length _ _ _ Hmap).
    first [by apply Permutation_length
          | symmetry; by apply Permutation_length]. }
  split; [exact Hstore|].
  (* the questions *)
  intros Hown Hplain iqs Hiqs.
  assert (questions rs0 = Ok iqs) as Hq0.
  { refine (questions_Forall2 _ _ items rs0 iqs _ Hplain Hmap Hiqs).
    intros item r (fn & Hfn & Hf) Hr.
    exact (stored_question_plain _ _ _ _ _ _ _ _ _ _ Hown Hfn Hf Hr). }
  symmetry in Hrs0.
  destruct (questions_Permutation _ _ _ Hrs0 Hq0) as (qs & Hqs & Hpq).
  exists qs. split; [assumption|]. split; [by symmetry|].
  by rewrite Hpq.
Qed.

End Run.

(* ===================================================================== *)
(** ** The claims on concrete runs *)
(* ===================================================================== *)

Import Examples.

Lemma w_ok_outputs_wf : outputs_wf w_ok.
Proof. intros agent q out [= <-]. reflexivity. Qed.

Lemma w_ok_no_own_question agent q out :
  search_agent_call w_ok agent q = Ok out -> dict_get out "question" = None.
Proof. intros [= <-]. reflexivity. Qed.

(** C1 on an item with an attachment whose processing call raises. *)
Lemma C1_witness :
  run_item w_call_fails q1_png
  = Ok (failed_record w_call_fails (VStr q1_png_question) (VStr "A1") boom).
Proof.
  exact (proj1 (C1_processing_failure_is_recorded w_call_fails q1_png
                  tt 7 "default" 6 tt tt tt tt "Q1" (VStr "A1")
                  (VStr q1_png_question) boom
                  eq_refl eq_refl eq_refl eq_refl eq_refl eq_refl)).
Defined.

(** C1 as stated fails: the inspection tool raises while the attachment is
    described, in step 2.  No record is made of it: the exception leaves
    [process_item], [future.result()] re-raises it, and [main] ends with
    it before the record of the second item is written. *)
Lemma C1_counterexample :
  run_item w_describe_fails q1_png = Raise boom
  /\ main w_describe_fails args_jsonl [0%nat; 1%nat] (input_fs [q1_png; q2])
     = (input_fs [q1_png; q2], Raise boom).
Proof. split; vm_compute; reflexivity. Qed.

(** C2 on a store that already holds the record of the only item. *)
Lemma C2_witness : fst (main w_ok args_jsonl [0%nat] fs_q1_done) = fs_q1_done.
Proof.
  refine (proj1 (proj2 (C2_resume_idempotence w_ok args_jsonl [0%nat]
                          fs_q1_done (VList [q1]) [q1]
                          (VList [ok_record "Q1" "A1"])
                          [ok_record "Q1" "A1"] _ eq_refl _ eq_refl _))).
  - vm_compute. reflexivity.
  - vm_compute. reflexivity.
  - constructor; [|constructor].
    exists (ok_record "Q1" "A1"), (VStr "Q1").
    split; [left|]. split; [reflexivity|]. split; reflexivity.
Defined.

(** C3 on two distinct items and an array-encoded store, the second task
    finishing first. *)
Lemma C3_witness :
  length results_q2_q1 = length [q1; q2]
  /\ store_holds args_json
       (fst (main w_ok args_json [1%nat; 0%nat] (input_fs [q1; q2])))
       results_q2_q1
  /\ exists qs,
       questions results_q2_q1 = Ok qs
       /\ qs ≡ₚ [VStr "Q1"; VStr "Q2"]
       /\ (NoDup qs <-> NoDup [VStr "Q1"; VStr "Q2"]).
Proof.
  destruct (C3_one_record_per_item w_ok args_json [1%nat; 0%nat]
              (input_fs [q1; q2])
              (fst (main w_ok args_json [1%nat; 0%nat] (input_fs [q1; q2])))
              results_q2_q1 (VList [q1; q2]) [q1; q2] w_ok_outputs_wf)
    as (Hlen & Hstore & Hq).
  - reflexivity.
  - left. vm_compute. reflexivity.
  - vm_compute. reflexivity.
  - reflexivity.
  - apply perm_swap.
  - vm_compute. reflexivity.
  - split; [exact Hlen|]. split; [exact Hstore|].
    apply (Hq w_ok_no_own_question).
    + repeat constructor; exists VNone; split; reflexivity.
    + reflexivity.
Defined.

(** C3 as stated fails in three ways.  Two input items with one question:
    nothing is deduplicated before dispatch, the run completes and the
    store holds two records with the same question.  An item with an
    attachment: the question of its record is the question followed by the
    banner and the description, which is the question of no input item.  A
    worker whose structured output has a [question] field: that field is
    the question of the record. *)
Lemma C3_counterexample :
  (input_fs [q1; q1] !! outfile args_jsonl = None
   /\ snd (main w_ok args_jsonl [0%nat; 1%nat] (input_fs [q1; q1]))
      = Ok (Some [ok_record "Q1" "A1"; ok_record "Q1" "A1"])
   /\ store_holds args_jsonl
        (fst (main w_ok args_jsonl [0%nat; 1%nat] (input_fs [q1; q1])))
        [ok_record "Q1" "A1"; ok_record "Q1" "A1"]
   /\ questions [ok_record "Q1" "A1"; ok_record "Q1" "A1"]
      = Ok [VStr "Q1"; VStr "Q1"]
   /\ ~ NoDup [VStr "Q1"; VStr "Q1"])
  /\ (questions [q1_png] = Ok [VStr "Q1"]
      /\ exists r,
           snd (main w_ok args_jsonl [0%nat] (input_fs [q1_png]))
           = Ok (Some [r])
           /\ store_holds args_jsonl
                (fst (main w_ok args_jsonl [0%nat] (input_fs [q1_png]))) [r]
           /\ questions [r] = Ok [VStr q1_png_question]
           /\ VStr q1_png_question <> VStr "Q1")
  /\ (questions [q1] = Ok [VStr "Q1"]
      /\ exists r,
           snd (main w_own_question args_jsonl [0%nat] (input_fs [q1]))
           = Ok (Some [r])
           /\ store_holds args_jsonl
                (fst (main w_own_question args_jsonl [0%nat] (input_fs [q1])))
                [r]
           /\ questions [r] = Ok [VStr "rephrased"]
           /\ VStr "rephrased" <> VStr "Q1").
Proof.
  split; [|split].
  - split; [reflexivity|]. split; [vm_compute; reflexivity|].
    split; [split; vm_compute; reflexivity|].
    split; [reflexivity|].
    intros H. apply NoDup_cons in H as [H _]. apply H. left.
  - split; [reflexivity|]. eexists.
    split; [vm_compute; reflexivity|].
    split; [split; vm_compute; reflexivity|].
    split; [vm_compute; reflexivity | discriminate].
  - split; [reflexivity|]. eexists.
    split; [vm_compute; reflexivity|].
    split; [split; vm_compute; reflexivity|].
    split; [vm_compute; reflexivity | discriminate].
Qed.

(** C4 on a successful call. *)
Lemma C4_witness :
  exists d,
    run_item w_ok q1 = Ok (VDict d)
    /\ dict_get d "status" = Some (VStr "success")
    /\ dict_get d "result" = Some (VStr "ok").
Proof.
  destruct (C4_result_record_fields w_ok q1 tt 7 "default" 6 tt tt tt
              (ok_record "Q1" "A1") eq_refl)
    as (d & agent & q0 & q & g & Hd & _).
  exists d. split; [by rewrite <- Hd|].
  injection Hd as <-. split; reflexivity.
Defined.

(** C4 as stated fails: the worker's output has a [status] field, which is
    unpacked after the engine's and replaces it. *)
Lemma C4_counterexample :
  exists d,
    run_item w_own_status q1 = Ok (VDict d)
    /\ dict_get d "status" = Some (VStr "partial")
    /\ VStr "partial" <> VStr "success"
    /\ VStr "partial" <> VStr "failed".
Proof.
  eexists. split; [vm_compute; reflexivity|].
  split; [reflexivity|]. split; discriminate.
Qed.


(** C6 on a store holding the failed record of the first item. *)
Lemma C6_witness :
  exists items recs,
    py_iter (VList [q1; q2]) = Ok items
    /\ py_iter (VList [failed_q1]) = Ok recs
    /\ [q2] = filter (fun it => is_pending {[HStr "Q1"]} it = true) items.
Proof.
  destruct (C6_pending_iff_question_absent (VList [q1; q2])
              (VList [failed_q1]) {[HStr "Q1"]} [q2])
    as (items & recs & Hi & Hr & Hp & _).
  - vm_compute. reflexivity.
  - vm_compute. reflexivity.
  - exists items, recs. auto.
Defined.

(** C7 on a missing store. *)
Lemma C7_witness :
  load_out_data args_jsonl (input_fs [q1]) = Ok (VList [])
  /\ data_to_run (VList [q1]) ∅ = Ok [q1].
Proof.
  destruct (C7_failed_load_is_empty_prior_output args_jsonl (input_fs [q1]))
    as (_ & _ & Hmissing & _ & _ & Hall).
  split.
  - apply Hmissing. vm_compute. reflexivity.
  - apply Hall. repeat constructor.
Defined.

(** C8 on a store that already holds a line. *)
Lemma C8_witness :
  safe_write args_jsonl (ok_record "Q2" "A2") fs_store_q1
  = Ok (<["out.jsonl" :=
            line (ok_record "Q1" "A1") ++ line (ok_record "Q2" "A2")]>
          fs_store_q1).
Proof.
  rewrite (proj1 (C8_line_store_is_append_only w_ok args_jsonl eq_refl)
             (ok_record "Q2" "A2") fs_store_q1).
  reflexivity.
Defined.

(** C9 on an item with a picture attached. *)
Lemma C9_witness :
  exists d,
    run_item w_ok q1_png = Ok (VDict d)
    /\ dict_get d "question" = Some (VStr q1_png_question).
Proof.
  destruct (C9_stored_question w_ok q1_png tt 7 "default" 6 tt tt tt
              (ok_record q1_png_question "A1")
              w_ok_no_own_question eq_refl)
    as (d & q0 & fn & Hd & _).
  exists d. split; [by rewrite <- Hd|].
  injection Hd as <-. reflexivity.
Defined.

(** C9 as stated fails: the worker's output has a [question] field, which
    replaces the engine's in the record of an item without attachment. *)
Lemma C9_counterexample :
  exists d,
    run_item w_own_question q1 = Ok (VDict d)
    /\ py_get q1 "file_name" = Ok VNone
    /\ py_get q1 "question" = Ok (VStr "Q1")
    /\ dict_get d "question" = Some (VStr "rephrased")
    /\ VStr "rephrased" <> VStr "Q1".
Proof.
  eexists. split; [vm_compute; reflexivity|].
  repeat (split; [reflexivity|]). discriminate.
Qed.

(** C10 on an item without [answer]. *)
Lemma C10_witness :
  exists e,
    run_item w_ok (VDict [("question", VStr "Q1")]) = Raise e
    /\ exc_cls e = KeyError
    /\ exc_str e = "'answer'".
Proof.
  destruct (C10_missing_key_escapes w_ok [("question", VStr "Q1")]
              tt 7 "default" 6 tt tt tt (or_intror eq_refl))
    as (e & He & Hk & _).
  exists e. split; [exact He|]. exact (Hk tt eq_refl).
Defined.

(* ===================================================================== *)
(** ** More on whole runs *)
(* ===================================================================== *)

Section StoreGrowth.

Context {Model Tool Agent : Type}.
Variable w : World Model Tool Agent.
Variable args : Args.

Lemma store_holds_initial fs :
  fs !! outfile args = None \/ fs !! outfile args = Some [] ->
  store_holds args fs [].
Proof.
  intros H. split; [reflexivity|]. destruct (is_json_output args).
  - by apply read_existing_initial.
  - by destruct H as [-> | ->].
Qed.

(** On a store that holds records, [safe_write] succeeds and the store
    holds one more. *)
Lemma safe_write_store r fs old :
  store_holds args fs old -> wf r = true ->
  exists fs1, safe_write args r fs = Ok fs1
              /\ store_holds args fs1 (old ++ [r]).
Proof.
  intros [Hwf H] Hr.
  assert (wf (VList (old ++ [r])) = true) as Hwf1.
  { rewrite wf_list in *. apply forallb_app_true; [assumption|].
    simpl. by rewrite Hr. }
  unfold store_holds. destruct (is_json_output args) eqn:Hj.
  - rewrite (safe_write_json args r fs old Hj H). eexists.
    split; [reflexivity|]. split; [assumption|].
    unfold read_existing, open_read. rewrite lookup_insert_eq.
    change (match loads (dump true (VList (old ++ [r]))) with
            | Ok v => Ok v
            | Raise e =>
                match exc_cls e with
                | FileNotFoundError | JSONDecodeError => Ok (VList [])
                | _ => Raise e
                end
            end = Ok (VList (old ++ [r]))).
    by rewrite loads_dump.
  - rewrite (safe_write_jsonl args r fs Hj). eexists.
    split; [reflexivity|]. split; [assumption|].
    rewrite lookup_insert_eq. simpl. rewrite H, map_app, concat_app.
    simpl. by rewrite app_nil_r.
Qed.

(** The collection loop on a store that holds records: it writes the
    records of the futures up to the first one that raised, and stops
    there. *)
Lemma collect_store completed :
  forall results fs old,
    store_holds args fs old ->
    Forall sound_future completed ->
    exists written rest,
      completed = map Ok written ++ rest
      /\ store_holds args (fst (collect args completed results fs))
           (old ++ written)
      /\ ((rest = []
           /\ snd (collect args completed results fs) = Ok (results ++ written))
          \/ (exists e rest', rest = Raise e :: rest'
                /\ snd (collect args completed results fs) = Raise e)).
Proof.
  induction completed as [|[r|e] rest IH]; intros results fs old Hs Hall.
  - exists [], []. simpl. rewrite !app_nil_r. auto.
  - apply Forall_cons in Hall as [Hr Hall].
    destruct (Hr r eq_refl) as [Hwr Htr].
    destruct (safe_write_store r fs old Hs Hwr) as (fs1 & Hw & Hs1).
    rewrite collect_Ok by assumption. rewrite Hw.
    destruct (IH (results ++ [r]) fs1 _ Hs1 Hall)
      as (written & rest' & -> & Hst & Hres).
    exists (r :: written), rest'. rewrite <- !app_assoc in *. simpl in *.
    auto.
  - exists [], (Raise e :: rest). simpl. rewrite app_nil_r.
    split; [reflexivity|]. split; [assumption|]. right. eauto.
Qed.

Lemma as_completed_elem {A} sched (l : list A) x :
  x ∈ as_completed sched l -> x ∈ l.
Proof.
  unfold as_completed. intros H. apply list_elem_of_omap in H as (i & _ & Hi).
  apply list_elem_of_lookup. eauto.
Qed.

Lemma prepare_pending_wf key fs p :
  prepare w args key fs = Ok p -> Forall (fun it => wf it = true) (p_pending p).
Proof.
  intros Hp. destruct (prepare_Ok _ _ _ _ _ Hp) as (out & Hd & _ & _ & Hrun).
  destruct (data_to_run_Ok _ _ _ Hrun) as (items & Hi & -> & _).
  inv_bind Hd. apply load_data_wf in Hx.
  assert (wf (p_data p) = true) as Hwd.
  { unfold cap_sample in Hd. destruct (sample_num args);
      [by eapply py_slice_to_wf | congruence]. }
  pose proof (py_iter_wf _ _ Hi Hwd) as Hwi.
  apply forallb_Forall_wf in Hwi. rewrite Forall_forall in *.
  intros it Hit. apply list_elem_of_filter in Hit as [_ Hit]. auto.
Qed.

(** The futures of the pool hold sound records. *)
Lemma futures_sound model si pt ms vis txt aud pending :
  outputs_wf w -> Forall (fun it => wf it = true) pending ->
  Forall sound_future
    (map (fun it => process_item w it model si pt ms vis txt aud) pending).
Proof.
  intros Hw Hp. apply Forall_map. eapply Forall_impl; [exact Hp|].
  intros it Hit r Hr. split.
  - exact (process_item_wf w _ _ _ _ _ _ _ _ _ Hw Hit Hr).
  - exact (process_item_truthy w _ _ _ _ _ _ _ _ _ Hr).
Qed.

(** A run that completed went through the pool. *)
Lemma main_complete_inv sched fs fs' results :
  main w args sched fs = (fs', Ok (Some results)) ->
  exists key p,
    env_OPENAI_API_KEY w = Some key
    /\ api_key_unusable (Some key) = false
    /\ prepare w args key fs = Ok p
    /\ Z.leb (concurrency args) 0 = false
    /\ collect args
         (as_completed sched
            (map (fun it =>
                    process_item w it (p_model p)
                      (randint w (summary_interval args - 1)
                         (summary_interval args + 1))
                      (prompts_type args) (max_steps args)
                      (p_visual p) (p_text p) (p_audio p)) (p_pending p)))
         [] fs = (fs', Ok results).
Proof.
  unfold main. destruct (env_OPENAI_API_KEY w) as [key|]; [|discriminate].
  destruct (api_key_unusable (Some key)) eqn:Eu; [discriminate|].
  destruct (prepare w args key fs) as [p|e] eqn:Ep; [|discriminate].
  unfold dispatch. destruct (Z.leb (concurrency args) 0); [discriminate|].
  intros H. exists key, p. repeat (split; [reflexivity|]).
  match goal with
  | H : context [collect args ?c [] fs] |- _ =>
      destruct (collect args c [] fs) as [fs1 [rs|e]]
  end; by simplify_eq.
Qed.

Lemma as_completed_sound sched key fs p :
  outputs_wf w -> prepare w args key fs = Ok p ->
  Forall sound_future (as_completed sched (futures_of w args p)).
Proof.
  intros Hw Hp.
  pose proof (futures_sound (p_model p)
                (randint w (summary_interval args - 1)
                   (summary_interval args + 1))
                (prompts_type args) (max_steps args)
                (p_visual p) (p_text p) (p_audio p) (p_pending p) Hw
                (prepare_pending_wf key fs p Hp)) as Hall.
  fold (futures_of w args p) in Hall. rewrite Forall_forall in Hall.
  apply Forall_forall. intros c Hc. apply Hall.
  by apply as_completed_elem in Hc.
Qed.

(** X1.  Records are only ever added.  On a store that holds the records
    [old] (as the sink reads an array-encoded store, or as the lines the
    engine wrote), a run of [main], however it ends, leaves a store that
    holds [old] followed by the records written during the run, in the
    order written.  A run that returns has written exactly the results it
    collected. *)
Theorem X1_store_only_grows sched fs old :
  outputs_wf w ->
  store_holds args fs old ->
  exists written,
    store_holds args (fst (main w args sched fs)) (old ++ written)
    /\ forall results,
         snd (main w args sched fs) = Ok (Some results) -> results = written.
Proof.
  intros Hw Hs.
  destruct (main_cases w args sched fs) as [E|[[e E]|(key & p & Hp & E)]];
    rewrite E; clear E.
  - exists []. rewrite app_nil_r. split; [exact Hs | discriminate].
  - exists []. rewrite app_nil_r. split; [exact Hs | discriminate].
  - unfold dispatch. destruct (Z.leb (concurrency args) 0).
    { exists []. rewrite app_nil_r. split; [exact Hs | discriminate]. }
    fold (futures_of w args p).
    destruct (collect_store (as_completed sched (futures_of w args p)) [] fs
                old Hs (as_completed_sound sched key fs p Hw Hp))
      as (written & rest & _ & Hst & Hcase).
    exists written. split; [exact Hst|]. simpl. intros results Hr.
    destruct Hcase as [[_ Hok]|(e & rest' & _ & Hraise)].
    + rewrite Hok in Hr. by simplify_eq.
    + rewrite Hraise in Hr. discriminate.
Qed.

(** X2.  One record per pending item.  When a run completes and every
    task came out of [as_completed] once, the results are, up to the order
    of completion, the records that [process_item] returned for the
    pending items, one for each: duplicates in the input and items with
    attachments included.  The store then holds, as the sink reads it, the
    prior records followed by these results. *)
Theorem X2_one_record_per_pending_item sched fs fs' results key p old :
  outputs_wf w ->
  store_holds args fs old ->
  env_OPENAI_API_KEY w = Some key ->
  prepare w args key fs = Ok p ->
  sched ≡ₚ seq 0 (length (p_pending p)) ->
  main w args sched fs = (fs', Ok (Some results)) ->
  exists recs,
    futures_of w args p = map Ok recs
    /\ results ≡ₚ recs
    /\ length results = length (p_pending p)
    /\ store_holds args fs' (old ++ results).
Proof.
  intros Hw Hs Hkey Hp Hsched Hmain.
  destruct (main_complete_inv sched fs fs' results Hmain)
    as (key' & p' & Hkey' & _ & Hp' & _ & Hc).
  rewrite Hkey in Hkey'. injection Hkey' as <-.
  rewrite Hp in Hp'. injection Hp' as <-. fold (futures_of w args p) in Hc.
  assert (as_completed sched (futures_of w args p) ≡ₚ futures_of w args p) as Hperm.
  { apply as_completed_Permutation. unfold futures_of.
    by rewrite length_map. }
  destruct (collect_store (as_completed sched (futures_of w args p)) [] fs old Hs
              (as_completed_sound sched key fs p Hw Hp))
    as (written & rest & Hcomp & Hst & Hcase).
  rewrite Hc in Hst, Hcase. simpl in Hst, Hcase.
  destruct Hcase as [[-> Hok]|(e & rest' & _ & Hraise)]; [|discriminate].
  injection Hok as Hok. simpl in Hok. subst written.
  rewrite app_nil_r in Hcomp.
  rewrite Hcomp in Hperm. symmetry in Hperm.
  apply Permutation_map_inv in Hperm as (recs & Hrecs & Hpr).
  exists recs. split; [exact Hrecs|]. split; [exact Hpr|]. split.
  - rewrite (Permutation_length Hpr).
    apply (f_equal (@length _)) in Hrecs. unfold futures_of in Hrecs.
    rewrite !length_map in Hrecs. congruence.
  - exact Hst.
Qed.

End StoreGrowth.

Section RunEdges.

Context {Model Tool Agent : Type}.
Variable w : World Model Tool Agent.
Variable args : Args.

Lemma safe_write_frame r fs fs1 :
  safe_write args r fs = Ok fs1 ->
  (forall p, p <> outfile args -> p <> temp_file args -> fs1 !! p = fs !! p)
  /\ (fs1 !! temp_file args = fs !! temp_file args
      \/ fs1 !! temp_file args = None).
Proof.
  destruct (is_json_output args) eqn:Hj; intros H.
  - destruct (safe_write_json_inv args r fs fs1 Hj H) as [old Hold].
    rewrite (safe_write_json args r fs old Hj Hold) in H. simplify_eq.
    split.
    + intros p Hp Ht. rewrite lookup_insert_ne by congruence.
      rewrite lookup_delete_ne by congruence.
      by rewrite lookup_insert_ne by congruence.
    + right. rewrite lookup_insert_ne
        by (intros E; symmetry in E; by apply temp_file_ne in E).
      apply lookup_delete_eq.
  - rewrite (safe_write_jsonl args r fs Hj) in H. simplify_eq. split.
    + intros p Hp _. by rewrite lookup_insert_ne by congruence.
    + left. rewrite lookup_insert_ne; [reflexivity|].
      intros E. symmetry in E. by apply temp_file_ne in E.
Qed.

Lemma collect_frame completed :
  forall results fs,
    (forall p, p <> outfile args -> p <> temp_file args ->
       fst (collect args completed results fs) !! p = fs !! p)
    /\ (fst (collect args completed results fs) !! temp_file args
        = fs !! temp_file args
        \/ fst (collect args completed results fs) !! temp_file args = None).
Proof.
  induction completed as [|[r|e] rest IH]; intros results fs; simpl.
  - auto.
  - destruct (truthy r); [|apply IH].
    destruct (safe_write args r fs) as [fs1|e] eqn:Hw; [|simpl; auto].
    destruct (safe_write_frame r fs fs1 Hw) as [Hf Ht].
    destruct (IH (results ++ [r]) fs1) as [Hf' Ht']. split.
    + intros p Hp Hp'. rewrite Hf' by assumption. by apply Hf.
    + destruct Ht' as [Ht'|Ht']; [|by right].
      rewrite Ht'. exact Ht.
  - auto.
Qed.

(** X6.  [main] writes to two paths only.  Whatever the run does and
    however it ends, every file other than the output store and its
    [.tmp] sibling is left as it was, the input file among them.  When
    [main] returns, the temporary file is as it was, no record having been
    written to an array-encoded store, or it is gone. *)
Theorem X6_main_touches_only_the_store sched fs :
  (forall p, p <> outfile args -> p <> temp_file args ->
     fst (main w args sched fs) !! p = fs !! p)
  /\ (infile args <> outfile args -> infile args <> temp_file args ->
        load_data args (fst (main w args sched fs)) = load_data args fs)
  /\ (forall returned,
        snd (main w args sched fs) = Ok returned ->
        fst (main w args sched fs) !! temp_file args = fs !! temp_file args
        \/ fst (main w args sched fs) !! temp_file args = None).
Proof.
  assert ((forall p, p <> outfile args -> p <> temp_file args ->
             fst (main w args sched fs) !! p = fs !! p)
          /\ (fst (main w args sched fs) !! temp_file args
              = fs !! temp_file args
              \/ fst (main w args sched fs) !! temp_file args = None))
    as [Hframe Htmp].
  { destruct (main_cases w args sched fs) as [E|[[e E]|(key & p & Hp & E)]];
      rewrite E; clear E; simpl; [auto | auto |].
    unfold dispatch. destruct (Z.leb (concurrency args) 0); [simpl; auto|].
    apply collect_frame. }
  split; [exact Hframe|]. split; [|intros returned _; exact Htmp].
  intros Ho Ht. unfold load_data, read_jsonl, open_read.
  by rewrite (Hframe _ Ho Ht).
Qed.

(** X7.  An array-encoded store that holds anything but a list stops the
    collection at the first record.  When the read of lines 161-165
    returns a JSON value that is not a list (an object, a text, a number,
    ...), [safe_write] raises [AttributeError] at [existing_data.append],
    before the temporary file is opened; the loop of lines 198-202 ends
    there with that exception and the file system as it was, so the
    records of the tasks that complete later are not written. *)
Theorem X7_array_append_fails_on_non_list r v fs :
  is_json_output args = true ->
  read_existing args fs = Ok v ->
  (forall l, v <> VList l) ->
  truthy r = true ->
  exists e,
    safe_write args r fs = Raise e
    /\ exc_cls e = AttributeError
    /\ exc_str e
       = "'" +:+ type_name v +:+ "' object has no attribute 'append'"
    /\ forall rest results,
         collect args (Ok r :: rest) results fs = (fs, Raise e).
Proof.
  intros Hj Hr Hv Ht.
  assert (exists e,
            safe_write args r fs = Raise e
            /\ exc_cls e = AttributeError
            /\ exc_str e
               = "'" +:+ type_name v +:+ "' object has no attribute 'append'")
    as (e & Hw & Hcls & Hstr).
  { unfold safe_write. rewrite Hj, Hr.
    destruct v as [| | | |l|d];
      try (eexists; split; [reflexivity|]; split; reflexivity).
    by destruct (Hv l). }
  exists e. split; [exact Hw|]. split; [exact Hcls|]. split; [exact Hstr|].
  intros rest results. cbn [collect]. by rewrite Ht, Hw.
Qed.

Lemma str_take_length k s : (String.length (str_take k s) <= k)%nat.
Proof.
  revert s. induction k as [|k IH]; intros [|c s]; simpl; try lia.
  specialize (IH s). lia.
Qed.

Lemma str_chars_length s : length (str_chars s) = String.length s.
Proof. induction s as [|c s IH]; simpl; [reflexivity | by rewrite IH]. Qed.

(** After [data[:n]] with [n >= 0] there are at most [n] items. *)
Lemma py_slice_to_bound v n v' items :
  py_slice_to v n = Ok v' -> 0 <= n -> py_iter v' = Ok items ->
  (length items <= Z.to_nat n)%nat.
Proof.
  intros Hs Hn Hi. unfold slice_stop in *.
  destruct v as [| | | s|l|d]; try discriminate; simpl in Hs;
    unfold slice_stop in Hs;
    (destruct (Z.ltb n 0) eqn:E; [apply Z.ltb_lt in E; lia|]);
    simplify_eq; simpl in Hi; simplify_eq.
  - rewrite str_chars_length.
    etrans; [apply str_take_length|]. lia.
  - rewrite length_take. lia.
Qed.

Lemma as_completed_in_range {A} sched (l : list A) :
  length (as_completed sched l)
  = length (filter (fun i => (i < length l)%nat) sched).
Proof.
  unfold as_completed. induction sched as [|i sched IH]; [reflexivity|].
  simpl. destruct (l !! i) eqn:E.
  - rewrite filter_cons_True by (by eapply lookup_lt_Some).
    simpl. f_equal. exact IH.
  - rewrite filter_cons_False by (apply lookup_ge_None in E; lia). exact IH.
Qed.

(** Futures that completed once each are no more than the futures. *)
Lemma as_completed_length {A} sched (l : list A) :
  NoDup sched -> (length (as_completed sched l) <= length l)%nat.
Proof.
  intros Hnd. rewrite as_completed_in_range.
  rewrite <- (length_seq (length l) 0). apply submseteq_length.
  apply NoDup_submseteq; [by apply NoDup_filter|].
  intros i Hi. apply list_elem_of_filter in Hi as [Hi _].
  rewrite ?length_seq in Hi. apply elem_of_seq. lia.
Qed.

Lemma collect_length completed :
  forall results fs fs' rs,
    collect args completed results fs = (fs', Ok rs) ->
    (length rs <= length results + length completed)%nat.
Proof.
  induction completed as [|[r|e] rest IH]; intros results fs fs' rs H;
    simpl in H.
  - simplify_eq. simpl. lia.
  - destruct (truthy r).
    + destruct (safe_write args r fs) as [fs1|e]; [|discriminate].
      apply IH in H. rewrite length_app in H. simpl in *. lia.
    + apply IH in H. simpl. lia.
  - discriminate.
Qed.

(** X8.  The sample cap bounds the run.  With [--sample_num n], [n >= 0],
    a run in which no task completes twice collects at most [n] results,
    whatever the input holds. *)
Theorem X8_sample_cap_bounds_results sched fs fs' results n :
  sample_num args = Some n ->
  0 <= n ->
  NoDup sched ->
  main w args sched fs = (fs', Ok (Some results)) ->
  Z.of_nat (length results) <= n.
Proof.
  intros Hn Hpos Hnd Hmain.
  destruct (main_complete_inv w args sched fs fs' results Hmain)
    as (key & p & _ & _ & Hp & _ & Hc).
  destruct (prepare_Ok _ _ _ _ _ Hp) as (out & Hd & _ & _ & Hrun).
  destruct (data_to_run_Ok _ _ _ Hrun) as (items & Hi & Hpend & _).
  inv_bind Hd. unfold cap_sample in Hd. rewrite Hn in Hd.
  pose proof (py_slice_to_bound _ _ _ _ Hd Hpos Hi) as Hitems.
  apply collect_length in Hc. simpl in Hc.
  pose proof (as_completed_length sched
                (map (fun it =>
                        process_item w it (p_model p)
                          (randint w (summary_interval args - 1)
                             (summary_interval args + 1))
                          (prompts_type args) (max_steps args)
                          (p_visual p) (p_text p) (p_audio p))
                   (p_pending p)) Hnd) as Hlen.
  rewrite length_map in Hlen.
  assert (length (p_pending p) <= length items)%nat
    by (rewrite Hpend; apply length_filter).
  lia.
Qed.

Lemma done_questions_keys recs done rec :
  done_questions (VList recs) = Ok done -> rec ∈ recs ->
  exists k, question_key rec = Ok k /\ k ∈ done.
Proof.
  unfold done_questions. simpl. intros H Hrec. inv_bind H.
  apply mapM_Ok_Forall2 in Hx.
  apply list_elem_of_lookup in Hrec as [i Hi].
  destruct (Forall2_lookup_l _ _ _ _ _ Hx Hi) as (q & Hq & Hget).
  assert (q ∈ x) as Hin by (apply list_elem_of_lookup; eauto).
  destruct (py_set_hashable _ _ _ H Hin) as (k & Hk & Hkd).
  exists k. split; [|assumption]. unfold question_key. by rewrite Hget.
Qed.

(** X9.  One unusable prior record stops the run before any dispatch.
    When the prior output loads as a list in which some record has no
    [get] method (is not an object) or has an unhashable [question] (a
    list or an object), [main] never reaches the pool: it leaves the file
    system as it was and does not return results. *)
Theorem X9_unusable_prior_record_stops_the_run sched fs recs rec e :
  load_out_data args fs = Ok (VList recs) ->
  rec ∈ recs ->
  question_key rec = Raise e ->
  fst (main w args sched fs) = fs
  /\ (forall results, snd (main w args sched fs) <> Ok (Some results))
  /\ (forall key p, prepare w args key fs <> Ok p).
Proof.
  intros Hload Hrec Hkey.
  assert (forall key p, prepare w args key fs <> Ok p) as Hnever.
  { intros key p Hp.
    destruct (prepare_Ok _ _ _ _ _ Hp) as (out & _ & Ho & Hdone & _).
    rewrite Hload in Ho. injection Ho as <-.
    destruct (done_questions_keys _ _ _ Hdone Hrec) as (k & Hk & _).
    congruence. }
  destruct (main_cases w args sched fs) as [E|[[e' E]|(key & p & Hp & E)]].
  - rewrite E. split; [reflexivity|]. split; [discriminate | exact Hnever].
  - rewrite E. split; [reflexivity|]. split; [discriminate | exact Hnever].
  - by apply Hnever in Hp.
Qed.

End RunEdges.

Section Resume.

Context {Model Tool Agent : Type}.
Variables w1 w2 : World Model Tool Agent.
Variable args : Args.

Lemma load_data_frame fs fs' :
  fs' !! infile args = fs !! infile args ->
  load_data args fs' = load_data args fs.
Proof. intros H. unfold load_data, read_jsonl, open_read. by rewrite H. Qed.

Lemma not_pending_in_done done item q k :
  py_get item "question" = Ok q -> py_hash q = Ok k ->
  is_pending done item = false -> k ∈ done.
Proof.
  intros Hq Hk Hp. destruct (decide (k ∈ done)) as [|Hn]; [assumption|].
  assert (is_pending done item = true) as Ht
    by (apply is_pending_spec; eauto).
  congruence.
Qed.

(** X4.  A completed run leaves nothing pending.  Take a store that holds
    the records [old], which is also what the ledger of line 142 loads
    from it, an input distinct from the store, items without attachment
    and a worker without a [question] field of its own.  After a run that
    completes, having let every task finish once, the store holds [old]
    followed by the results, and the completion set of these records
    leaves no item of the input pending.  So a second run against the same
    input and output whose ledger loads the store as the sink holds it
    dispatches nothing and leaves the file system as it found it, whatever
    its own collaborators would answer: the items whose processing call
    failed in the first run are not retried. *)
Theorem X4_completed_run_leaves_nothing_pending
    sched1 sched2 fs fs1 results old done data items :
  outputs_wf w1 ->
  (forall agent q out,
     search_agent_call w1 agent q = Ok out -> dict_get out "question" = None) ->
  store_holds args fs old ->
  load_out_data args fs = Ok (VList old) ->
  infile args <> outfile args ->
  infile args <> temp_file args ->
  (load_data args fs ≫= cap_sample args) = Ok data ->
  py_iter data = Ok items ->
  Forall (fun item =>
            exists fn, py_get item "file_name" = Ok fn /\ truthy fn = false)
    items ->
  done_questions (VList old) = Ok done ->
  sched1 ≡ₚ seq 0 (length (filter (fun it => is_pending done it = true) items)) ->
  main w1 args sched1 fs = (fs1, Ok (Some results)) ->
  store_holds args fs1 (old ++ results)
  /\ (forall done',
        done_questions (VList (old ++ results)) = Ok done' ->
        data_to_run data done' = Ok [])
  /\ (load_out_data args fs1 = Ok (VList (old ++ results)) ->
      fst (main w2 args sched2 fs1) = fs1
      /\ forall rs, snd (main w2 args sched2 fs1) = Ok (Some rs) -> rs = []).
Proof.
  intros Hw Hown Hs Hload1 Hio Hit Hdata Hitems Hplain Hdone Hsched Hmain.
  (* the first run *)
  destruct (main_complete_inv w1 args sched1 fs fs1 results Hmain)
    as (key & p & _ & _ & Hp & _ & Hc). fold (futures_of w1 args p) in Hc.
  destruct (prepare_Ok _ _ _ _ _ Hp) as (out & Hd & Ho & Hdn & Hrun).
  rewrite Hdata in Hd. injection Hd as Hpd.
  rewrite Hload1 in Ho. injection Ho as <-.
  rewrite Hdone in Hdn. injection Hdn as Hpdone.
  rewrite <- Hpd, <- Hpdone in Hrun.
  destruct (data_to_run_Ok _ _ _ Hrun) as (items' & Hi' & Hpend & Hall).
  rewrite Hitems in Hi'. injection Hi' as <-.
  destruct (collect_store args (as_completed sched1 (futures_of w1 args p))
              [] fs old Hs (as_completed_sound w1 args sched1 key fs p Hw Hp))
    as (written & rest & Hcomp & Hst & Hcase).
  pose proof (collect_frame args (as_completed sched1 (futures_of w1 args p))
                [] fs) as [Hframe _].
  rewrite Hc in Hst, Hcase, Hframe. simpl in Hst, Hcase, Hframe.
  destruct Hcase as [[-> Hok]|(e & rest' & _ & Hraise)]; [|discriminate].
  injection Hok as Hok. simpl in Hok. subst written.
  rewrite app_nil_r in Hcomp.
  assert (as_completed sched1 (futures_of w1 args p) ≡ₚ futures_of w1 args p)
    as Hperm.
  { apply as_completed_Permutation. unfold futures_of.
    by rewrite length_map, Hpend. }
  rewrite Hcomp in Hperm. symmetry in Hperm.
  apply Permutation_map_inv in Hperm as (recs & Hrecs & Hpr).
  unfold futures_of in Hrecs. apply map_Ok_Forall2 in Hrecs.
  (* every pending item has its record in the store *)
  assert (forall item q,
            item ∈ p_pending p -> py_get item "question" = Ok q ->
            exists r, r ∈ results /\ py_get r "question" = Ok q) as Hrec.
  { intros item q Hin Hq. apply list_elem_of_lookup in Hin as [i Hi].
    destruct (Forall2_lookup_l _ _ _ _ _ Hrecs Hi) as (r & Hr & Hproc).
    assert (item ∈ items) as Hitem.
    { apply list_elem_of_lookup_2 in Hi. rewrite Hpend in Hi.
      by apply list_elem_of_filter in Hi as [_ Hi]. }
    rewrite Forall_forall in Hplain.
    destruct (Hplain _ Hitem) as (fn & Hfn & Hf).
    destruct (stored_question_plain w1 _ _ _ _ _ _ _ _ _ _ Hown Hfn Hf Hproc)
      as (q' & Hq' & Hrq).
    exists r. split; [|congruence].
    rewrite Hpr. by apply list_elem_of_lookup_2 in Hr. }
  (* the completion set of the second run covers every item *)
  assert (forall done',
            done_questions (VList (old ++ results)) = Ok done' ->
            data_to_run data done' = Ok []) as Hnone.
  { intros done' Hd'. unfold data_to_run. rewrite Hitems. simpl.
    apply filterM_all_false. rewrite Forall_forall in Hall |- *.
    intros item Hitem. destruct (Hall _ Hitem) as (q & k & Hq & Hk).
    destruct (done_questions_Ok _ _ Hd') as (recs' & Hr' & Hchar).
    injection Hr' as <-.
    assert (k ∈ done') as Hin.
    { apply Hchar. destruct (is_pending done item) eqn:Ep.
      - assert (item ∈ p_pending p) as Hpi
          by (rewrite Hpend; by apply list_elem_of_filter).
        destruct (Hrec _ _ Hpi Hq) as (r & Hr & Hrq).
        exists r, q. split; [apply elem_of_app; by right | auto].
      - pose proof (not_pending_in_done _ _ _ _ Hq Hk Ep) as Hkd.
        destruct (done_questions_Ok _ _ Hdone) as (recs0 & Hr0 & Hchar0).
        injection Hr0 as <-.
        apply Hchar0 in Hkd as (rec & q0 & Hrec0 & Hq0 & Hk0).
        exists rec, q0. split; [apply elem_of_app; by left | auto]. }
    rewrite Hq. simpl. unfold py_not_in. rewrite Hk. simpl.
    by rewrite bool_decide_eq_false_2 by tauto. }
  (* the second run *)
  assert (load_data args fs1 = load_data args fs) as Hsame
    by (apply load_data_frame; by apply Hframe).
  split; [exact Hst|]. split; [exact Hnone|]. intros Hload2. split.
  - destruct (main_cases w2 args sched2 fs1)
      as [E|[[e E]|(key2 & p2 & Hp2 & E)]]; rewrite E; [reflexivity..|].
    destruct (prepare_Ok _ _ _ _ _ Hp2) as (out2 & Hd2 & Ho2 & Hdn2 & Hrun2).
    rewrite Hsame, Hdata in Hd2. injection Hd2 as Hpd2.
    rewrite Hload2 in Ho2. injection Ho2 as <-.
    rewrite <- Hpd2, (Hnone _ Hdn2) in Hrun2. injection Hrun2 as <-.
    cbn [fst snd]. apply dispatch_nil.
  - intros rs. destruct (main_cases w2 args sched2 fs1)
      as [E|[[e E]|(key2 & p2 & Hp2 & E)]]; rewrite E; try discriminate.
    destruct (prepare_Ok _ _ _ _ _ Hp2) as (out2 & Hd2 & Ho2 & Hdn2 & Hrun2).
    rewrite Hsame, Hdata in Hd2. injection Hd2 as Hpd2.
    rewrite Hload2 in Ho2. injection Ho2 as <-.
    rewrite <- Hpd2, (Hnone _ Hdn2) in Hrun2. injection Hrun2 as <-.
    cbn [fst snd]. intros Hr.
    destruct (dispatch_nil w2 args (p_model p2) (p_visual p2) (p_text p2)
                (p_audio p2) sched2 fs1) as [_ Hrs].
    destruct (snd (dispatch w2 args (p_model p2) (p_visual p2) (p_text p2)
                     (p_audio p2) sched2 [] fs1)) as [rs'|e];
      [|discriminate].
    injection Hr as <-. by apply Hrs.
Qed.

(** X5.  An attachment defeats the resume.  With a worker whose
    structured output has no [question] field of its own, the record of an
    item with a truthy [file_name] and a text question stores the question
    with the banner and the description appended, so its completion key is
    not the key of the item: against prior output that holds that record
    only, the item is pending again. *)
Theorem X5_attachment_defeats_resume
    item model si pt ms vis txt aud r s fn done :
  (forall agent q out,
     search_agent_call w1 agent q = Ok out -> dict_get out "question" = None) ->
  py_getitem item "question" = Ok (VStr s) ->
  py_get item "file_name" = Ok fn ->
  truthy fn = true ->
  process_item w1 item model si pt ms vis txt aud = Ok r ->
  done_questions (VList [r]) = Ok done ->
  question_key item = Ok (HStr s)
  /\ (exists longer, question_key r = Ok (HStr longer) /\ longer <> s)
  /\ data_to_run (VList [item]) done = Ok [item].
Proof.
  intros Hown Hq Hfn Ht Hproc Hdone.
  assert (py_get item "question" = Ok (VStr s)) as Hget.
  { destruct item as [| | | |?|d]; try discriminate.
    unfold py_getitem in Hq. unfold py_get.
    destruct (dict_get d "question"); by simplify_eq. }
  apply process_item_Ok in Hproc
    as (agent & q0 & g & q & _ & Hq0 & _ & Haug & Hr).
  rewrite Hq in Hq0. injection Hq0 as <-.
  destruct (augment_question_text w1 _ _ _ _ _ _ _ Hq Hfn Ht Haug)
    as (banner & desc & -> & Hcase).
  assert (s +:+ banner +:+ desc <> s) as Hne.
  { apply str_app_ne.
    destruct Hcase as [(_ & -> & _)|(_ & -> & _)]; discriminate. }
  assert (py_get r "question" = Ok (VStr (s +:+ banner +:+ desc))) as Hrq.
  { destruct Hr as [(out & Hout & ->)|(e & _ & _ & ->)]; [|reflexivity].
    unfold success_record, py_get.
    by rewrite dict_update_get_other by (eapply Hown; eassumption). }
  split; [unfold question_key; by rewrite Hget|].
  split; [exists (s +:+ banner +:+ desc); split;
            [unfold question_key; by rewrite Hrq | exact Hne]|].
  unfold done_questions in Hdone. simpl in Hdone. rewrite Hrq in Hdone.
  simpl in Hdone. injection Hdone as <-.
  unfold data_to_run. simpl. rewrite Hget. simpl.
  rewrite bool_decide_eq_true_2; [reflexivity|].
  rewrite not_elem_of_union, not_elem_of_singleton. split; [|set_solver].
  congruence.
Qed.

End Resume.

(* ===================================================================== *)
(** ** The command line entry *)
(* ===================================================================== *)

Section EntryFacts.

Lemma rfind_char_app_Some c x y i :
  rfind_char c x = Some i -> exists k, rfind_char c (x +:+ y) = Some k.
Proof.
  revert i. induction x as [|a x IH]; intros i H; [discriminate|].
  change (exists k, rfind_char c (String a (x +:+ y)) = Some k).
  simpl in *. destruct (rfind_char c x) as [i'|] eqn:E.
  - destruct (IH _ eq_refl) as [k ->]. eauto.
  - destruct (rfind_char c (x +:+ y)); [eauto|].
    destruct (Ascii.eqb a c); [eauto | discriminate].
Qed.

Lemma startswith_slash_rfind s :
  startswith s "/" = true -> exists i, rfind_char "/" s = Some i.
Proof.
  destruct s as [|a s]; [discriminate|]. unfold startswith.
  cbn [String.prefix rfind_char].
  destruct (ascii_dec "/" a) as [<-|]; [|discriminate]. intros _.
  destruct (rfind_char "/" s); eauto.
Qed.

Lemma no_slash_not_abs s :
  rfind_char "/" s = None -> startswith s "/" = false.
Proof.
  intros H. destruct (startswith s "/") eqn:E; [|reflexivity].
  apply startswith_slash_rfind in E as [i E]. congruence.
Qed.

Lemma rfind_char_drop c s :
  rfind_char c
    (str_drop (match rfind_char c s with Some i => S i | None => O end) s)
  = None.
Proof.
  induction s as [|a s IH]; [reflexivity|]. simpl.
  destruct (rfind_char c s) as [i|] eqn:E; [exact IH|].
  destruct (Ascii.eqb a c) eqn:Ea; simpl.
  - destruct s; assumption.
  - by rewrite E, Ea.
Qed.

(** The last component of a path holds no slash. *)
Lemma basename_no_slash p : rfind_char "/" (basename p) = None.
Proof. apply rfind_char_drop. Qed.

Lemma rfind_char_take c n s :
  rfind_char c s = None -> rfind_char c (str_take n s) = None.
Proof.
  revert s. induction n as [|n IH]; intros [|a s] H; try reflexivity.
  simpl in *. destruct (rfind_char c s) eqn:E; [discriminate|].
  rewrite (IH s E). destruct (Ascii.eqb a c); [discriminate|reflexivity].
Qed.

Lemma splitext_root_no_slash p :
  rfind_char "/" p = None -> rfind_char "/" (splitext_root p) = None.
Proof.
  intros H. unfold splitext_root.
  destruct (rfind_char "." p); [|assumption].
  destruct (negb _); [by apply rfind_char_take | assumption].
Qed.

Lemma path_join_results_dir y :
  startswith y "/" = false ->
  path_join results_dir y = "output_for_analysis/mm/" +:+ y.
Proof. intros H. unfold path_join. rewrite H. reflexivity. Qed.

Lemma path_join_mm x :
  startswith x "/" = false -> path_join "mm" x = "mm/" +:+ x.
Proof. intros H. unfold path_join. rewrite H. reflexivity. Qed.

Lemma str_lower_app s t : str_lower (s +:+ t) = str_lower s +:+ str_lower t.
Proof.
  induction s as [|c s IH]; [reflexivity|].
  change (String (ascii_lower c) (str_lower (s +:+ t))
          = String (ascii_lower c) (str_lower s +:+ str_lower t)).
  by rewrite IH.
Qed.

Lemma substring_app_skip u t k m :
  substring (String.length u + k) m (u +:+ t) = substring k m t.
Proof. induction u as [|c u IH]; [reflexivity | exact IH]. Qed.

(** A path ending in [.jsonl] selects the line encoding. *)
Lemma endswith_jsonl s : endswith (str_lower (s +:+ ".jsonl")) ".json" = false.
Proof.
  rewrite str_lower_app. change (str_lower ".jsonl") with ".jsonl".
  unfold endswith. rewrite str_length_app.
  change (String.length ".jsonl") with 6%nat.
  change (String.length ".json") with 5%nat.
  replace (String.length (str_lower s) + 6 - 5)%nat
    with (String.length (str_lower s) + 1)%nat by lia.
  rewrite substring_app_skip.
  destruct (Nat.leb 5 (String.length (str_lower s) + 6)); reflexivity.
Qed.

(** A path that holds a slash and does not begin with one has a
    directory part. *)
Lemma dirname_nonempty c s i :
  c <> "/"%char -> rfind_char "/" (String c s) = Some i ->
  dirname (String c s) <> EmptyString.
Proof.
  intros Hc Hi. unfold dirname, after_last_slash. rewrite Hi.
  change (str_take (S i) (String c s)) with (String c (str_take i s)).
  assert (Ascii.eqb c "/" = false) as Ec by (by apply Ascii.eqb_neq).
  destruct (negb _ && negb _); [|discriminate].
  cbn [rstrip_slashes]. rewrite Ec, andb_false_r. discriminate.
Qed.

(** What line 222 makes of every plain relative path. *)
Lemma resolve_infile_plain x :
  is_plain_relative x = true -> resolve_infile x = "mm/" +:+ x.
Proof.
  intros H. unfold resolve_infile. rewrite H. apply path_join_mm.
  unfold is_plain_relative, isabs in H.
  by destruct (startswith x "/").
Qed.

(** A path placed under the results directory is left there. *)
Lemma resolve_outfile_under_results i y :
  resolve_outfile i ("output_for_analysis/mm/" +:+ y)
  = "output_for_analysis/mm/" +:+ y.
Proof. reflexivity. Qed.

(** X10.  Without [--outfile] the store is line-encoded.  The output path
    is then [output_for_analysis/mm/<name>.jsonl], where [<name>] is the
    last component of the resolved input path without its extension; the
    run appends to a line-encoded store, and the directory creation of
    line 236 is not refused. *)
Theorem X10_default_outfile_is_line_encoded args :
  outfile args = EmptyString ->
  outfile (normalize_args args)
  = "output_for_analysis/mm/"
      +:+ splitext_root (basename (infile (normalize_args args)))
      +:+ ".jsonl"
  /\ is_json_output (normalize_args args) = false
  /\ makedirs (dirname (outfile (normalize_args args))) = Ok tt.
Proof.
  intros Ho.
  set (name := splitext_root (basename (resolve_infile (infile args)))).
  assert (outfile (normalize_args args)
          = "output_for_analysis/mm/" +:+ name +:+ ".jsonl") as Hout.
  { unfold normalize_args. cbn [outfile]. unfold resolve_outfile.
    rewrite Ho. cbn [String.eqb]. apply path_join_results_dir.
    apply no_slash_not_abs. rewrite rfind_char_app_None by reflexivity.
    apply splitext_root_no_slash, basename_no_slash. }
  split; [exact Hout|]. split.
  - unfold is_json_output. rewrite Hout.
    rewrite <- str_app_assoc. apply endswith_jsonl.
  - rewrite Hout. unfold makedirs.
    destruct (String.eqb (dirname _) EmptyString) eqn:E; [|reflexivity].
    apply String.eqb_eq in E. exfalso. revert E.
    change ("output_for_analysis/mm/" +:+ name +:+ ".jsonl")
      with (String "o" ("utput_for_analysis/mm/" +:+ name +:+ ".jsonl")).
    destruct (rfind_char_app_Some "/" "output_for_analysis/mm/"
                (name +:+ ".jsonl") 22 eq_refl) as [k Hk].
    by eapply dirname_nonempty.
Qed.

(** X11.  The results directory is never prefixed twice, the input
    directory is.  Resolving the output path a second time changes
    nothing, whatever the path; resolving a plain relative input path a
    second time puts a second [mm/] before it. *)
Theorem X11_outfile_resolution_is_stable args :
  outfile (normalize_args (normalize_args args))
  = outfile (normalize_args args)
  /\ (is_plain_relative (infile args) = true ->
        infile (normalize_args args) = "mm/" +:+ infile args
        /\ infile (normalize_args (normalize_args args))
           = "mm/mm/" +:+ infile args).
Proof.
  split.
  - unfold normalize_args. cbn [infile outfile].
    generalize (resolve_infile (resolve_infile (infile args))) as i'.
    generalize (resolve_infile (infile args)) as i.
    generalize (outfile args) as o. intros o i i'.
    assert (forall y, startswith y "/" = false ->
              resolve_outfile i' (path_join results_dir y)
              = path_join results_dir y) as Hunder.
    { intros y Hy. rewrite (path_join_results_dir _ Hy).
      apply resolve_outfile_under_results. }
    destruct (String.eqb o EmptyString) eqn:Eo.
    + unfold resolve_outfile at 2 3. rewrite Eo. cbv zeta. apply Hunder.
      apply no_slash_not_abs. rewrite rfind_char_app_None by reflexivity.
      apply splitext_root_no_slash, basename_no_slash.
    + destruct (is_plain_relative o) eqn:Ep.
      * destruct (startswith (replace_char backslash "/" o)
                    "output_for_analysis/") eqn:Es.
        -- unfold resolve_outfile at 2 3. rewrite Eo, Ep, Es. cbn [negb].
           unfold resolve_outfile. by rewrite Eo, Ep, Es.
        -- unfold resolve_outfile at 2 3. rewrite Eo, Ep, Es. cbn [negb].
           apply Hunder.
           unfold is_plain_relative, isabs in Ep.
           by destruct (startswith o "/").
      * unfold resolve_outfile at 2 3. rewrite Eo, Ep.
        unfold resolve_outfile. by rewrite Eo, Ep.
  - intros Hp. unfold normalize_args. cbn [infile].
    rewrite (resolve_infile_plain _ Hp). split; [reflexivity|].
    rewrite resolve_infile_plain by reflexivity. reflexivity.
Qed.

Lemma rfind_char_cons_None c a s :
  rfind_char c (String a s) = None -> a <> c /\ rfind_char c s = None.
Proof.
  simpl. destruct (rfind_char c s); [discriminate|].
  destruct (Ascii.eqb a c) eqn:E; [discriminate|].
  intros _. split; [by apply Ascii.eqb_neq | reflexivity].
Qed.

Lemma rstrip_slashes_empty s :
  rstrip_slashes s = EmptyString -> all_chars "/" s = true.
Proof.
  induction s as [|c s IH]; [reflexivity|]. cbn [rstrip_slashes all_chars].
  destruct (String.eqb (rstrip_slashes s) EmptyString) eqn:Er;
    [|discriminate].
  destruct (Ascii.eqb c "/"); [|discriminate]. intros _.
  apply String.eqb_eq in Er. by rewrite (IH Er).
Qed.

(** [os.path.dirname] is empty exactly on the paths without a slash. *)
Lemma dirname_empty_iff p :
  dirname p = EmptyString <-> rfind_char "/" p = None.
Proof.
  unfold dirname, after_last_slash. split.
  - destruct (rfind_char "/" p) as [i|] eqn:Ei; [|reflexivity].
    destruct p as [|c s]; [discriminate|].
    change (str_take (S i) (String c s)) with (String c (str_take i s)).
    destruct (all_chars "/" (String c (str_take i s))) eqn:Ea;
      cbn [String.eqb negb andb]; [discriminate|].
    intros H. apply rstrip_slashes_empty in H. congruence.
  - intros ->. by destruct p.
Qed.

(** Exchanging two characters in the text is exchanging them in the
    prefix looked for. *)
Lemma prefix_replace_swap a b pre o :
  rfind_char a pre = None -> rfind_char b o = None ->
  String.prefix pre (replace_char a b o)
  = String.prefix (replace_char b a pre) o.
Proof.
  revert o. induction pre as [|x pre IH]; intros o Hpre Ho; [by destruct o|].
  destruct o as [|c o]; [reflexivity|].
  apply rfind_char_cons_None in Hpre as [Hx Hpre].
  apply rfind_char_cons_None in Ho as [Hc Ho].
  cbn [replace_char String.prefix].
  destruct (Ascii.eqb_spec c a), (Ascii.eqb_spec x b); subst;
    repeat match goal with
      | |- context [ascii_dec ?u ?v] => destruct (ascii_dec u v)
      end; subst; try congruence; by apply IH.
Qed.

Lemma startswith_dot_slash o :
  startswith o "./" = true -> exists i, rfind_char "/" o = Some i.
Proof.
  destruct o as [|c [|d o]]; try discriminate.
  - unfold startswith. cbn [String.prefix].
    by destruct (ascii_dec "." c).
  - unfold startswith. cbn [String.prefix].
    destruct (ascii_dec "." c); [|discriminate].
    destruct (ascii_dec "/" d) as [<-|]; [|discriminate]. intros _.
    cbn [rfind_char]. destruct (rfind_char "/" o); cbn; eauto.
Qed.

(** The resolved output path holds no slash exactly when the given one
    holds none and starts with [.\] or with [output_for_analysis\]. *)
Lemma resolve_outfile_slashless i o :
  rfind_char "/" (resolve_outfile i o) = None
  <-> rfind_char "/" o = None
      /\ (startswith o (String "." (String backslash EmptyString)) = true
          \/ startswith o ("output_for_analysis" +:+ String backslash "")
             = true).
Proof.
  assert (forall y, startswith y "/" = false ->
            rfind_char "/" (path_join results_dir y) <> None) as Hunder.
  { intros y Hy. rewrite (path_join_results_dir _ Hy).
    destruct (rfind_char_app_Some "/" "output_for_analysis/mm/" y 22 eq_refl)
      as [k ->]. discriminate. }
  assert (rfind_char "/" o = None ->
          startswith (replace_char backslash "/" o) "output_for_analysis/"
          = startswith o ("output_for_analysis" +:+ String backslash ""))
    as Hswap.
  { intros Ho. unfold startswith.
    by rewrite (prefix_replace_swap backslash "/" "output_for_analysis/" o). }
  unfold resolve_outfile.
  destruct (String.eqb o EmptyString) eqn:Eo.
  { apply String.eqb_eq in Eo as ->. split.
    - intros H. exfalso. revert H. apply Hunder, no_slash_not_abs.
      rewrite rfind_char_app_None by reflexivity.
      apply splitext_root_no_slash, basename_no_slash.
    - intros [_ [H|H]]; discriminate. }
  destruct (is_plain_relative o) eqn:Ep.
  - unfold is_plain_relative, isabs in Ep.
    apply andb_true_iff in Ep as [Ep Ebs].
    apply andb_true_iff in Ep as [Eabs Eds].
    apply negb_true_iff in Ebs, Eabs, Eds.
    destruct (startswith (replace_char backslash "/" o)
                "output_for_analysis/") eqn:Es; cbn [negb].
    + split.
      * intros Ho. split; [exact Ho|]. right. by rewrite <- (Hswap Ho).
      * by intros [Ho _].
    + split.
      * intros H. exfalso. revert H. by apply Hunder.
      * intros [Ho [H|H]]; [congruence|].
        rewrite <- (Hswap Ho) in H. congruence.
  - split; [|by intros [Ho _]].
    intros Ho. split; [exact Ho|]. left.
    unfold is_plain_relative, isabs in Ep.
    destruct (startswith o "/") eqn:Eabs.
    { apply startswith_slash_rfind in Eabs as [k Hk]. congruence. }
    destruct (startswith o "./") eqn:Eds.
    { apply startswith_dot_slash in Eds as [k Hk]. congruence. }
    cbn [negb andb] in Ep. by apply negb_false_iff in Ep.
Qed.

(** X12.  An output path written with backslashes only is refused before
    the run starts.  Under the path rules followed here the directory part
    of the resolved output path is empty exactly when the given output
    path holds no slash and starts with [.\] or [output_for_analysis\].
    The path is then kept as given, and line 236 raises
    [FileNotFoundError] on the empty directory name: [main] is not called
    and the file system is untouched. *)
Theorem X12_slashless_outfile_is_refused
    {Model Tool Agent : Type} (w : World Model Tool Agent)
    (args : Args) (sched : list nat) (fs : FS) :
  (dirname (outfile (normalize_args args)) = EmptyString
   <-> rfind_char "/" (outfile args) = None
       /\ (startswith (outfile args)
             (String "." (String backslash EmptyString)) = true
           \/ startswith (outfile args)
                ("output_for_analysis" +:+ String backslash "") = true))
  /\ (rfind_char "/" (outfile args) = None
      /\ (startswith (outfile args)
            (String "." (String backslash EmptyString)) = true
          \/ startswith (outfile args)
               ("output_for_analysis" +:+ String backslash "") = true) ->
      outfile (normalize_args args) = outfile args
      /\ exists e, entry w args sched fs = (fs, Raise e)
                   /\ exc_cls e = FileNotFoundError).
Proof.
  pose proof (resolve_outfile_slashless
                (resolve_infile (infile args)) (outfile args)) as Hres.
  change (resolve_outfile (resolve_infile (infile args)) (outfile args))
    with (outfile (normalize_args args)) in Hres.
  rewrite <- dirname_empty_iff in Hres.
  split; [exact Hres|].
  intros Hc. pose proof Hc as [Ho Hpre]. split.
  - unfold normalize_args, resolve_outfile. cbn [outfile].
    destruct (String.eqb (outfile args) EmptyString) eqn:Eo.
    { apply String.eqb_eq in Eo. rewrite Eo in Hpre.
      destruct Hpre; discriminate. }
    destruct (is_plain_relative (outfile args)) eqn:Ep; [|reflexivity].
    destruct Hpre as [Hpre|Hpre].
    + unfold is_plain_relative in Ep. rewrite Hpre in Ep.
      by rewrite andb_false_r in Ep.
    + unfold startswith.
      rewrite (prefix_replace_swap backslash "/" "output_for_analysis/")
        by (reflexivity || exact Ho).
      unfold startswith in Hpre.
      change (replace_char "/" backslash "output_for_analysis/")
        with ("output_for_analysis" +:+ String backslash "").
      by rewrite Hpre.
  - apply Hres in Hc. unfold entry, makedirs. rewrite Hc.
    cbn [String.eqb]. eexists. split; reflexivity.
Qed.

End EntryFacts.

(* ===================================================================== *)
(** ** The report tool on the engine's store *)
(* ===================================================================== *)

Section ReportFacts.

Lemma filter_solid_line r : filter solid (line r) = dump false r.
Proof.
  unfold line. rewrite filter_app, (filter_id solid) by apply dump_solid.
  apply app_nil_r.
Qed.

Lemma filter_solid_lines rs :
  filter solid (concat (map line rs)) = concat (map (dump false) rs).
Proof.
  induction rs as [|r rs IH]; [reflexivity|].
  simpl concat. by rewrite filter_app, filter_solid_line, IH.
Qed.

Lemma dump_not_nil v : dump false v <> [].
Proof.
  pose proof (dump_length_pos v) as H. intros E. rewrite E in H.
  simpl in H. lia.
Qed.

(** A store of one line is one JSON document. *)
Lemma loads_one_line r : wf r = true -> loads (concat (map line [r])) = Ok r.
Proof.
  intros Hwf. unfold loads. rewrite filter_solid_lines.
  simpl concat. rewrite app_nil_r.
  destruct (parse_dump_fuel (S (length (dump false r)))) as (Hv & _ & _).
  specialize (Hv r [] Hwf). rewrite app_nil_r in Hv.
  rewrite Hv by lia. reflexivity.
Qed.

(** A store of several lines is not: the text goes on after the first
    record. *)
Lemma loads_many_lines r1 r2 rs :
  wf r1 = true ->
  loads (concat (map line (r1 :: r2 :: rs)))
  = raise JSONDecodeError "Extra data".
Proof.
  intros Hwf. unfold loads. rewrite filter_solid_lines.
  simpl concat.
  destruct (parse_dump_fuel
              (S (length (dump false r1
                            ++ dump false r2
                            ++ concat (map (dump false) rs)))))
    as (Hv & _ & _).
  rewrite (Hv r1 _ Hwf) by (rewrite length_app; lia).
  destruct (dump false r2) as [|t ts] eqn:E; [by apply dump_not_nil in E|].
  reflexivity.
Qed.

Lemma parsable_lines_lines rs :
  Forall (fun r => wf r = true) rs ->
  parsable_lines (concat (map line rs)) = rs.
Proof.
  unfold parsable_lines. induction 1 as [|r rs Hr _ IH]; [reflexivity|].
  simpl concat. rewrite split_lines_line.
  rewrite filter_cons_True by apply nonempty_dump.
  cbn [omap list_omap]. rewrite (loads_dump false r Hr).
  f_equal. exact IH.
Qed.

(** What the report tool reads from a store that holds records. *)
Lemma store_read_back args fs recs :
  store_holds args fs recs -> recs <> [] ->
  Forall (fun r => exists d, r = VDict d) recs ->
  load_json_or_jsonl fs (outfile args) = Ok recs.
Proof.
  intros [Hwf H] Hne Hd. unfold load_json_or_jsonl.
  destruct (is_json_output args).
  - unfold read_existing in H.
    destruct (open_read fs (outfile args)) as [c|e] eqn:Eo.
    + cbn in H |- *. destruct (loads c) as [v|e] eqn:El.
      * injection H as ->. case_bool_decide as Hblank.
        { unfold loads in El. rewrite Hblank in El. discriminate. }
        reflexivity.
      * apply loads_Raise in El. rewrite El in H. congruence.
    + unfold open_read in Eo. destruct (fs !! outfile args); [discriminate|].
      injection Eo as <-. cbn in H. congruence.
  - rewrite wf_list in Hwf. apply forallb_Forall_wf in Hwf.
    unfold open_read.
    destruct (fs !! outfile args) as [c|] eqn:E; cbn in H.
    2:{ destruct recs as [|r rs]; [done|]. exfalso.
        simpl in H. unfold line in H. symmetry in H.
        apply app_eq_nil in H as [H _]. apply app_eq_nil in H as [_ H].
        discriminate. }
    subst c. cbn. rewrite filter_solid_lines.
    case_bool_decide as Hblank.
    { destruct recs as [|r rs]; [done|]. exfalso.
      simpl in Hblank. apply app_eq_nil in Hblank as [Hblank _].
      by apply dump_not_nil in Hblank. }
    destruct recs as [|r1 [|r2 rs]]; [done| |].
    + apply Forall_inv in Hwf, Hd. destruct Hd as [d ->].
      by rewrite loads_one_line.
    + rewrite loads_many_lines by (by apply Forall_inv in Hwf).
      unfold raise. cbn [exc_cls]. by rewrite parsable_lines_lines.
Qed.

(** X13.  The report tool reads back what the engine stores.  After one
    more record is written to a store that holds [old], in the array or
    in the line encoding, [load_json_or_jsonl] on the output path returns
    [old] followed by the record, provided the records are dictionaries;
    a line-encoded store of several records is read through the fallback
    of lines 39-49. *)
Theorem X13_report_tool_reads_back_the_store args fs old r :
  store_holds args fs old -> wf r = true ->
  Forall (fun x => exists d, x = VDict d) (old ++ [r]) ->
  exists fs', safe_write args r fs = Ok fs'
              /\ load_json_or_jsonl fs' (outfile args) = Ok (old ++ [r])
              /\ forall p, p <> outfile args -> p <> temp_file args ->
                   load_json_or_jsonl fs' p = load_json_or_jsonl fs p.
Proof.
  intros Hst Hr Hd.
  destruct (safe_write_store args r fs old Hst Hr) as (fs' & Hw & Hst').
  exists fs'. split; [exact Hw|]. split.
  - apply store_read_back; [exact Hst' | | exact Hd].
    by destruct old.
  - intros p Hp Ht. unfold load_json_or_jsonl, open_read.
    by rewrite (proj1 (safe_write_frame args r fs fs' Hw) p Hp Ht).
Qed.





(** The loop of lines 109-131, read from its result. *)
Lemma judge_items_rows j items :
  forall idx t t',
    judge_items j idx items t = Ok t' ->
    exists rows,
      details t' = details t ++ rows
      /\ Forall2 (row_of j) items rows
      /\ map d_number rows = seq (S idx) (length items)
      /\ total_count t' = (total_count t + length items)%nat
      /\ correct_count t'
         = (correct_count t
            + length (filter (fun row => d_correct row = true) rows))%nat.
Proof.
  induction items as [|item rest IH]; intros idx t t' H.
  - injection H as <-. exists []. rewrite app_nil_r. cbn.
    repeat split; [constructor | lia | lia].
  - cbn [judge_items] in H.
    apply bind_Ok in H as (q & Hq & H).
    apply bind_Ok in H as (gold & Hg & H).
    apply bind_Ok in H as (pred & Hp & H).
    apply bind_Ok in H as (verdict & Hv & H).
    apply bind_Ok in H as (shown & Hs & H).
    apply IH in H as (rows & Hd & Hrows & Hn & Ht & Hc).
    cbn [details total_count correct_count] in Hd, Ht, Hc.
    destruct item as [| | | | |d]; try discriminate.
    injection Hq as <-. injection Hg as <-. injection Hp as <-.
    eexists (_ :: rows). rewrite <- app_assoc in Hd.
    split; [exact Hd|]. split.
    { constructor; [|exact Hrows]. exists d, verdict. by repeat split. }
    split. { cbn. rewrite Hn. f_equal. lia. }
    split. { cbn [length]. lia. }
    rewrite Hc. destruct (fst verdict) eqn:Ev.
    + rewrite filter_cons_True by reflexivity. cbn [length]. lia.
    + rewrite filter_cons_False by (cbn; congruence). lia.
Qed.

Lemma Forall2_filter_le {A B} (R : A -> B -> Prop)
    (P : A -> Prop) (Q : B -> Prop)
    `{!forall a, Decision (P a)} `{!forall b, Decision (Q b)} l k :
  Forall2 R l k -> (forall a b, R a b -> P a -> Q b) ->
  (length (filter P l) <= length (filter Q k))%nat.
Proof.
  intros HR HPQ. induction HR as [|a b l k Hab _ IH]; [reflexivity|].
  destruct (decide (P a)) as [Ha|Ha].
  - rewrite filter_cons_True by exact Ha.
    rewrite filter_cons_True by eauto. cbn [length]. lia.
  - rewrite filter_cons_False by exact Ha.
    destruct (decide (Q b)).
    + rewrite filter_cons_True by assumption. cbn [length]. lia.
    + by rewrite filter_cons_False.
Qed.

Lemma row_of_exact j item row :
  row_of j item row -> exact_match j item = true ->
  d_correct row = true /\ d_reason row = "Exact Match".
Proof.
  intros (d & verdict & -> & Hv & Hc & Hr) He.
  unfold llm_judge in Hv. cbn [exact_match] in He. rewrite He in Hv.
  injection Hv as <-. by rewrite Hc, Hr.
Qed.

(** X14.  The tally of a report is consistent.  When
    [evaluate_single_file] returns its tuple of four, the file held at
    least one item, [total_count] is the number of items and of rows, so
    the division of line 133 is never by zero and its [else] is never
    taken, the rows are numbered from 1 in order, and [correct_count] is
    the number of rows marked correct, hence at most [total_count]. *)
Theorem X14_tally_is_consistent j fs file_path filename t :
  evaluate_single_file j fs file_path = Ok (Report filename t) ->
  exists items,
    load_json_or_jsonl fs file_path = Ok items
    /\ filename = basename file_path
    /\ (0 < total_count t)%nat
    /\ total_count t = length items
    /\ length (details t) = total_count t
    /\ map d_number (details t) = seq 1 (total_count t)
    /\ correct_count t
       = length (filter (fun row => d_correct row = true) (details t))
    /\ (correct_count t <= total_count t)%nat.
Proof.
  unfold evaluate_single_file. intros H.
  apply bind_Ok in H as (items & Hload & H). exists items.
  split; [exact Hload|].
  destruct items as [|item rest]; [discriminate|].
  apply bind_Ok in H as (t0 & Hj & H). injection H as <- <-.
  apply judge_items_rows in Hj as (rows & Hd & Hrows & Hn & Ht & Hc).
  cbn [details total_count correct_count app] in Hd, Ht, Hc.
  assert (length rows = length (item :: rest)) as Hlen.
  { symmetry. by eapply Forall2_length. }
  rewrite Hd, Ht, Hc, Hn, Hlen. cbn [length].
  repeat split; try lia.
  pose proof (length_filter (fun row => d_correct row = true) rows).
  cbn [length] in Hlen. lia.
Qed.

(** X15.  The chat model cannot take an exact match away.  In a report,
    the row of every item whose gold and predicted text are equal once
    stripped is marked correct with the reason [Exact Match], whatever the
    chat completion returns or raises, so [correct_count] is at least the
    number of such items. *)
Theorem X15_exact_matches_are_always_counted j fs file_path filename t items :
  evaluate_single_file j fs file_path = Ok (Report filename t) ->
  load_json_or_jsonl fs file_path = Ok items ->
  Forall2 (fun item row =>
             exact_match j item = true ->
             d_correct row = true /\ d_reason row = "Exact Match")
    items (details t)
  /\ (length (filter (fun item => exact_match j item = true) items)
      <= correct_count t)%nat.
Proof.
  unfold evaluate_single_file. intros H Hload. rewrite Hload in H.
  cbn in H. destruct items as [|item rest]; [discriminate|].
  apply bind_Ok in H as (t0 & Hj & H). injection H as _ <-.
  apply judge_items_rows in Hj as (rows & Hd & Hrows & _ & _ & Hc).
  cbn [details correct_count app] in Hd, Hc. rewrite Hd, Hc. split.
  - eapply Forall2_impl; [exact Hrows|]. intros x y Hxy.
    by apply row_of_exact.
  - eapply Forall2_filter_le; [exact Hrows|].
    intros x y Hxy Hx. by apply (row_of_exact j x y Hxy).
Qed.

(** One turn of the loop on an item that is a dictionary. *)
Lemma judge_items_dict j idx d rest t verdict shown :
  llm_judge j (field d "question") (field d "golden_answer")
    (field d "agent_result") = Ok verdict ->
  question_shown (field d "question") = Ok shown ->
  judge_items j idx (VDict d :: rest) t
  = judge_items j (S idx) rest
      {| correct_count :=
           (if fst verdict then correct_count t + 1 else correct_count t)%nat;
         total_count := (total_count t + 1)%nat;
         details :=
           details t
           ++ [{| d_number := idx + 1;
                  d_correct := fst verdict;
                  d_question := shown;
                  d_gold := ellipsis 30 (py_str j (field d "golden_answer"));
                  d_pred := ellipsis 30 (py_str j (field d "agent_result"));
                  d_reason := snd verdict |}] |}.
Proof.
  intros Hv Hs. cbn [judge_items py_get_default]. unfold field in *.
  unfold mbind, result_bind. cbv beta iota. rewrite Hv. cbv beta iota.
  rewrite Hs. reflexivity.
Qed.

(** [llm_judge] when every chat completion raises an [Exception]. *)
Lemma llm_judge_outage j q g p :
  (forall q g p, exists e,
      chat_completion j q g p = Raise e /\ is_Exception e = true) ->
  exists verdict,
    llm_judge j q g p = Ok verdict
    /\ fst verdict = String.eqb (strip (py_str j g)) (strip (py_str j p))
    /\ (snd verdict = "Exact Match" /\ fst verdict = true
        \/ (exists msg, snd verdict = "Error: " +:+ msg)
           /\ fst verdict = false).
Proof.
  intros Hdown. unfold llm_judge.
  destruct (String.eqb (strip (py_str j g)) (strip (py_str j p))) eqn:E.
  - eexists. split; [reflexivity|]. split; [reflexivity|]. by left.
  - destruct (Hdown (py_str j q) (strip (py_str j g)) (strip (py_str j p)))
      as (e & -> & ->).
    eexists. split; [reflexivity|]. split; [reflexivity|]. right. eauto.
Qed.

Lemma judge_items_outage j items :
  (forall q g p, exists e,
      chat_completion j q g p = Raise e /\ is_Exception e = true) ->
  Forall (fun item => exists d s,
            item = VDict d /\ field d "question" = VStr s) items ->
  forall idx t,
    exists t' rows,
      judge_items j idx items t = Ok t'
      /\ details t' = details t ++ rows
      /\ correct_count t'
         = (correct_count t
            + length (filter (fun item => exact_match j item = true) items))%nat
      /\ Forall (fun row =>
                   d_reason row = "Exact Match" /\ d_correct row = true
                   \/ (exists msg, d_reason row = "Error: " +:+ msg)
                      /\ d_correct row = false) rows.
Proof.
  intros Hdown. induction 1 as [|item rest (d & s & -> & Hq) _ IH];
    intros idx t.
  - exists t, []. rewrite app_nil_r. cbn. repeat split; [lia | constructor].
  - destruct (llm_judge_outage j (field d "question")
                (field d "golden_answer") (field d "agent_result") Hdown)
      as (verdict & Hv & Hfst & Hsnd).
    rewrite (judge_items_dict j idx d rest t verdict (VStr (ellipsis 50 s)) Hv)
      by (by rewrite Hq).
    edestruct IH as (t' & rows & -> & Hd & Hc & Hrows).
    cbn [details correct_count] in Hd, Hc.
    exists t'. eexists (_ :: rows). split; [reflexivity|].
    rewrite <- app_assoc in Hd. split; [exact Hd|]. split.
    + rewrite Hc. change (exact_match j (VDict d)) with
        (String.eqb (strip (py_str j (field d "golden_answer")))
                    (strip (py_str j (field d "agent_result")))).
      destruct (fst verdict) eqn:Ev.
      * rewrite filter_cons_True by (cbn; congruence). cbn [length]. lia.
      * rewrite filter_cons_False by (cbn; congruence). lia.
    + constructor; [exact Hsnd | exact Hrows].
Qed.

(** X16.  An outage of the chat model does not stop an evaluation.  When
    every chat completion raises an [Exception], a file of dictionaries
    with textual questions is still evaluated to the end; exactly the
    exact matches are counted correct, and every other row is marked wrong
    with a reason that starts with [Error: ]. *)
Theorem X16_judge_outage_counts_exact_matches j fs file_path items :
  (forall q g p, exists e,
      chat_completion j q g p = Raise e /\ is_Exception e = true) ->
  load_json_or_jsonl fs file_path = Ok items -> items <> [] ->
  Forall (fun item => exists d s,
            item = VDict d /\ field d "question" = VStr s) items ->
  exists t,
    evaluate_single_file j fs file_path = Ok (Report (basename file_path) t)
    /\ correct_count t
       = length (filter (fun item => exact_match j item = true) items)
    /\ Forall (fun row =>
                 d_reason row = "Exact Match" /\ d_correct row = true
                 \/ (exists msg, d_reason row = "Error: " +:+ msg)
                    /\ d_correct row = false) (details t).
Proof.
  intros Hdown Hload Hne Hitems. unfold evaluate_single_file.
  rewrite Hload. cbn [mbind result_bind].
  destruct items as [|item rest]; [done|].
  destruct (judge_items_outage j (item :: rest) Hdown Hitems O
              {| correct_count := O; total_count := O; details := [] |})
    as (t & rows & Hj & Hd & Hc & Hrows).
  exists t. unfold mbind, result_bind. rewrite Hj.
  cbn [details correct_count app] in Hd, Hc.
  split; [reflexivity|]. split; [by rewrite Hc|]. by rewrite Hd.
Qed.

Lemma evaluate_no_items j fs f :
  load_json_or_jsonl fs f = Ok [] ->
  evaluate_single_file j fs f = Ok (NoItems (basename f)).
Proof. intros H. unfold evaluate_single_file. by rewrite H. Qed.

Lemma compare_files_no_items j fs pre f post :
  Forall (fun g => exists filename t,
            evaluate_single_file j fs g = Ok (Report filename t)) pre ->
  load_json_or_jsonl fs f = Ok [] ->
  forall acc,
    compare_files j fs (pre ++ f :: post) acc
    = raise ValueError "not enough values to unpack (expected 4, got 3)".
Proof.
  intros Hpre Hload.
  induction Hpre as [|g pre (filename & t & Hg) _ IH]; intros acc.
  - cbn [app compare_files]. by rewrite (evaluate_no_items j fs f Hload).
  - cbn [app compare_files]. rewrite Hg. apply IH.
Qed.

(** X17.  One file without items stops a comparison.  For such a file
    [evaluate_single_file] returns its tuple of three, which the single
    file view shows as a message; line 159 unpacks four values, so a
    comparison that reaches the file raises [ValueError], whatever files
    follow and whatever the files before it held. *)
Theorem X17_item_less_file_stops_the_comparison j fs pre f post :
  Forall (fun g => exists filename t,
            evaluate_single_file j fs g = Ok (Report filename t)) pre ->
  load_json_or_jsonl fs f = Ok [] ->
  evaluate_single_file j fs f = Ok (NoItems (basename f))
  /\ evaluate_multiple_files j fs (pre ++ f :: post)
     = raise ValueError "not enough values to unpack (expected 4, got 3)".
Proof.
  intros Hpre Hload. split; [by apply evaluate_no_items|].
  unfold evaluate_multiple_files.
  rewrite (compare_files_no_items j fs pre f post Hpre Hload).
  by destruct pre.
Qed.

Lemma stats_set_keys {A} (stats : list (string * A)) k v :
  ((k ∈ map fst stats) /\ map fst (stats_set stats k v) = map fst stats)
  \/ ((k ∉ map fst stats)
      /\ map fst (stats_set stats k v) = map fst stats ++ [k]).
Proof.
  induction stats as [|[k' v'] stats IH].
  - right. split; [apply not_elem_of_nil | reflexivity].
  - cbn [stats_set]. destruct (String.eqb_spec k k') as [->|Hne].
    + left. split; [apply elem_of_cons; by left | reflexivity].
    + destruct IH as [[Hin Hk]|[Hin Hk]]; [left|right]; cbn [map fst].
      * split; [apply elem_of_cons; by right | by rewrite Hk].
      * split; [|by rewrite Hk].
        intros [?|?]%elem_of_cons; [done | by apply Hin].
Qed.

Lemma stats_set_NoDup {A} (stats : list (string * A)) k v :
  NoDup (map fst stats) -> NoDup (map fst (stats_set stats k v)).
Proof.
  intros H. destruct (stats_set_keys stats k v) as [[_ ->]|[Hk ->]];
    [exact H|].
  apply NoDup_app. split; [exact H|]. split; [|apply NoDup_singleton].
  intros x Hx ->%list_elem_of_singleton. by apply Hk.
Qed.

Lemma stats_set_elem {A} (stats : list (string * A)) k v k' :
  k' ∈ map fst (stats_set stats k v) <-> k' = k \/ k' ∈ map fst stats.
Proof.
  destruct (stats_set_keys stats k v) as [[Hk ->]|[_ ->]].
  - split; [tauto | by intros [->|]].
  - rewrite elem_of_app, list_elem_of_singleton. tauto.
Qed.

Lemma stats_set_entry {A} (stats : list (string * A)) k v k' v' :
  (k', v') ∈ stats_set stats k v ->
  (k' = k /\ v' = v) \/ (k', v') ∈ stats.
Proof.
  induction stats as [|[k0 v0] stats IH]; cbn [stats_set].
  - intros H%list_elem_of_singleton. left. by injection H.
  - destruct (String.eqb_spec k k0) as [->|Hne];
      intros [H|H]%elem_of_cons.
    + left. by injection H.
    + right. apply elem_of_cons. by right.
    + right. apply elem_of_cons. by left.
    + destruct (IH H) as [?|?]; [by left|].
      right. apply elem_of_cons. by right.
Qed.

Lemma evaluate_report_name j fs f filename t :
  evaluate_single_file j fs f = Ok (Report filename t) ->
  filename = basename f.
Proof.
  unfold evaluate_single_file. intros H.
  apply bind_Ok in H as (items & _ & H). destruct items; [discriminate|].
  apply bind_Ok in H as (t0 & _ & H). by injection H.
Qed.

(** The loop of lines 157-165, read from its result. *)
Lemma compare_files_inv j fs files :
  forall acc c,
    compare_files j fs files acc = Ok c ->
    map fst (summaries c) = map fst (summaries acc) ++ map basename files
    /\ (NoDup (map fst (stats acc)) -> NoDup (map fst (stats c)))
    /\ (forall k, k ∈ map fst (stats c) <->
                  k ∈ map fst (stats acc)
                  \/ k ∈ map (fun f => splitext_root (basename f)) files)
    /\ (forall k v, (k, v) ∈ stats c ->
          (k, v) ∈ stats acc
          \/ exists f t,
               f ∈ files
               /\ evaluate_single_file j fs f = Ok (Report (basename f) t)
               /\ k = splitext_root (basename f)
               /\ v = (correct_count t, total_count t)).
Proof.
  induction files as [|f files IH]; intros acc c H.
  - injection H as <-. rewrite app_nil_r.
    split; [reflexivity|]. split; [tauto|]. split.
    + intros k. cbn [map]. rewrite elem_of_nil. tauto.
    + intros k v Hkv. by left.
  - cbn [compare_files] in H.
    apply bind_Ok in H as (evaluation & He & H).
    destruct evaluation as [|filename t]; [discriminate|].
    pose proof (evaluate_report_name _ _ _ _ _ He) as ->.
    apply IH in H as (Hsum & Hnd & Hkeys & Hent).
    cbn [summaries stats] in Hsum, Hnd, Hkeys, Hent.
    split.
    { rewrite Hsum, map_app, <- app_assoc. reflexivity. }
    split.
    { intros Hacc. by apply Hnd, stats_set_NoDup. }
    split.
    { intros k. rewrite Hkeys, stats_set_elem. cbn [map].
      rewrite elem_of_cons. tauto. }
    intros k v Hkv. destruct (Hent k v Hkv) as [Hset|(g & t' & Hg & Hrest)].
    + apply stats_set_entry in Hset as [[-> ->]|Hacc]; [|by left].
      right. exists f, t. split; [apply elem_of_cons; by left|]. by repeat split.
    + right. exists g, t'. split; [apply elem_of_cons; by right | exact Hrest].
Qed.

(** X18.  The chart has one bar per root name.  After a comparison that
    returns, there is one summary per file, in order; [stats] has exactly
    one entry for each file name without its extension, so two files that
    differ in the extension only share an entry and the chart can have
    fewer bars than there are files; every entry is the tally of one of
    the files. *)
Theorem X18_one_bar_per_root_name j fs files c :
  evaluate_multiple_files j fs files = Ok (Some c) ->
  map fst (summaries c) = map basename files
  /\ NoDup (map fst (stats c))
  /\ (forall k, k ∈ map fst (stats c) <->
                k ∈ map (fun f => splitext_root (basename f)) files)
  /\ (forall k v, (k, v) ∈ stats c ->
        exists f t,
          f ∈ files
          /\ evaluate_single_file j fs f = Ok (Report (basename f) t)
          /\ k = splitext_root (basename f)
          /\ v = (correct_count t, total_count t))
  /\ (length (stats c) <= length files)%nat.
Proof.
  unfold evaluate_multiple_files. intros H.
  destruct files as [|f files]; [discriminate|].
  apply bind_Ok in H as (c0 & Hc & H). injection H as <-.
  apply compare_files_inv in Hc as (Hsum & Hnd & Hkeys & Hent).
  cbn [summaries stats map app] in Hsum, Hnd, Hkeys, Hent.
  assert (forall k, k ∈ map fst (stats c0) <->
                    k ∈ map (fun f => splitext_root (basename f)) (f :: files))
    as Hkeys'.
  { intros k. rewrite Hkeys, elem_of_nil. tauto. }
  split; [exact Hsum|]. split; [apply Hnd, NoDup_nil_2|].
  split; [exact Hkeys'|]. split.
  - intros k v Hkv. destruct (Hent k v Hkv) as [Hnil|Hfile]; [|exact Hfile].
    by apply elem_of_nil in Hnil.
  - rewrite <- (length_map fst (stats c0)).
    rewrite <- (length_map (fun f => splitext_root (basename f)) (f :: files)).
    apply submseteq_length, NoDup_submseteq; [apply Hnd, NoDup_nil_2|].
    intros k. apply Hkeys'.
Qed.

End ReportFacts.

(* ===================================================================== *)
(** ** What a run that returns needed *)
(* ===================================================================== *)

Section RunRequirements.

Context {Model Tool Agent : Type}.
Variable w : World Model Tool Agent.
Variable args : Args.

Lemma question_hashable_work_item item q k :
  py_get item "question" = Ok q -> py_hash q = Ok k ->
  is_work_item item = true.
Proof.
  destruct item as [| | | | |d]; try discriminate.
  intros [= <-] Hk. cbn [is_work_item]. by rewrite Hk.
Qed.

(** X20.  One malformed input item keeps a run from returning.  A run of
    [main] that returns its results had a usable API key and a positive
    [--concurrency], and every item of the input, as capped by
    [--sample_num], was an object whose [question] is hashable: line 151
    asks every item for its question, the items already done included, so
    an item that is not an object, or whose question is a list or an
    object, ends the run before any task is submitted. *)
Theorem X20_returning_run_had_a_well_formed_input sched fs fs' results :
  main w args sched fs = (fs', Ok (Some results)) ->
  api_key_unusable (env_OPENAI_API_KEY w) = false
  /\ 0 < concurrency args
  /\ exists data items,
       (load_data args fs ≫= cap_sample args) = Ok data
       /\ py_iter data = Ok items
       /\ Forall (fun item => is_work_item item = true) items.
Proof.
  intros Hmain.
  destruct (main_complete_inv w args sched fs fs' results Hmain)
    as (key & p & Hkey & Husable & Hp & Hconc & _).
  destruct (prepare_Ok w args key fs p Hp) as (out & Hdata & _ & _ & Hrun).
  destruct (data_to_run_Ok _ _ _ Hrun) as (items & Hiter & _ & Hitems).
  split; [by rewrite Hkey|]. split; [by apply Z.leb_gt in Hconc|].
  exists (p_data p), items. split; [exact Hdata|]. split; [exact Hiter|].
  eapply Forall_impl; [exact Hitems|].
  intros item (q & k & Hq & Hk). by eapply question_hashable_work_item.
Qed.

End RunRequirements.

(* ===================================================================== *)
(** ** Concrete runs of the properties above *)
(* ===================================================================== *)

Import ReportExamples.

Lemma store_holds_empty_disk_lines :
  store_holds args_jsonl (input_fs [q1; q2]) [].
Proof. split; [reflexivity | vm_compute; reflexivity]. Qed.

Lemma store_holds_empty_disk_array :
  store_holds args_json (input_fs [q1; q2]) [].
Proof. split; [reflexivity | vm_compute; reflexivity]. Qed.

(** X1 on a run over two items and an empty disk. *)
Lemma X1_witness :
  exists written,
    store_holds args_jsonl
      (fst (main w_ok args_jsonl [1%nat; 0%nat] (input_fs [q1; q2])))
      ([] ++ written)
    /\ forall results,
         snd (main w_ok args_jsonl [1%nat; 0%nat] (input_fs [q1; q2]))
         = Ok (Some results) -> results = written.
Proof.
  exact (X1_store_only_grows w_ok args_jsonl [1%nat; 0%nat]
           (input_fs [q1; q2]) [] w_ok_outputs_wf
           store_holds_empty_disk_lines).
Defined.

(** X2 on two items and an array-encoded store, the second task
    finishing first. *)
Lemma X2_witness :
  length results_q2_q1 = 2%nat
  /\ store_holds args_json
       (fst (main w_ok args_json [1%nat; 0%nat] (input_fs [q1; q2])))
       ([] ++ results_q2_q1).
Proof.
  edestruct (X2_one_record_per_pending_item w_ok args_json [1%nat; 0%nat]
               (input_fs [q1; q2])
               (fst (main w_ok args_json [1%nat; 0%nat] (input_fs [q1; q2])))
               results_q2_q1 "sk-test"
               {| p_model := tt; p_visual := tt; p_text := tt; p_audio := tt;
                  p_data := VList [q1; q2]; p_done := ∅;
                  p_pending := [q1; q2] |}
               [] w_ok_outputs_wf store_holds_empty_disk_array eq_refl)
    as (recs & _ & _ & Hlen & Hstore).
  - vm_compute. reflexivity.
  - vm_compute. apply perm_swap.
  - vm_compute. reflexivity.
  - split; [reflexivity | exact Hstore].
Defined.

(** X4 on a run over two items, run again on what it left. *)
Lemma X4_witness :
  fst (main w_ok args_jsonl [0%nat]
         (fst (main w_ok args_jsonl [0%nat; 1%nat] (input_fs [q1; q2]))))
  = fst (main w_ok args_jsonl [0%nat; 1%nat] (input_fs [q1; q2])).
Proof.
  refine (proj1 (proj2 (proj2
            (X4_completed_run_leaves_nothing_pending w_ok w_ok args_jsonl
               [0%nat; 1%nat] [0%nat] (input_fs [q1; q2])
               (fst (main w_ok args_jsonl [0%nat; 1%nat]
                       (input_fs [q1; q2])))
               [ok_record "Q1" "A1"; ok_record "Q2" "A2"] [] ∅
               (VList [q1; q2]) [q1; q2]
               w_ok_outputs_wf w_ok_no_own_question
               store_holds_empty_disk_lines _ _ _ _ eq_refl _ _ _ _)) _)).
  - vm_compute. reflexivity.
  - discriminate.
  - discriminate.
  - vm_compute. reflexivity.
  - repeat constructor; exists VNone; split; reflexivity.
  - vm_compute. reflexivity.
  - vm_compute. reflexivity.
  - vm_compute. reflexivity.
  - vm_compute. reflexivity.
Defined.

(** X5 on an item with a picture. *)
Lemma X5_witness :
  question_key q1_png = Ok (HStr "Q1")
  /\ (exists longer,
        question_key (ok_record q1_png_question "A1") = Ok (HStr longer)
        /\ longer <> "Q1")
  /\ data_to_run (VList [q1_png]) {[HStr q1_png_question]} = Ok [q1_png].
Proof.
  refine (X5_attachment_defeats_resume w_ok q1_png tt 7 "default" 6 tt tt tt
            (ok_record q1_png_question "A1") "Q1" (VStr "a.png")
            {[HStr q1_png_question]}
            w_ok_no_own_question eq_refl eq_refl eq_refl _ _).
  - vm_compute. reflexivity.
  - vm_compute. reflexivity.
Defined.

(** X6 on the input file of a run. *)
Lemma X6_witness :
  fst (main w_ok args_jsonl [0%nat; 1%nat] (input_fs [q1; q2])) !! "in.jsonl"
  = input_fs [q1; q2] !! "in.jsonl".
Proof.
  refine (proj1 (X6_main_touches_only_the_store w_ok args_jsonl
                   [0%nat; 1%nat] (input_fs [q1; q2])) "in.jsonl" _ _);
    discriminate.
Defined.

(** X7 on a store that holds an object. *)
Lemma X7_witness :
  exists e,
    safe_write args_json (ok_record "Q1" "A1") fs_object_store = Raise e
    /\ exc_cls e = AttributeError
    /\ exc_str e = "'dict' object has no attribute 'append'"
    /\ forall rest results,
         collect args_json (Ok (ok_record "Q1" "A1") :: rest) results
           fs_object_store
         = (fs_object_store, Raise e).
Proof.
  refine (X7_array_append_fails_on_non_list args_json (ok_record "Q1" "A1")
            (VDict []) fs_object_store eq_refl _ _ eq_refl).
  - vm_compute. reflexivity.
  - discriminate.
Defined.

(** X8 with a cap of one item on an input of two. *)
Lemma X8_witness : Z.of_nat (length [ok_record "Q1" "A1"]) <= 1.
Proof.
  refine (X8_sample_cap_bounds_results w_ok args_capped [0%nat]
            (input_fs [q1; q2])
            (fst (main w_ok args_capped [0%nat] (input_fs [q1; q2])))
            [ok_record "Q1" "A1"] 1 eq_refl _ _ _).
  - lia.
  - apply NoDup_singleton.
  - vm_compute. reflexivity.
Defined.

(** X9 on a store whose record has a list for its question. *)
Lemma X9_witness :
  fst (main w_ok args_jsonl [0%nat] fs_bad_store) = fs_bad_store.
Proof.
  refine (proj1 (X9_unusable_prior_record_stops_the_run w_ok args_jsonl
                   [0%nat] fs_bad_store [bad_record] bad_record
                   (mkExn TypeError "unhashable type: 'list'") _ _ _)).
  - vm_compute. reflexivity.
  - apply elem_of_cons. by left.
  - vm_compute. reflexivity.
Defined.

(** X10 on [data/set.json]. *)
Lemma X10_witness :
  outfile (normalize_args args_default_out)
  = "output_for_analysis/mm/set.jsonl"
  /\ is_json_output (normalize_args args_default_out) = false
  /\ makedirs (dirname (outfile (normalize_args args_default_out))) = Ok tt.
Proof.
  exact (X10_default_outfile_is_line_encoded args_default_out eq_refl).
Defined.

(** X11 on [data/set.json]. *)
Lemma X11_witness :
  infile (normalize_args args_default_out) = "mm/data/set.json"
  /\ infile (normalize_args (normalize_args args_default_out))
     = "mm/mm/data/set.json".
Proof.
  exact (proj2 (X11_outfile_resolution_is_stable args_default_out) eq_refl).
Defined.

(** X12 on an output path that starts with a dot and a backslash. *)
Lemma X12_witness :
  outfile (normalize_args args_dot_backslash) = outfile args_dot_backslash
  /\ exists e,
       entry w_ok args_dot_backslash [0%nat] (input_fs [q1])
       = (input_fs [q1], Raise e)
       /\ exc_cls e = FileNotFoundError.
Proof.
  apply (proj2 (X12_slashless_outfile_is_refused w_ok args_dot_backslash
                  [0%nat] (input_fs [q1]))).
  split; [reflexivity | left; reflexivity].
Defined.

(** X13 on a first record, in the array encoding. *)
Lemma X13_witness :
  exists fs',
    safe_write args_json (ok_record "Q1" "A1") (input_fs [q1; q2]) = Ok fs'
    /\ load_json_or_jsonl fs' (outfile args_json)
       = Ok ([] ++ [ok_record "Q1" "A1"])
    /\ forall p, p <> outfile args_json -> p <> temp_file args_json ->
         load_json_or_jsonl fs' p = load_json_or_jsonl (input_fs [q1; q2]) p.
Proof.
  refine (X13_report_tool_reads_back_the_store args_json (input_fs [q1; q2])
            [] (ok_record "Q1" "A1") store_holds_empty_disk_array eq_refl _).
  repeat constructor. eexists. reflexivity.
Defined.


(** X14 on a file of two answers. *)
Lemma X14_witness :
  exists items,
    load_json_or_jsonl fs_reports "runs/a.json" = Ok items
    /\ "a.json" = basename "runs/a.json"
    /\ (0 < total_count report_a)%nat
    /\ total_count report_a = length items
    /\ length (details report_a) = total_count report_a
    /\ map d_number (details report_a) = seq 1 (total_count report_a)
    /\ correct_count report_a
       = length (filter (fun row => d_correct row = true) (details report_a))
    /\ (correct_count report_a <= total_count report_a)%nat.
Proof.
  apply (X14_tally_is_consistent judge_yes fs_reports "runs/a.json"
           "a.json" report_a).
  vm_compute. reflexivity.
Defined.

(** X15 on a file of two answers, one of them an exact match. *)
Lemma X15_witness :
  Forall2 (fun item row =>
             exact_match judge_yes item = true ->
             d_correct row = true /\ d_reason row = "Exact Match")
    answers_a (details report_a)
  /\ (length (filter (fun item => exact_match judge_yes item = true) answers_a)
      <= correct_count report_a)%nat.
Proof.
  apply (X15_exact_matches_are_always_counted judge_yes fs_reports
           "runs/a.json" "a.json" report_a answers_a).
  - vm_compute. reflexivity.
  - vm_compute. reflexivity.
Defined.

(** X16 on the same file, the chat model down. *)
Lemma X16_witness :
  exists t,
    evaluate_single_file judge_down fs_reports "runs/a.json"
    = Ok (Report (basename "runs/a.json") t)
    /\ correct_count t
       = length (filter (fun item => exact_match judge_down item = true)
                   answers_a)
    /\ Forall (fun row =>
                 d_reason row = "Exact Match" /\ d_correct row = true
                 \/ (exists msg, d_reason row = "Error: " +:+ msg)
                    /\ d_correct row = false) (details t).
Proof.
  apply (X16_judge_outage_counts_exact_matches judge_down fs_reports
           "runs/a.json" answers_a).
  - intros q g p. exists boom. split; reflexivity.
  - vm_compute. reflexivity.
  - discriminate.
  - repeat constructor; eexists _, _; split; reflexivity.
Defined.

(** X17 on an empty file between two result files. *)
Lemma X17_witness :
  evaluate_single_file judge_yes fs_reports "runs/empty.jsonl"
  = Ok (NoItems (basename "runs/empty.jsonl"))
  /\ evaluate_multiple_files judge_yes fs_reports
       (["runs/a.json"] ++ "runs/empty.jsonl" :: ["runs/a.jsonl"])
     = raise ValueError "not enough values to unpack (expected 4, got 3)".
Proof.
  apply (X17_item_less_file_stops_the_comparison judge_yes fs_reports
           ["runs/a.json"] "runs/empty.jsonl" ["runs/a.jsonl"]).
  - constructor; [|constructor]. exists "a.json", report_a.
    vm_compute. reflexivity.
  - vm_compute. reflexivity.
Defined.

(** X18 on two result files that differ in the extension only. *)
Lemma X18_witness :
  map fst (summaries comparison_a)
  = map basename ["runs/a.json"; "runs/a.jsonl"]
  /\ NoDup (map fst (stats comparison_a))
  /\ (forall k, k ∈ map fst (stats comparison_a) <->
                k ∈ map (fun f => splitext_root (basename f))
                      ["runs/a.json"; "runs/a.jsonl"])
  /\ (forall k v, (k, v) ∈ stats comparison_a ->
        exists f t,
          f ∈ ["runs/a.json"; "runs/a.jsonl"]
          /\ evaluate_single_file judge_yes fs_reports f
             = Ok (Report (basename f) t)
          /\ k = splitext_root (basename f)
          /\ v = (correct_count t, total_count t))
  /\ (length (stats comparison_a) <= length ["runs/a.json"; "runs/a.jsonl"])%nat.
Proof.
  apply (X18_one_bar_per_root_name judge_yes fs_reports
           ["runs/a.json"; "runs/a.jsonl"] comparison_a).
  vm_compute. reflexivity.
Defined.

(** X20 on a run over two items. *)
Lemma X20_witness :
  api_key_unusable (env_OPENAI_API_KEY w_ok) = false
  /\ 0 < concurrency args_jsonl
  /\ exists data items,
       (load_data args_jsonl (input_fs [q1; q2]) ≫= cap_sample args_jsonl)
       = Ok data
       /\ py_iter data = Ok items
       /\ Forall (fun item => is_work_item item = true) items.
Proof.
  apply (X20_returning_run_had_a_well_formed_input w_ok args_jsonl
           [1%nat; 0%nat] (input_fs [q1; q2])
           (fst (main w_ok args_jsonl [1%nat; 0%nat] (input_fs [q1; q2])))
           results_q2_q1).
  vm_compute. reflexivity.
Defined.
